(** * Conformance engine of the O-Lang resolver tester

    A shallow embedding of the assertion registry, the metadata and runtime
    validators, the guidance generator, the assertion runner, the observation
    harness and the suite executor, then of the command-line entry point with
    its AST runner and of the badge generator, followed by the properties
    established about them.

    The engine is dynamically typed JavaScript: the same handler is applied to
    declarations, invocation contexts and whatever a contract module exports.
    The embedding therefore starts with the fragment of the language the
    engine relies on (values, truthiness, [typeof], property reads along the
    prototype chain, the [in] operator, [===], string conversion and
    [JSON.stringify]) and writes every function of the engine over it.

    Conventions.  A function of the engine returns a [completion]: a value,
    a thrown error, or the remark that control left the fragment.  Strings
    are byte strings.  Asynchrony is sequential here: the harness awaits each
    call before the next, so a call is a transition of the resolver's state
    that ends fulfilled or rejected; a call that never settles has no
    outcome and the harness has no timeout for it.  The file system the
    suite executor reads is a record of what it would find; console output
    is left out. *)

From Stdlib Require Import String Ascii List ZArith Bool Arith Lia DecimalString.
From Stdlib Require DecimalPos DecimalZ.
Import ListNotations.
Local Open Scope list_scope.
Local Open Scope string_scope.

Set Warnings "-register-all".

(* ===================================================================== *)
(** * The JavaScript fragment *)
(* ===================================================================== *)

Module JS.

(** Numbers.  The engine never does arithmetic on the numbers it is given: it
    tests them ([typeof], truthiness, [<=]) and prints them.  Integer-valued
    numbers (in the range that prints in plain decimal notation, below
    [10^21] in magnitude) and the three non-finite values are represented;
    fractional values behave as a non-zero [Int] in every test made here. *)
Inductive number : Type :=
| Int (z : Z)
| NaN
| Infinity (negative : bool).

(** Values.  An object is the list of its own enumerable properties in
    enumeration order (the order [JSON.stringify] prints them in); a function
    is opaque but carries own properties like any object.  Property lists are
    read with first-match lookup. *)
Inductive value : Type :=
| VUndefined
| VNull
| VBool (b : bool)
| VNumber (n : number)
| VString (s : string)
| VArray (elems : list value)
| VObject (props : list (string * value))
| VFunction (props : list (string * value)).

(** Outcome of an evaluation: a result, a thrown value, or [Unmodelled] when
    control would reach code that is not part of the fragment (a user-defined
    [toString], [valueOf] or [toJSON], the source text of a function, the
    prototype objects themselves). *)
Inductive completion (A : Type) : Type :=
| Normal (a : A)
| Throw (e : value)
| Unmodelled.

Arguments Normal {A} a.
Arguments Throw {A} e.
Arguments Unmodelled {A}.

Definition bind {A B : Type} (c : completion A) (k : A -> completion B)
  : completion B :=
  match c with
  | Normal a => k a
  | Throw e => Throw e
  | Unmodelled => Unmodelled
  end.

Notation "x <- c ;; k" := (bind c (fun x => k))
  (at level 61, c at next level, right associativity).

(** An [Error] instance, as far as the engine can observe one: its class
    name and its message. *)
Definition error_object (name message : string) : value :=
  VObject [("name", VString name); ("message", VString message)].

Definition TypeError (message : string) : value :=
  error_object "TypeError" message.

(** ** Primitive tests *)

Definition typeof (v : value) : string :=
  match v with
  | VUndefined => "undefined"
  | VNull => "object"
  | VBool _ => "boolean"
  | VNumber _ => "number"
  | VString _ => "string"
  | VArray _ => "object"
  | VObject _ => "object"
  | VFunction _ => "function"
  end.

Definition truthy (v : value) : bool :=
  match v with
  | VUndefined | VNull => false
  | VBool b => b
  | VNumber (Int z) => negb (Z.eqb z 0)
  | VNumber NaN => false
  | VNumber (Infinity _) => true
  | VString s => negb (s =? "")
  | VArray _ | VObject _ | VFunction _ => true
  end.

Definition isArray (v : value) : bool :=
  match v with VArray _ => true | _ => false end.

Definition nullish (v : value) : bool :=
  match v with VUndefined | VNull => true | _ => false end.

(** [a || b] on values. *)
Definition or_else (a b : value) : value := if truthy a then a else b.

Definition number_eqb (a b : number) : bool :=
  match a, b with
  | Int x, Int y => Z.eqb x y
  | Infinity s, Infinity t => Bool.eqb s t
  | _, _ => false
  end.

(** [a === b].  Objects, arrays and functions are equal only to themselves;
    the two sides of every comparison in the engine come from different
    allocations (declaration against test spec, declaration against thrown
    error), so such operands compare unequal. *)
Definition strict_equal (a b : value) : bool :=
  match a, b with
  | VUndefined, VUndefined => true
  | VNull, VNull => true
  | VBool x, VBool y => Bool.eqb x y
  | VNumber x, VNumber y => number_eqb x y
  | VString x, VString y => x =? y
  | _, _ => false
  end.

(** SameValueZero, the comparison of [Array.prototype.includes]. *)
Definition same_value_zero (a b : value) : bool :=
  match a, b with
  | VNumber NaN, VNumber NaN => true
  | _, _ => strict_equal a b
  end.

(** ** Strings *)

Definition dquote : string := String (ascii_of_nat 34) EmptyString.
Definition newline : string := String (ascii_of_nat 10) EmptyString.

Definition nat_to_string (n : nat) : string :=
  NilZero.string_of_uint (Nat.to_uint n).

Definition number_to_string (n : number) : string :=
  match n with
  | Int z => NilZero.string_of_int (Z.to_int z)
  | NaN => "NaN"
  | Infinity false => "Infinity"
  | Infinity true => "-Infinity"
  end.

(** [s.includes(sub)] on strings. *)
Fixpoint contains (sub s : string) : bool :=
  prefix sub s ||
  match s with
  | EmptyString => false
  | String _ rest => contains sub rest
  end.

Definition mem (k : string) (l : list string) : bool :=
  existsb (String.eqb k) l.

(** ** Property reads *)

Fixpoint lookup (k : string) (ps : list (string * value)) : option value :=
  match ps with
  | [] => None
  | (k', v) :: rest => if k =? k' then Some v else lookup k rest
  end.

Definition has_own (k : string) (ps : list (string * value)) : bool :=
  match lookup k ps with Some _ => true | None => false end.

(** Members of the built-in prototypes (ECMAScript 2023, with the legacy
    accessor helpers). *)
Definition object_prototype : list string :=
  [ "constructor"; "__defineGetter__"; "__defineSetter__"; "hasOwnProperty";
    "__lookupGetter__"; "__lookupSetter__"; "isPrototypeOf";
    "propertyIsEnumerable"; "toString"; "valueOf"; "__proto__";
    "toLocaleString" ].

Definition array_prototype : list string :=
  [ "at"; "concat"; "copyWithin"; "fill"; "find"; "findIndex"; "findLast";
    "findLastIndex"; "lastIndexOf"; "pop"; "push"; "reverse"; "shift";
    "unshift"; "slice"; "sort"; "splice"; "includes"; "indexOf"; "join";
    "keys"; "entries"; "values"; "forEach"; "filter"; "flat"; "flatMap";
    "map"; "every"; "some"; "reduce"; "reduceRight"; "toReversed";
    "toSorted"; "toSpliced"; "with" ].

Definition function_prototype : list string :=
  [ "apply"; "bind"; "call"; "arguments"; "caller" ].

Definition string_prototype : list string :=
  [ "at"; "charAt"; "charCodeAt"; "codePointAt"; "concat"; "endsWith";
    "includes"; "indexOf"; "isWellFormed"; "lastIndexOf"; "localeCompare";
    "match"; "matchAll"; "normalize"; "padEnd"; "padStart"; "repeat";
    "replace"; "replaceAll"; "search"; "slice"; "split"; "startsWith";
    "substr"; "substring"; "toLocaleLowerCase"; "toLocaleUpperCase";
    "toLowerCase"; "toUpperCase"; "toWellFormed"; "trim"; "trimEnd";
    "trimLeft"; "trimRight"; "trimStart"; "anchor"; "big"; "blink"; "bold";
    "fixed"; "fontcolor"; "fontsize"; "italics"; "link"; "small"; "strike";
    "sub"; "sup" ].

Definition number_prototype : list string :=
  [ "toExponential"; "toFixed"; "toPrecision" ].

(** What a read finds past the own properties.  The member itself is a
    built-in function; reading [__proto__], [arguments] or [caller] yields
    objects or errors that are not represented.  A function that does not
    carry its [name] and [length] reads the ones of [Function.prototype]. *)
Definition inherited (chain : list string) (k : string) : completion value :=
  if mem k ["__proto__"; "arguments"; "caller"] then
    if mem k chain then Unmodelled else Normal VUndefined
  else if mem k chain then Normal (VFunction [("name", VString k)])
  else Normal VUndefined.

(** The position named by a canonical array index below [len]. *)
Definition index_of_key (k : string) (len : nat) : option nat :=
  find (fun i => nat_to_string i =? k) (seq 0 len).

(** [v[k]] and [v.k]. *)
Definition get (v : value) (k : string) : completion value :=
  match v with
  | VUndefined =>
      Throw (TypeError ("Cannot read properties of undefined (reading '" ++ k ++ "')"))
  | VNull =>
      Throw (TypeError ("Cannot read properties of null (reading '" ++ k ++ "')"))
  | VBool _ => inherited object_prototype k
  | VNumber _ => inherited (number_prototype ++ object_prototype)%list k
  | VString s =>
      if k =? "length" then Normal (VNumber (Int (Z.of_nat (String.length s))))
      else match index_of_key k (String.length s) with
           | Some i => Normal (VString (substring i 1 s))
           | None => inherited (string_prototype ++ object_prototype)%list k
           end
  | VArray l =>
      if k =? "length" then Normal (VNumber (Int (Z.of_nat (List.length l))))
      else match index_of_key k (List.length l) with
           | Some i => Normal (nth i l VUndefined)
           | None => inherited (array_prototype ++ object_prototype)%list k
           end
  | VObject ps =>
      match lookup k ps with
      | Some x => Normal x
      | None => inherited object_prototype k
      end
  | VFunction ps =>
      match lookup k ps with
      | Some x => Normal x
      | None =>
          if k =? "name" then Normal (VString "")
          else if k =? "length" then Normal (VNumber (Int 0))
          else inherited (function_prototype ++ object_prototype)%list k
      end
  end.

(** [v?.k]. *)
Definition get_optional (v : value) (k : string) : completion value :=
  if nullish v then Normal VUndefined else get v k.

(** [k in v]: own or inherited; a [TypeError] on a primitive. *)
Definition has_property (v : value) (k : string) : completion bool :=
  match v with
  | VObject ps => Normal (has_own k ps || mem k object_prototype)
  | VArray l =>
      Normal ((k =? "length")
              || match index_of_key k (List.length l) with
                 | Some _ => true
                 | None => false
                 end
              || mem k (array_prototype ++ object_prototype)%list)
  | VFunction ps =>
      Normal (has_own k ps
              || mem k (["name"; "length"] ++ function_prototype ++ object_prototype)%list)
  | _ => Throw (TypeError "Cannot use 'in' operator to search for a key in a primitive")
  end.

(** ** Conversion to string *)

(** OrdinaryToPrimitive with hint string, for an object whose own properties
    are [ps] and whose inherited [toString] produces [builtin]. *)
Definition ordinary_to_primitive (ps : list (string * value))
    (builtin : completion string) : completion string :=
  match lookup "toString" ps with
  | None => builtin
  | Some (VFunction _) => Unmodelled
  | Some _ =>
      match lookup "valueOf" ps with
      | Some (VFunction _) => Unmodelled
      | _ => Throw (TypeError "Cannot convert object to primitive value")
      end
  end.

(** ToString. An array prints as its elements joined by commas, [null] and
    [undefined] elements printing as nothing. *)
Fixpoint to_string (v : value) : completion string :=
  match v with
  | VUndefined => Normal "undefined"
  | VNull => Normal "null"
  | VBool true => Normal "true"
  | VBool false => Normal "false"
  | VNumber n => Normal (number_to_string n)
  | VString s => Normal s
  | VArray l =>
      (fix join (l : list value) : completion string :=
         match l with
         | [] => Normal ""
         | x :: rest =>
             s <- (if nullish x then Normal "" else to_string x) ;;
             match rest with
             | [] => Normal s
             | _ :: _ => r <- join rest ;; Normal (s ++ "," ++ r)
             end
         end) l
  | VObject ps => ordinary_to_primitive ps (Normal "[object Object]")
  | VFunction ps => ordinary_to_primitive ps Unmodelled
  end.

(** ToPropertyKey, for the values of the fragment. *)
Definition to_property_key (v : value) : completion string := to_string v.

(** The pattern [/^[a-zA-Z][a-zA-Z0-9_]*$/]. *)
Definition is_letter (c : ascii) : bool :=
  let n := nat_of_ascii c in
  (Nat.leb 65 n && Nat.leb n 90) || (Nat.leb 97 n && Nat.leb n 122).

Definition is_word_char (c : ascii) : bool :=
  let n := nat_of_ascii c in
  is_letter c || (Nat.leb 48 n && Nat.leb n 57) || Nat.eqb n 95.

Definition identifier_pattern (s : string) : bool :=
  match s with
  | EmptyString => false
  | String c rest => is_letter c && forallb is_word_char (list_ascii_of_string rest)
  end.

(** [pattern.test(v)]: the argument is converted to a string first. *)
Definition pattern_test (v : value) : completion bool :=
  s <- to_string v ;; Normal (identifier_pattern s).

(** ** JSON.stringify *)

Definition hex_digit (n : nat) : string :=
  substring n 1 "0123456789abcdef".

Definition escape_char (c : ascii) : string :=
  let n := nat_of_ascii c in
  if Nat.eqb n 34 then "\" ++ dquote
  else if Nat.eqb n 92 then "\\"
  else if Nat.eqb n 8 then "\b"
  else if Nat.eqb n 9 then "\t"
  else if Nat.eqb n 10 then "\n"
  else if Nat.eqb n 12 then "\f"
  else if Nat.eqb n 13 then "\r"
  else if Nat.ltb n 32 then "\u00" ++ hex_digit (n / 16) ++ hex_digit (n mod 16)
  else String c EmptyString.

Fixpoint escape (s : string) : string :=
  match s with
  | EmptyString => EmptyString
  | String c rest => escape_char c ++ escape rest
  end.

Definition quote (s : string) : string := dquote ++ escape s ++ dquote.

Definition callable_toJSON (ps : list (string * value)) : bool :=
  match lookup "toJSON" ps with
  | Some (VFunction _) => true
  | _ => false
  end.

(** [JSON.stringify(v)] with no replacer and no indentation; [None] is the
    result [undefined].  Non-finite numbers print as [null]; properties whose
    value is [undefined] or a function are omitted from objects and print as
    [null] inside arrays. *)
Fixpoint stringify (v : value) : completion (option string) :=
  match v with
  | VUndefined => Normal None
  | VNull => Normal (Some "null")
  | VBool true => Normal (Some "true")
  | VBool false => Normal (Some "false")
  | VNumber (Int z) => Normal (Some (number_to_string (Int z)))
  | VNumber _ => Normal (Some "null")
  | VString s => Normal (Some (quote s))
  | VArray l =>
      parts <- (fix items (l : list value) : completion (list string) :=
                  match l with
                  | [] => Normal []
                  | x :: rest =>
                      sx <- stringify x ;;
                      sr <- items rest ;;
                      Normal (match sx with Some s => s | None => "null" end :: sr)
                  end) l ;;
      Normal (Some ("[" ++ String.concat "," parts ++ "]"))
  | VObject ps =>
      if callable_toJSON ps then Unmodelled
      else
        parts <- (fix members (ps : list (string * value)) : completion (list string) :=
                    match ps with
                    | [] => Normal []
                    | (k, x) :: rest =>
                        sx <- stringify x ;;
                        sr <- members rest ;;
                        Normal (match sx with
                                | Some s => (quote k ++ ":" ++ s) :: sr
                                | None => sr
                                end)
                    end) ps ;;
        Normal (Some ("{" ++ String.concat "," parts ++ "}"))
  | VFunction ps =>
      if callable_toJSON ps then Unmodelled else Normal None
  end.

(** The string a template literal or a comparison sees for the result of
    [JSON.stringify]. *)
Definition option_value (o : option string) : value :=
  match o with Some s => VString s | None => VUndefined end.

(** ** Relational comparison *)

Definition to_number (v : value) : completion number :=
  match v with
  | VUndefined => Normal NaN
  | VNull => Normal (Int 0)
  | VBool true => Normal (Int 1)
  | VBool false => Normal (Int 0)
  | VNumber n => Normal n
  | _ => Unmodelled
  end.

Definition number_leb (a b : number) : bool :=
  match a, b with
  | NaN, _ | _, NaN => false
  | Int x, Int y => Z.leb x y
  | Infinity true, _ => true
  | _, Infinity false => true
  | _, _ => false
  end.

Definition number_ltb (a b : number) : bool :=
  number_leb a b && negb (number_eqb a b).

(** [a <= b] and [a < b] when neither operand is a string or an object. *)
Definition less_equal (a b : value) : completion bool :=
  x <- to_number a ;; y <- to_number b ;; Normal (number_leb x y).

Definition less_than (a b : value) : completion bool :=
  x <- to_number a ;; y <- to_number b ;; Normal (number_ltb x y).

(** ** Array methods *)

(** The elements an array method iterates over when it is called as
    [recv.method(...)].  On anything but an array the method is missing (a
    [TypeError]) or is user code stored in an own property. *)
Definition elements_for (method : string) (recv : value)
  : completion (list value) :=
  match recv with
  | VArray l => Normal l
  | VUndefined =>
      Throw (TypeError ("Cannot read properties of undefined (reading '" ++ method ++ "')"))
  | VNull =>
      Throw (TypeError ("Cannot read properties of null (reading '" ++ method ++ "')"))
  | VObject ps | VFunction ps =>
      match lookup method ps with
      | Some (VFunction _) => Unmodelled
      | _ => Throw (TypeError (method ++ " is not a function"))
      end
  | _ => Throw (TypeError (method ++ " is not a function"))
  end.

(** [l.every(p)], [l.map(f)], [l.filter(p)], [l.find(p)]: the callback is
    applied left to right and its exception, if any, ends the iteration. *)
Fixpoint every (p : value -> completion bool) (l : list value) : completion bool :=
  match l with
  | [] => Normal true
  | x :: rest => b <- p x ;; if b then every p rest else Normal false
  end.

Fixpoint map {B : Type} (f : value -> completion B) (l : list value)
  : completion (list B) :=
  match l with
  | [] => Normal []
  | x :: rest => y <- f x ;; ys <- map f rest ;; Normal (y :: ys)
  end.

Fixpoint filter (p : value -> completion bool) (l : list value)
  : completion (list value) :=
  match l with
  | [] => Normal []
  | x :: rest =>
      b <- p x ;; ys <- filter p rest ;; Normal (if b then x :: ys else ys)
  end.

Fixpoint find (p : value -> completion bool) (l : list value) : completion value :=
  match l with
  | [] => Normal VUndefined
  | x :: rest => b <- p x ;; if b then Normal x else find p rest
  end.

Definition includes (l : list value) (x : value) : bool :=
  existsb (fun y => same_value_zero y x) l.

End JS.

Import JS.

(* ===================================================================== *)
(** * Data model *)
(* ===================================================================== *)

(** Test specs are parsed JSON documents of a fixed shape; they are typed
    records.  Declarations, invocation results and contract modules are what
    the validators inspect, so they stay untyped values. *)

Record Assertion : Type := {
  id : string;
  type : string;
  severity : option string;
  description : option string;
  field : option string;
  expected : value
}.

Record Fixture : Type := {
  resolver_contract : option string;
  invoke : value
}.

Record TestSpec : Type := {
  test_id : option string;
  category : option string;
  assertions : option (list Assertion);
  fixtures : list Fixture
}.

Record Failure : Type := {
  failure_id : string;
  failure_severity : string;
  failure_message : string
}.

(** The early "no assertions" report carries no [failures] property. *)
Record Report : Type := {
  ok : bool;
  message : string;
  failures : option (list Failure)
}.

Definition ret_bool (b : bool) : completion value := Normal (VBool b).

(** [a && b] when both operands are boolean tests: [b] is evaluated only if
    [a] holds. *)
Definition and_then (a b : completion bool) : completion bool :=
  x <- a ;; if x then b else Normal false.

Infix "&&&" := and_then (at level 40, left associativity).

(** The property key of [resolverMeta[assertion.field]]; an absent field
    reads the property named "undefined". *)
Definition field_key (assertion : Assertion) : string :=
  match field assertion with Some f => f | None => "undefined" end.

(* ===================================================================== *)
(** * Validators for resolver metadata *)
(* ===================================================================== *)

Definition checkResolverHasField (resolverMeta : value) (assertion : Assertion)
  : completion value :=
  v <- get resolverMeta (field_key assertion) ;;
  ret_bool (strict_equal v (expected assertion)).

Definition valid_input (i : value) : completion bool :=
  Normal (truthy i)
  &&& (n <- get i "name" ;; Normal (typeof n =? "string"))
  &&& (t <- get i "type" ;; Normal (typeof t =? "string"))
  &&& (r <- get i "required" ;; Normal (typeof r =? "boolean")).

Definition checkResolverInputsValid (resolverMeta : value) : completion value :=
  inputs <- get resolverMeta "inputs" ;;
  match inputs with
  | VArray l => b <- every valid_input l ;; ret_bool b
  | _ => ret_bool false
  end.

Definition valid_output (o : value) : completion bool :=
  Normal (truthy o)
  &&& (n <- get o "name" ;; Normal (typeof n =? "string"))
  &&& (t <- get o "type" ;; Normal (typeof t =? "string")).

Definition checkResolverOutputsValid (resolverMeta : value) : completion value :=
  outputs <- get resolverMeta "outputs" ;;
  match outputs with
  | VArray l => b <- every valid_output l ;; ret_bool b
  | _ => ret_bool false
  end.

Definition checkFieldNamesNormalized (resolverMeta : value) (assertion : Assertion)
  : completion value :=
  v <- get resolverMeta (field_key assertion) ;;
  let items := or_else v (VArray []) in
  match items with
  | VArray l =>
      b <- every (fun item => n <- get item "name" ;; pattern_test n) l ;;
      ret_bool b
  | _ => ret_bool false
  end.

Definition valid_failure (f : value) : completion bool :=
  Normal (truthy f)
  &&& (c <- get f "code" ;; Normal (typeof c =? "string"))
  &&& (r <- get f "retries" ;; Normal (typeof r =? "number")).

Definition checkResolverFailuresValid (resolverMeta : value) : completion value :=
  failures <- get resolverMeta "failures" ;;
  if negb (truthy failures) then ret_bool false
  else
    match failures with
    | VArray l => b <- every valid_failure l ;; ret_bool b
    | _ => ret_bool false
    end.

(* ===================================================================== *)
(** * Validators for resolver runtime *)
(* ===================================================================== *)

Definition checkResolverIsCallable (resolver : value) : completion value :=
  ret_bool (typeof resolver =? "function").

(** [(resolverMeta.failures || []).map(f => f.code)]. *)
Definition declaredCodes (resolverMeta : value) : completion (list value) :=
  failures <- get resolverMeta "failures" ;;
  l <- elements_for "map" (or_else failures (VArray [])) ;;
  JS.map (fun f => get f "code") l.

Definition checkFailureCodeDeclared (observedError resolverMeta : value)
  : completion value :=
  code <- get_optional observedError "code" ;;
  if negb (truthy code) then ret_bool true
  else
    codes <- declaredCodes resolverMeta ;;
    ret_bool (includes codes code).

Definition checkRejectsMissingRequiredInput (invocationResult : value)
  : completion value :=
  threw <- get invocationResult "threw" ;;
  if truthy threw then ret_bool true
  else
    output <- get invocationResult "output" ;;
    b <- Normal (negb (nullish output))
         &&& Normal (typeof output =? "object")
         &&& Normal (negb (isArray output))
         &&& has_property output "error" ;;
    ret_bool b.

(** The callback [f => f.code === code] of the two [find] calls. *)
Definition has_code (code f : value) : completion bool :=
  c <- get f "code" ;; Normal (strict_equal c code).

Definition checkRetryCountWithinLimit (observedRetries resolverMeta errorCode : value)
  : completion value :=
  failures <- get resolverMeta "failures" ;;
  l <- elements_for "find" (or_else failures (VArray [])) ;;
  failure <- JS.find (has_code errorCode) l ;;
  if negb (truthy failure) then ret_bool true
  else
    r <- get failure "retries" ;;
    b <- less_equal observedRetries r ;;
    ret_bool b.

Definition checkOutputIsObject (output : value) : completion value :=
  if negb (truthy output) || negb (typeof output =? "object") || isArray output
  then ret_bool false
  else
    kernel <- has_property output "output" ;;
    if kernel then
      o <- get output "output" ;;
      ret_bool (negb (strict_equal o VNull) && (typeof o =? "object") && negb (isArray o))
    else ret_bool true.

(** The rich result [{passed: false, details: {...}}]. *)
Definition not_passed (details : list (string * value)) : value :=
  VObject [("passed", VBool false); ("details", VObject details)].

(** [(resolverMeta.outputs || []).map(o => o.name)]. *)
Definition declaredNames (resolverMeta : value) : completion (list value) :=
  outputs <- get resolverMeta "outputs" ;;
  l <- elements_for "map" (or_else outputs (VArray [])) ;;
  JS.map (fun o => get o "name") l.

(** [!(name in actualOutput)]. *)
Definition missing_from (actualOutput name : value) : completion bool :=
  k <- to_property_key name ;;
  b <- has_property actualOutput k ;;
  Normal (negb b).

Definition checkOutputFieldsMatchContract (output resolverMeta : value)
  : completion value :=
  if negb (truthy output) || negb (typeof output =? "object") then
    Normal (not_passed [("reason", VString "no_output"); ("actualOutput", output)])
  else
    kernel <- has_property output "output" ;;
    actualOutput <- (if kernel then get output "output" else Normal output) ;;
    if negb (truthy actualOutput) || negb (typeof actualOutput =? "object") then
      Normal (not_passed [("reason", VString "invalid_output_shape");
                          ("actualOutput", output)])
    else
      names <- declaredNames resolverMeta ;;
      missingFields <- JS.filter (missing_from actualOutput) names ;;
      if Nat.ltb 0 (List.length missingFields) then
        Normal (not_passed [("reason", VString "missing_fields");
                            ("missingFields", VArray missingFields);
                            ("actualOutput", actualOutput);
                            ("expectedFields", VArray names)])
      else ret_bool true.

(** [JSON.stringify(r) === first]. *)
Definition same_serialization (first : option string) (r : value) : completion bool :=
  s <- stringify r ;;
  Normal (strict_equal (option_value s) (option_value first)).

(** [results.slice(1)], as the receiver of [every]. *)
Definition slice_1 (results : value) : completion (list value) :=
  match results with
  | VArray l => Normal (tl l)
  | VString _ => Throw (TypeError "results.slice(...).every is not a function")
  | _ => l <- elements_for "slice" results ;; Normal (tl l)
  end.

Definition checkDeterministicOutput (results : value) : completion value :=
  len <- get results "length" ;;
  few <- less_than len (VNumber (Int 2)) ;;
  if few then ret_bool true
  else
    r0 <- get results "0" ;;
    first <- stringify r0 ;;
    rest <- slice_1 results ;;
    b <- every (same_serialization first) rest ;;
    ret_bool b.

Definition checkNoGlobalMutation : completion value := ret_bool true.

(* ===================================================================== *)
(** * Guidance registry *)
(* ===================================================================== *)

Definition lines (l : list string) : string := String.concat newline l.

Definition bank_tip : string :=
  lines [ "";
          "💡 Bank resolver tip:";
          "- Your capability.js must return { balance: integer }";
          "- Create test/bank.db with customer_id=12345";
          "- Use exampleAction: " ++ dquote
            ++ "Action bank-account-lookup customer_id=12345 bank_db_path=./test/bank.db"
            ++ dquote ].

Definition telegram_tip : string :=
  lines [ "";
          "💡 Telegram resolver tip:";
          "- Your exampleAction must exactly match your hardcoded test string";
          "- Return { status: " ++ dquote ++ "sent" ++ dquote ++ " } for the test action" ].

Definition missing_fields_guidance (returned declared tips : string) : string :=
  lines [ "🔍 What happened?";
          "Your resolver returned: " ++ returned;
          "But your resolver.js declares outputs: [" ++ declared ++ "]";
          "";
          "💡 How to fix:";
          "1. Ensure your resolver returns the correct output structure";
          "2. Check your exampleAction matches your test logic";
          "3. Verify your test data exists" ++ tips;
          "";
          "📘 Learn more: https://o-lang.org/docs/conformance/output-contract" ].

Definition rejects_guidance : string :=
  lines [ "🔍 What happened?";
          "Your resolver didn't reject invalid input properly.";
          "";
          "💡 How to fix:";
          "- Return { error: " ++ dquote ++ "INVALID_INPUT" ++ dquote
            ++ " } for empty/missing inputs";
          "- Return undefined only for non-matching actions (e.g., Telegram actions sent to bank resolver)";
          "";
          "📘 Learn more: https://o-lang.org/docs/conformance/input-validation" ].

Definition object_guidance : string :=
  lines [ "🔍 What happened?";
          "Your resolver didn't return an object.";
          "";
          "💡 How to fix:";
          "- Return { output: { ... } } for kernel mode";
          "- Or return { field: value } for direct mode";
          "- Never return primitives, arrays, or undefined for valid actions";
          "";
          "📘 Learn more: https://o-lang.org/docs/conformance/output-contract" ].

Definition generic_guidance : string :=
  "Assertion failed. Check your resolver implementation.".

(** [resolverName.includes(sub)]: a substring test on a string, a membership
    test on an array, no such method on anything else. *)
Definition name_includes (resolverName : value) (sub : string) : completion bool :=
  match resolverName with
  | VString s => Normal (contains sub s)
  | _ => l <- elements_for "includes" resolverName ;;
         Normal (includes l (VString sub))
  end.

Definition getGuidanceMessage (assertionType : string) (details resolverMeta : value)
  : completion string :=
  rn <- get_optional resolverMeta "resolverName" ;;
  let resolverName := or_else rn (VString "unknown") in
  if assertionType =? "output_fields_match_contract" then
    reason <- get details "reason" ;;
    if strict_equal reason (VString "missing_fields") then
      bank <- name_includes resolverName "bank" ;;
      resolverTips <- (if bank then Normal bank_tip
                       else telegram <- name_includes resolverName "telegram" ;;
                            Normal (if telegram then telegram_tip else "")) ;;
      actual <- get details "actualOutput" ;;
      json <- stringify actual ;;
      returned <- to_string (option_value json) ;;
      expectedFields <- get details "expectedFields" ;;
      l <- elements_for "map" expectedFields ;;
      quoted <- JS.map (fun f => s <- to_string f ;; Normal (dquote ++ s ++ dquote)) l ;;
      Normal (missing_fields_guidance returned (String.concat ", " quoted) resolverTips)
    else Normal generic_guidance
  else if assertionType =? "rejects_missing_required_input" then Normal rejects_guidance
  else if assertionType =? "output_is_object" then Normal object_guidance
  else Normal generic_guidance.

(* ===================================================================== *)
(** * Assertion handler registry *)
(* ===================================================================== *)

(** A handler is called as [handler(target, assertion, status)]. *)
Definition handler : Type := value -> Assertion -> value -> completion value.

Definition assertionHandlers : list (string * handler) :=
  [ ("resolver_has_field",
      fun resolverMeta assertion _ => checkResolverHasField resolverMeta assertion);
    ("resolver_inputs_valid", fun resolverMeta _ _ => checkResolverInputsValid resolverMeta);
    ("resolver_outputs_valid", fun resolverMeta _ _ => checkResolverOutputsValid resolverMeta);
    ("field_names_normalized",
      fun resolverMeta assertion _ => checkFieldNamesNormalized resolverMeta assertion);
    ("resolver_failures_valid", fun resolverMeta _ _ => checkResolverFailuresValid resolverMeta);
    ("resolver_is_callable",
      fun ctx _ _ => r <- get ctx "resolver" ;; checkResolverIsCallable r);
    ("resolver_failure_declared",
      fun ctx _ _ =>
        e <- get ctx "error" ;; m <- get ctx "resolverMeta" ;;
        checkFailureCodeDeclared e m);
    ("rejects_missing_required_input",
      fun ctx _ _ => checkRejectsMissingRequiredInput ctx);
    ("retry_count_within_declared_limit",
      fun ctx _ _ =>
        n <- get ctx "retryCount" ;; m <- get ctx "resolverMeta" ;;
        e <- get ctx "error" ;; c <- get_optional e "code" ;;
        checkRetryCountWithinLimit n m c);
    ("output_is_object", fun ctx _ _ => o <- get ctx "output" ;; checkOutputIsObject o);
    ("output_fields_match_contract",
      fun ctx _ _ =>
        o <- get ctx "output" ;; m <- get ctx "resolverMeta" ;;
        checkOutputFieldsMatchContract o m);
    ("deterministic_output",
      fun ctx _ _ => o <- get ctx "outputs" ;; checkDeterministicOutput o);
    ("no_global_state_mutation", fun _ _ _ => checkNoGlobalMutation) ].

Definition registered : list string := List.map fst assertionHandlers.

Fixpoint own_handler (type : string) (table : list (string * handler)) : option handler :=
  match table with
  | [] => None
  | (k, h) :: rest => if type =? k then Some h else own_handler type rest
  end.

(** The registry is an object literal, so [type in assertionHandlers] also
    holds for the members of [Object.prototype], and
    [assertionHandlers[type](target, assertion, status)] then calls that
    member with the registry as receiver. *)
Definition inherited_handler (type : string) : option handler :=
  if mem type ["toString"; "toLocaleString"] then
    Some (fun _ _ _ => Normal (VString "[object Object]"))
  else if type =? "valueOf" then
    Some (fun _ _ _ =>
            Normal (VObject (List.map (fun k => (k, VFunction [])) registered)))
  else if type =? "isPrototypeOf" then
    Some (fun _ _ _ => ret_bool false)
  else if mem type ["hasOwnProperty"; "propertyIsEnumerable"] then
    Some (fun target _ _ => k <- to_property_key target ;; ret_bool (mem k registered))
  else if type =? "constructor" then
    Some (fun target _ _ =>
            match target with
            | VUndefined | VNull => Normal (VObject [])
            | VObject _ | VArray _ | VFunction _ => Normal target
            | _ => Unmodelled
            end)
  else if mem type ["__lookupGetter__"; "__lookupSetter__"] then
    Some (fun target _ _ =>
            k <- to_property_key target ;;
            Normal (if k =? "__proto__" then VFunction [] else VUndefined))
  else if mem type ["__defineGetter__"; "__defineSetter__"] then
    Some (fun _ _ _ =>
            Throw (TypeError ("Object.prototype." ++ type ++ ": Expecting function")))
  else if type =? "__proto__" then
    Some (fun _ _ _ => Throw (TypeError "assertionHandlers[type] is not a function"))
  else None.

(** [type in assertionHandlers], then [assertionHandlers[type]]. *)
Definition lookup_handler (type : string) : option handler :=
  match own_handler type assertionHandlers with
  | Some h => Some h
  | None => inherited_handler type
  end.

(* ===================================================================== *)
(** * Main assertion runner *)
(* ===================================================================== *)

(** The default value [status = {}] of the third parameter. *)
Definition default_status (status : value) : value :=
  match status with VUndefined => VObject [] | _ => status end.

Definition string_truthy (o : option string) : bool :=
  match o with Some s => negb (s =? "") | None => false end.

(** One iteration of the loop over [testSpec.assertions]: the failure it
    pushes, if any. *)
Definition check_assertion (target status : value) (assertion : Assertion)
  : completion (option Failure) :=
  let sev := match severity assertion with Some s => s | None => "fatal" end in
  match lookup_handler (type assertion) with
  | None =>
      Normal (Some {| failure_id := id assertion;
                      failure_severity := sev;
                      failure_message := "Unknown assertion type: " ++ type assertion |})
  | Some h =>
      result <- h target assertion status ;;
      pd <- (if (typeof result =? "object") && negb (strict_equal result VNull)
             then p <- get result "passed" ;; d <- get result "details" ;; Normal (p, d)
             else Normal (result, VNull)) ;;
      let (passed, details) := pd : value * value in
      if truthy passed then Normal None
      else
        msg <- (if truthy details then
                  m <- get status "resolverMeta" ;;
                  getGuidanceMessage (type assertion) details (or_else m target)
                else
                  Normal (match description assertion with
                          | Some d => if d =? "" then "Assertion failed: " ++ id assertion else d
                          | None => "Assertion failed: " ++ id assertion
                          end)) ;;
        Normal (Some {| failure_id := id assertion;
                        failure_severity := sev;
                        failure_message := msg |})
  end.

(** The loop, with the accumulator [failures] that [push] extends. *)
Fixpoint check_all (target status : value) (l : list Assertion) (acc : list Failure)
  : completion (list Failure) :=
  match l with
  | [] => Normal acc
  | assertion :: rest =>
      r <- check_assertion target status assertion ;;
      check_all target status rest
        (match r with Some f => acc ++ [f] | None => acc end)%list
  end.

Definition failure_line (f : Failure) : string :=
  "[" ++ failure_severity f ++ "] " ++ failure_id f ++ ": " ++ failure_message f.

Definition runAssertions (testSpec : TestSpec) (target status : value)
  : completion Report :=
  let status := default_status status in
  match assertions testSpec with
  | None | Some [] =>
      Normal {| ok := true; message := "No assertions defined"; failures := None |}
  | Some l =>
      fs <- check_all target status l [] ;;
      Normal {| ok := Nat.eqb (List.length fs) 0;
                message := if Nat.eqb (List.length fs) 0 then "All assertions passed"
                           else String.concat (newline ++ newline)
                                  (List.map failure_line fs);
                failures := Some fs |}
  end.

(* ===================================================================== *)
(** * Runtime resolver invoker with observation *)
(* ===================================================================== *)

Record InvocationContext : Type := {
  ctx_resolver : value;
  ctx_resolverMeta : value;
  ctx_output : value;
  ctx_outputs : list value;
  ctx_error : value;
  ctx_threw : bool;
  ctx_retryCount : value
}.

(** The context as the object the handlers receive. *)
Definition context_value (ctx : InvocationContext) : value :=
  VObject [ ("resolver", ctx_resolver ctx);
            ("resolverMeta", ctx_resolverMeta ctx);
            ("output", ctx_output ctx);
            ("outputs", VArray (ctx_outputs ctx));
            ("error", ctx_error ctx);
            ("threw", VBool (ctx_threw ctx));
            ("retryCount", ctx_retryCount ctx) ].

(** How [await Promise.resolve(resolver(input))] ends: with a value (returned
    or delivered by a promise) or with a thrown or rejected error.  A call
    that never settles has no outcome and is outside the model. *)
Inductive settlement : Type :=
| Fulfilled (result : value)
| Rejected (err : value).

Definition example_marker : string := "__USE_RESOLVER_EXAMPLE_ACTION__".
Definition determinism_test_id : string := "R-011-determinism".

Definition configuration_error : value :=
  error_object "Error" "Resolver must declare 'exampleAction' in resolver.js".

(** [fixture?.invoke]. *)
Definition fixture_invoke (fixture : option Fixture) : value :=
  match fixture with Some f => invoke f | None => VUndefined end.

(** The input handed to the resolver. *)
Definition resolver_input (resolverMeta : value) (fixture : option Fixture)
  : completion value :=
  if strict_equal (fixture_invoke fixture) (VString example_marker) then
    exampleAction <- get_optional resolverMeta "exampleAction" ;;
    if negb (truthy exampleAction) then Throw configuration_error
    else Normal exampleAction
  else Normal (or_else (fixture_invoke fixture) (VObject [])).

Definition runs (testSpec : TestSpec) : nat :=
  match test_id testSpec with
  | Some t => if t =? determinism_test_id then 3 else 1
  | None => 1
  end.

(** [resolverMeta.failures?.find(f => f.code === code)]. *)
Definition declared_failure (resolverMeta code : value) : completion value :=
  failures <- get resolverMeta "failures" ;;
  if nullish failures then Normal VUndefined
  else
    l <- elements_for "find" failures ;;
    JS.find (has_code code) l.

(** The [catch] block. *)
Definition on_error (resolverMeta : value) (ctx : InvocationContext) (err : value)
  : completion InvocationContext :=
  let ctx := {| ctx_resolver := ctx_resolver ctx;
                ctx_resolverMeta := ctx_resolverMeta ctx;
                ctx_output := ctx_output ctx;
                ctx_outputs := ctx_outputs ctx;
                ctx_error := err;
                ctx_threw := true;
                ctx_retryCount := ctx_retryCount ctx |} in
  code <- get err "code" ;;
  if truthy code then
    decl <- declared_failure resolverMeta code ;;
    if truthy decl then
      retries <- get decl "retries" ;;
      Normal {| ctx_resolver := ctx_resolver ctx;
                ctx_resolverMeta := ctx_resolverMeta ctx;
                ctx_output := ctx_output ctx;
                ctx_outputs := ctx_outputs ctx;
                ctx_error := ctx_error ctx;
                ctx_threw := ctx_threw ctx;
                ctx_retryCount := retries |}
    else Normal ctx
  else Normal ctx.

(** The [try] block after a successful call. *)
Definition on_result (ctx : InvocationContext) (result : value) : InvocationContext :=
  {| ctx_resolver := ctx_resolver ctx;
     ctx_resolverMeta := ctx_resolverMeta ctx;
     ctx_output := result;
     ctx_outputs := (ctx_outputs ctx ++ [result])%list;
     ctx_error := ctx_error ctx;
     ctx_threw := ctx_threw ctx;
     ctx_retryCount := ctx_retryCount ctx |}.

(** What the executor finds on disk.  Console output is not modelled. *)
Inductive file (A : Type) : Type :=
| Missing
| Unreadable (e : value)
| Contents (a : A).

Arguments Missing {A}.
Arguments Unreadable {A} e.
Arguments Contents {A} a.

Record World : Type := {
  (** [<package>/<suite>/test.json] *)
  test_json : string -> file TestSpec;
  (** [<cwd>/test-fixtures/<suite>.json] *)
  local_fixture : string -> file Fixture;
  (** [require(<package>/<suite>/<resolver_contract>)] *)
  contract_module : string -> string -> file value
}.

(** The verdict [!result.ok] turned into the increment of [failed]. *)
Definition verdict (result : Report) : nat := if ok result then 0 else 1.

Section Harness.

(** The resolver is foreign code: it may keep state between calls, which is
    what the determinism trials probe.  Its behaviour is a transition on a
    state of its own. *)
Variable State : Type.

Record Resolver : Type := {
  resolver_value : value;
  behaviour : value -> State -> settlement * State
}.

(** [resolver(input)]: calling something that is not a function throws. *)
Definition call (resolver : Resolver) (input : value) (s : State)
  : settlement * State :=
  match resolver_value resolver with
  | VFunction _ => behaviour resolver input s
  | _ => (Rejected (TypeError "resolver is not a function"), s)
  end.

(** The [for] loop with [n] iterations left. *)
Fixpoint trials (resolver : Resolver) (resolverMeta input : value) (n : nat)
    (ctx : InvocationContext) (s : State) : completion InvocationContext * State :=
  match n with
  | O => (Normal ctx, s)
  | S n' =>
      match call resolver input s with
      | (Fulfilled result, s') =>
          trials resolver resolverMeta input n' (on_result ctx result) s'
      | (Rejected err, s') => (on_error resolverMeta ctx err, s')
      end
  end.

Definition initial_context (resolver : Resolver) (resolverMeta : value)
  : InvocationContext :=
  {| ctx_resolver := resolver_value resolver;
     ctx_resolverMeta := resolverMeta;
     ctx_output := VNull;
     ctx_outputs := [];
     ctx_error := VNull;
     ctx_threw := false;
     ctx_retryCount := VNumber (Int 0) |}.

Definition invokeResolverWithObservation (resolver : Resolver)
    (resolverMeta : value) (testSpec : TestSpec) (fixture : option Fixture)
    (s : State) : completion InvocationContext * State :=
  match resolver_input resolverMeta fixture with
  | Normal input =>
      trials resolver resolverMeta input (runs testSpec)
        (initial_context resolver resolverMeta) s
  | Throw e => (Throw e, s)
  | Unmodelled => (Unmodelled, s)
  end.

(* =================================================================== *)
(** * Test suite executor *)
(* =================================================================== *)

(** One iteration of the loop over [suites]: the increment of [failed]. *)
Definition run_suite (w : World) (resolver : Resolver) (resolverMeta : value)
    (suite : string) (s : State) : completion nat * State :=
  match test_json w suite with
  | Missing => (Normal 1, s)
  | Unreadable e => (Throw e, s)
  | Contents testSpec =>
      match local_fixture w suite with
      | Unreadable e => (Throw e, s)
      | found =>
          let fixture := match found with
                         | Contents f => Some f
                         | _ => hd_error (fixtures testSpec)
                         end in
          match fixture with
          | None =>
              (Throw (TypeError
                 "Cannot read properties of undefined (reading 'resolver_contract')"), s)
          | Some fx =>
              if string_truthy (resolver_contract fx) then
                match contract_module w suite
                        (match resolver_contract fx with Some p => p | None => "" end) with
                | Missing => (Normal 1, s)
                | Unreadable _ => (Normal 1, s)
                | Contents target =>
                    (result <- runAssertions testSpec target VUndefined ;;
                     Normal (verdict result), s)
                end
              else if match category testSpec with
                      | Some c => c =? "resolver-runtime"
                      | None => false
                      end then
                match invokeResolverWithObservation resolver resolverMeta
                        testSpec fixture s with
                | (Normal runtimeContext, s') =>
                    match runAssertions testSpec (context_value runtimeContext)
                            (VObject [("resolverMeta", resolverMeta)]) with
                    | Normal result => (Normal (verdict result), s')
                    | Throw _ => (Normal 1, s')
                    | Unmodelled => (Unmodelled, s')
                    end
                | (Throw _, s') => (Normal 1, s')
                | (Unmodelled, s') => (Unmodelled, s')
                end
              else (Normal 1, s)
          end
      end
  end.

Fixpoint run_suites (w : World) (resolver : Resolver) (resolverMeta : value)
    (suites : list string) (failed : nat) (s : State) : completion nat * State :=
  match suites with
  | [] => (Normal failed, s)
  | suite :: rest =>
      match run_suite w resolver resolverMeta suite s with
      | (Normal n, s') => run_suites w resolver resolverMeta rest (failed + n) s'
      | (Throw e, s') => (Throw e, s')
      | (Unmodelled, s') => (Unmodelled, s')
      end
  end.

(** [resolver.resolverDeclaration || resolver]. *)
Definition resolver_meta (resolver : value) : completion value :=
  d <- get resolver "resolverDeclaration" ;;
  Normal (or_else d resolver).

(** [runAllTests({ suites, resolver })]; the result is [failed]. *)
Definition runAllTests (w : World) (suites : list string) (resolver : Resolver)
    (s : State) : completion nat * State :=
  match
    (resolverMeta <- resolver_meta (resolver_value resolver) ;;
     rn <- get resolverMeta "resolverName" ;;
     _ <- name_includes (or_else rn (VString "unknown")) "bank" ;;
     Normal resolverMeta)
  with
  | Normal resolverMeta => run_suites w resolver resolverMeta suites 0 s
  | Throw e => (Throw e, s)
  | Unmodelled => (Unmodelled, s)
  end.

End Harness.

(* ===================================================================== *)
(** * The AST runner ([lib/runner.js]) *)
(* ===================================================================== *)

(** The command-line entry point runs its suites with a second runner, which
    applies a test spec to a parsed resolver.  Its assertions carry a
    [message] where those of the engine carry a [description]. *)
Record AstAssertion : Type := {
  ast_id : string;
  ast_type : string;
  ast_severity : option string;
  ast_message : option string
}.

Record AstTestSpec : Type := {
  ast_assertions : option (list AstAssertion)
}.

Definition allowedNodes : list value :=
  [ VString "action"; VString "prompt"; VString "persist"; VString "emit";
    VString "use"; VString "ask" ].

Definition checkAllowlist (ast : value) : completion value :=
  steps <- get ast "steps" ;;
  if negb (truthy steps) then ret_bool false
  else
    l <- elements_for "every" steps ;;
    b <- every (fun step => t <- get step "type" ;; Normal (includes allowedNodes t)) l ;;
    ret_bool b.

(** [ast[k] && Array.isArray(ast[k]) && ast[k].length > 0]: the value of the
    first operand that decides. *)
Definition contract_exists (ast : value) (k : string) : completion value :=
  v <- get ast k ;;
  if negb (truthy v) then Normal v
  else if negb (isArray v) then ret_bool false
  else
    len <- get v "length" ;;
    b <- less_than (VNumber (Int 0)) len ;;
    ret_bool b.

Definition checkInputContract (ast : value) : completion value :=
  contract_exists ast "inputs".

Definition checkOutputContract (ast : value) : completion value :=
  contract_exists ast "outputs".

Definition checkFailureModes (ast : value) : completion value :=
  contract_exists ast "failures".

Module LibRunner.

(** The [switch] on the assertion type. *)
Definition dispatch (type : string) (resolverAST : value) : completion value :=
  if type =? "assert_allowlist" then checkAllowlist resolverAST
  else if type =? "assert_input_contract" then checkInputContract resolverAST
  else if type =? "assert_output_contract" then checkOutputContract resolverAST
  else if type =? "assert_failure_modes" then checkFailureModes resolverAST
  else ret_bool false.

(** The entry [{id, severity, message}] pushed for a failing assertion. *)
Definition failure_of (assertion : AstAssertion) : Failure :=
  {| failure_id := ast_id assertion;
     failure_severity :=
       match ast_severity assertion with Some s => s | None => "fatal" end;
     failure_message :=
       if string_truthy (ast_message assertion)
       then match ast_message assertion with Some m => m | None => "" end
       else "Assertion failed: " ++ ast_type assertion |}.

(** One iteration of the loop. *)
Definition check_assertion (resolverAST : value) (assertion : AstAssertion)
  : completion (option Failure) :=
  passed <- dispatch (ast_type assertion) resolverAST ;;
  Normal (if truthy passed then None else Some (failure_of assertion)).

Fixpoint check_all (resolverAST : value) (l : list AstAssertion) (acc : list Failure)
  : completion (list Failure) :=
  match l with
  | [] => Normal acc
  | assertion :: rest =>
      r <- check_assertion resolverAST assertion ;;
      check_all resolverAST rest
        (match r with Some f => acc ++ [f] | None => acc end)%list
  end.

Definition failure_line (f : Failure) : string :=
  failure_id f ++ ": " ++ failure_message f.

Definition runAssertions (testSpec : AstTestSpec) (resolverAST : value)
  : completion Report :=
  match ast_assertions testSpec with
  | None | Some [] =>
      Normal {| ok := true; message := "No assertions defined"; failures := None |}
  | Some l =>
      fs <- check_all resolverAST l [] ;;
      Normal {| ok := Nat.eqb (List.length fs) 0;
                message := if Nat.eqb (List.length fs) 0 then "All assertions passed"
                           else String.concat "; " (List.map failure_line fs);
                failures := Some fs |}
  end.

End LibRunner.

(* ===================================================================== *)
(** * The command-line entry point ([run.js]) *)
(* ===================================================================== *)

Module Cli.

(** What the script finds on disk.  The resolver language parser is not part
    of the fragment: a [.ol] file is given by the outcome of reading and
    parsing it, a [test.json] by the outcome of reading it and of
    [JSON.parse]. *)
Record Disk : Type := {
  (** the file named on the command line *)
  resolver_file : string -> file value;
  (** [fs.readdirSync] of [resolver-tests] *)
  resolver_tests : completion (list string);
  (** [resolver-tests/<suite>/test.json] *)
  suite_spec : string -> file AstTestSpec;
  (** [resolver-tests/<suite>/resolver.ol] *)
  suite_resolver : string -> file value
}.

(** How the process ends: [process.exit(code)], or an exception that nothing
    catches. *)
Inductive outcome : Type :=
| Exit (code : nat)
| Uncaught (e : value)
| Beyond.

Definition is_digit (c : ascii) : bool :=
  let n := nat_of_ascii c in Nat.leb 48 n && Nat.leb n 57.

(** [name.match(/^R-\d+/)], as a condition. *)
Definition suite_pattern (name : string) : bool :=
  match name with
  | String r (String dash (String c _)) =>
      Ascii.eqb r "R" && Ascii.eqb dash "-" && is_digit c
  | _ => false
  end.

(** [names.sort()]: ascending order of the names compared character by
    character, which is the order of their code units for names in ASCII. *)
Fixpoint insert_sorted (name : string) (sorted : list string) : list string :=
  match sorted with
  | [] => [name]
  | x :: rest =>
      if String.leb name x then name :: sorted else x :: insert_sorted name rest
  end.

Definition sort (names : list string) : list string :=
  fold_right insert_sorted [] names.

(** The [err.message] a [catch] block prints inside a template literal. *)
Definition error_message (err : value) : completion string :=
  m <- get err "message" ;; to_string m.

(** The loop over the suites, with the flag [overallFailed]. *)
Fixpoint run_suites (d : Disk) (suites : list string) (overallFailed : bool)
  : completion bool :=
  match suites with
  | [] => Normal overallFailed
  | suiteName :: rest =>
      match suite_spec d suiteName, suite_resolver d suiteName with
      | Missing, _ | _, Missing => run_suites d rest overallFailed
      | Unreadable err, _ =>
          _ <- error_message err ;; run_suites d rest true
      | Contents _, Unreadable err =>
          _ <- error_message err ;; run_suites d rest true
      | Contents testSpec, Contents suiteResolverAST =>
          result <- LibRunner.runAssertions testSpec suiteResolverAST ;;
          run_suites d rest (if ok result then overallFailed else true)
      end
  end.

(** The script, from [process.argv[2]] to the exit code. *)
Definition main (argv2 : option string) (d : Disk) : outcome :=
  match argv2 with
  | None => Exit 1
  | Some resolverPath =>
      if resolverPath =? "" then Exit 1
      else
        match resolver_file d resolverPath with
        | Missing => Exit 1
        | Unreadable err =>
            match get err "message" with
            | Normal _ => Exit 1
            | Throw e => Uncaught e
            | Unmodelled => Beyond
            end
        | Contents resolverAST =>
            match resolver_tests d with
            | Throw e => Uncaught e
            | Unmodelled => Beyond
            | Normal names =>
                let suites := sort (List.filter suite_pattern names) in
                if Nat.eqb (List.length suites) 0 then Exit 1
                else
                  match run_suites d suites false with
                  | Normal overallFailed => Exit (if overallFailed then 1 else 0)
                  | Throw e => Uncaught e
                  | Unmodelled => Beyond
                  end
            end
        end
  end.

End Cli.

(* ===================================================================== *)
(** * The badge generator ([lib/badge.js]) *)
(* ===================================================================== *)

Module Badge.

(** [generateBadge] builds an SVG document and writes it to a file named
    after the resolver; the document and the file's name are modelled, the
    creation of the [badges] directory and the write are not.

    Texts are UTF-8 encoded here, while [length] and the sanitising pattern
    count UTF-16 code units: one for a character of one to three bytes, two
    for a character of four bytes. *)
Definition units (c : ascii) : nat :=
  let n := nat_of_ascii c in
  if Nat.ltb n 128 then 1
  else if Nat.ltb n 192 then 0
  else if Nat.ltb n 240 then 1
  else 2.

Fixpoint length (s : string) : nat :=
  match s with
  | EmptyString => 0
  | String c rest => units c + length rest
  end.

(** The class [[a-zA-Z0-9_-]]. *)
Definition safe (c : ascii) : bool :=
  let n := nat_of_ascii c in
  is_letter c || (Nat.leb 48 n && Nat.leb n 57) || Nat.eqb n 95 || Nat.eqb n 45.

Fixpoint underscores (n : nat) : string :=
  match n with
  | O => EmptyString
  | S n' => String "_" (underscores n')
  end.

(** [resolverName.replace(/[^a-zA-Z0-9_-]/g, "_")]: every code unit outside
    the class becomes an underscore. *)
Fixpoint safeName (resolverName : string) : string :=
  match resolverName with
  | EmptyString => EmptyString
  | String c rest =>
      (if safe c then String c EmptyString else underscores (units c))
      ++ safeName rest
  end.

(** [isoString.split("T")[0]]. *)
Fixpoint before_T (isoString : string) : string :=
  match isoString with
  | EmptyString => EmptyString
  | String c rest => if Ascii.eqb c "T" then EmptyString else String c (before_T rest)
  end.

(** [`${width / 2}`]. *)
Definition half (width : nat) : string :=
  nat_to_string (width / 2) ++ (if Nat.even width then "" else ".5").

(** The arguments, after the defaults of the parameter pattern
    ([resolverName] "Unknown", [version] "", [passed] false). *)
Record Options : Type := {
  resolverName : option string;
  version : value;
  passed : value
}.

Definition name_of (args : Options) : string :=
  match resolverName args with Some n => n | None => "Unknown" end.

Definition badgeText (args : Options) (isoString : string) : completion string :=
  let statusText := if truthy (passed args) then "Certified" else "Failed" in
  versionText <- (if truthy (version args)
                  then v <- to_string (version args) ;; Normal (" v" ++ v)
                  else Normal "") ;;
  Normal ("O-lang | " ++ name_of args ++ versionText ++ " — " ++ statusText
            ++ " (" ++ before_T isoString ++ ")").

Definition attribute (name value : string) : string :=
  name ++ "=" ++ dquote ++ value ++ dquote.

(** The SVG document, for the date [new Date().toISOString()] yields. *)
Definition badgeSvg (args : Options) (isoString : string) : completion string :=
  let color := if truthy (passed args) then "green" else "red" in
  text <- badgeText args isoString ;;
  let width := 20 + length text * 7 in
  Normal (lines
    [ "<svg " ++ attribute "xmlns" "http://www.w3.org/2000/svg" ++ " "
        ++ attribute "width" (nat_to_string width) ++ " "
        ++ attribute "height" "20" ++ ">";
      "  <rect " ++ attribute "width" (nat_to_string width) ++ " "
        ++ attribute "height" "20" ++ " " ++ attribute "fill" color ++ " "
        ++ attribute "rx" "3" ++ " " ++ attribute "ry" "3" ++ "/>";
      "  <text " ++ attribute "x" (half width) ++ " " ++ attribute "y" "14";
      "        " ++ attribute "fill" "#fff";
      "        " ++ attribute "font-family" "Verdana";
      "        " ++ attribute "font-size" "12";
      "        " ++ attribute "text-anchor" "middle" ++ ">";
      "    " ++ text;
      "  </text>";
      "</svg>" ]).

(** The name of the file the badge is written to, inside [badges]. *)
Definition badgeFile (args : Options) : string :=
  safeName (name_of args) ++ "-badge.svg".

End Badge.

(* ===================================================================== *)
(** * Properties *)
(* ===================================================================== *)

(** ** Facts about the fragment *)

Lemma bind_normal {A B : Type} (c : completion A) (k : A -> completion B) (b : B) :
  bind c k = Normal b <-> exists a, c = Normal a /\ k a = Normal b.
Proof.
  destruct c as [a | e |]; simpl.
  - split; [intros H; exists a; auto | intros (a' & Ha & Hk); congruence].
  - split; [discriminate | intros (a' & Ha & _); discriminate].
  - split; [discriminate | intros (a' & Ha & _); discriminate].
Qed.

Lemma and_then_true (a b : completion bool) :
  a &&& b = Normal true <-> a = Normal true /\ b = Normal true.
Proof.
  unfold and_then. rewrite bind_normal. split.
  - intros ([|] & Ha & Hb); [auto | discriminate].
  - intros (Ha & Hb). exists true. auto.
Qed.

Lemma typeof_string (v : value) :
  (typeof v =? "string") = true <-> exists s, v = VString s.
Proof.
  destruct v; simpl; split; intros H; try discriminate;
    try (destruct H as (s' & H); discriminate); eauto.
Qed.

Lemma typeof_number (v : value) :
  (typeof v =? "number") = true <-> exists n, v = VNumber n.
Proof.
  destruct v; simpl; split; intros H; try discriminate;
    try (destruct H as (s' & H); discriminate); eauto.
Qed.

(** An object-typed truthy value is an array or a plain object. *)
Lemma typeof_object (v : value) :
  truthy v = true -> (typeof v =? "object") = true ->
  (exists l, v = VArray l) \/ (exists ps, v = VObject ps).
Proof.
  destruct v; simpl; intros Ht Ho; try discriminate; eauto.
Qed.

Lemma every_true (p : value -> completion bool) (l : list value) :
  every p l = Normal true <-> Forall (fun x => p x = Normal true) l.
Proof.
  induction l as [| x rest IH]; simpl.
  - split; auto.
  - rewrite bind_normal. split.
    + intros ([|] & Hx & Hrest); [| discriminate].
      constructor; [assumption | now apply IH].
    + intros H. inversion H as [| ? ? Hx Hrest]; subst.
      exists true. split; [assumption | now apply IH].
Qed.

(** Only an object or a function can answer a read of [code] with a string:
    such a value is truthy. *)
Lemma string_code_truthy (f : value) (c : string) :
  get f "code" = Normal (VString c) -> truthy f = true.
Proof.
  destruct f as [| | b | n | s | l | ps | ps]; simpl; try discriminate; auto.
  destruct s as [| a s']; [discriminate | reflexivity].
Qed.

(** The values [===] can identify: everything but [NaN] and the structured
    values, which are equal only to themselves. *)
Definition comparable (v : value) : Prop :=
  match v with
  | VUndefined | VNull | VBool _ | VString _ => True
  | VNumber NaN => False
  | VNumber _ => True
  | VArray _ | VObject _ | VFunction _ => False
  end.

Lemma strict_equal_true (a b : value) :
  strict_equal a b = true <-> a = b /\ comparable b.
Proof.
  split.
  - destruct a as [| | x | x | x | x | x | x], b as [| | y | y | y | y | y | y];
      simpl; try discriminate; intros H.
    + split; [reflexivity | exact I].
    + split; [reflexivity | exact I].
    + apply Bool.eqb_prop in H. subst. split; [reflexivity | exact I].
    + destruct x as [x | | x], y as [y | | y]; simpl in *; try discriminate.
      * apply Z.eqb_eq in H. subst. split; [reflexivity | exact I].
      * apply Bool.eqb_prop in H. subst. split; [reflexivity | exact I].
    + apply String.eqb_eq in H. subst. split; [reflexivity | exact I].
  - intros (-> & Hc).
    destruct b as [| | y | y | y | y | y | y]; simpl in *;
      try contradiction; try reflexivity.
    + apply Bool.eqb_reflx.
    + destruct y as [y | | y]; [apply Z.eqb_refl | contradiction | apply Bool.eqb_reflx].
    + apply String.eqb_refl.
Qed.

Lemma get_normal_not_nullish (v c : value) (k : string) :
  get v k = Normal c -> nullish v = false.
Proof. destruct v; simpl; try discriminate; reflexivity. Qed.

(** Reading a property that no prototype defines never fails on a value
    that is neither [null] nor [undefined]. *)
Lemma get_plain_key (v : value) (k : string) :
  nullish v = false ->
  mem k ["__proto__"; "arguments"; "caller"; "length"] = false ->
  exists x, get v k = Normal x.
Proof.
  intros Hv Hk.
  assert (Hinh : forall chain, exists x, inherited chain k = Normal x).
  { intros chain. unfold inherited.
    assert (Hs : mem k ["__proto__"; "arguments"; "caller"] = false).
    { unfold mem in *. simpl in *. repeat rewrite orb_false_iff in Hk.
      repeat rewrite orb_false_iff. tauto. }
    rewrite Hs. destruct (mem k chain); eauto. }
  assert (Hlen : (k =? "length") = false).
  { unfold mem in Hk. simpl in Hk. repeat rewrite orb_false_iff in Hk. tauto. }
  destruct v as [| | b | n | s | l | ps | ps]; simpl in *; try discriminate;
    try apply Hinh.
  - rewrite Hlen. destruct (index_of_key k (String.length s)); eauto.
  - rewrite Hlen. destruct (index_of_key k (List.length l)); eauto.
  - destruct (lookup k ps); eauto.
  - destruct (lookup k ps); eauto.
    destruct (k =? "name"); eauto. rewrite Hlen. apply Hinh.
Qed.

(** ** The failures validator *)

(** An entry of [failures] with a string [code] and a numeric [retries]. *)
Definition well_formed_failure (f : value) : Prop :=
  (exists c, get f "code" = Normal (VString c))
  /\ (exists n, get f "retries" = Normal (VNumber n)).

Lemma valid_failure_true (f : value) :
  valid_failure f = Normal true <-> well_formed_failure f.
Proof.
  unfold valid_failure, well_formed_failure.
  rewrite !and_then_true, !bind_normal. split.
  - intros ((_ & (c & Hc & Hs)) & (r & Hr & Hn)).
    injection Hs as Hs. injection Hn as Hn.
    apply typeof_string in Hs. apply typeof_number in Hn.
    destruct Hs as (c' & ->). destruct Hn as (n & ->). eauto.
  - intros ((c & Hc) & (n & Hn)). repeat split.
    + f_equal. eapply string_code_truthy; eassumption.
    + exists (VString c). auto.
    + exists (VNumber n). auto.
Qed.

(** C3, as stated, fails: a declaration whose [failures] is the empty list
    declares no failure mode and passes [resolver_failures_valid]. *)
Lemma failures_valid_accepts_empty_list :
  let declaration := VObject [("failures", VArray [])] in
  get declaration "failures" = Normal (VArray [])
  /\ checkResolverFailuresValid declaration = Normal (VBool true).
Proof. split; reflexivity. Qed.

(** C3, amended: [resolver_failures_valid] passes exactly when reading
    [failures] from the declaration yields a sequence, possibly empty, in
    which every element has a string [code] and a numeric [retries].  An
    absent [failures] field, and any value that is not a sequence, fails. *)
Theorem failures_valid_iff_every_entry_well_formed (resolverMeta : value) :
  checkResolverFailuresValid resolverMeta = Normal (VBool true)
  <-> exists l, get resolverMeta "failures" = Normal (VArray l)
                /\ Forall well_formed_failure l.
Proof.
  unfold checkResolverFailuresValid. rewrite bind_normal. split.
  - intros (failures & Hget & Hrun).
    destruct failures as [| | b | n | s | l | ps | ps]; simpl in Hrun;
      try discriminate;
      try (destruct (negb _) in Hrun; discriminate).
    exists l. split; [assumption |].
    unfold ret_bool in Hrun. apply bind_normal in Hrun.
    destruct Hrun as (b & Hevery & Hb). injection Hb as ->.
    apply every_true in Hevery.
    eapply Forall_impl; [| exact Hevery].
    intros f. apply valid_failure_true.
  - intros (l & Hget & Hall). exists (VArray l). split; [assumption |].
    simpl. apply bind_normal. exists true. split; [| reflexivity].
    apply every_true. eapply Forall_impl; [| exact Hall].
    intros f. apply valid_failure_true.
Qed.

(** An absent [failures] field fails. *)
Lemma failures_valid_rejects_absent (ps : list (string * value)) :
  lookup "failures" ps = None ->
  checkResolverFailuresValid (VObject ps) = Normal (VBool false).
Proof.
  intros H. unfold checkResolverFailuresValid. simpl. rewrite H. reflexivity.
Qed.

(** ** The failure-code validator *)

(** C4, as stated, fails: an error that was thrown without a [code] passes
    [resolver_failure_declared] although its code, [undefined], is not among
    the declared ones. *)
Lemma failure_declared_passes_error_without_code :
  let err := VObject [("message", VString "boom")] in
  let declaration :=
    VObject [("failures",
              VArray [VObject [("code", VString "NOT_FOUND");
                               ("retries", VNumber (Int 2))]])] in
  nullish err = false
  /\ get err "code" = Normal VUndefined
  /\ declaredCodes declaration = Normal [VString "NOT_FOUND"]
  /\ includes [VString "NOT_FOUND"] VUndefined = false
  /\ checkFailureCodeDeclared err declaration = Normal (VBool true).
Proof. repeat split; reflexivity. Qed.

(** The declaration declares the code [code]: its [failures] is a sequence
    one of whose entries has that code. *)
Definition declares_code (resolverMeta code : value) : Prop :=
  exists l f, get resolverMeta "failures" = Normal (VArray l)
              /\ In f l
              /\ get f "code" = Normal code.

(** A declaration whose failure codes can be collected: [failures] is absent
    (or otherwise falsy), or a sequence without [null] or [undefined]
    entries. *)
Definition collectable_failures (resolverMeta : value) : Prop :=
  exists failures,
    get resolverMeta "failures" = Normal failures
    /\ (truthy failures = false
        \/ exists l, failures = VArray l /\ Forall (fun f => nullish f = false) l).

Lemma map_codes (l : list value) :
  Forall (fun f => nullish f = false) l ->
  exists codes, JS.map (fun f => get f "code") l = Normal codes
                /\ Forall2 (fun f c => get f "code" = Normal c) l codes.
Proof.
  intros H. induction H as [| f l Hf _ (codes & Hmap & Hall)].
  - exists []. split; [reflexivity | constructor].
  - destruct (get_plain_key f "code" Hf eq_refl) as (c & Hc).
    exists (c :: codes). split.
    + cbn [JS.map]. rewrite Hc. cbn [bind]. rewrite Hmap. reflexivity.
    + constructor; assumption.
Qed.

Lemma collected_codes (l codes : list value) (code : value) :
  Forall2 (fun f c => get f "code" = Normal c) l codes ->
  (In code codes <-> exists f, In f l /\ get f "code" = Normal code).
Proof.
  intros Hrel. induction Hrel as [| f c l codes Hfc _ IH]; simpl.
  - split; [contradiction | intros (f & [] & _)].
  - rewrite IH. split.
    + intros [<- | (g & Hin & Hg)]; eauto.
    + intros (g & [<- | Hin] & Hg); [left; congruence | right; eauto].
Qed.

(** [includes] finds a truthy value exactly when the list holds that very
    value and [===] can identify it. *)
Lemma includes_truthy (codes : list value) (code : value) :
  truthy code = true ->
  (includes codes code = true <-> In code codes /\ comparable code).
Proof.
  intros Ht. unfold includes. rewrite existsb_exists.
  assert (Hsame : forall y, same_value_zero y code = strict_equal y code).
  { intros y. destruct y as [| | b | [z | | b] | s | l | ps | ps]; try reflexivity.
    destruct code as [| | b | [z | | b] | s | l | ps | ps]; try reflexivity.
    discriminate Ht. }
  split.
  - intros (y & Hin & Heq). rewrite Hsame in Heq.
    apply strict_equal_true in Heq. destruct Heq as (-> & Hc). auto.
  - intros (Hin & Hc). exists code. split; [assumption |].
    rewrite Hsame. apply strict_equal_true. auto.
Qed.

(** C4, amended: [resolver_failure_declared] passes when no error occurred
    and when the error carries no code (the read of [code] is falsy).  When
    the error carries a code and the declared codes can be collected, the
    check returns a boolean, and it passes exactly when the declaration's
    [failures] holds an entry with that code. *)
Theorem failure_declared_iff_code_declared (observedError resolverMeta : value) :
  (nullish observedError = true ->
     checkFailureCodeDeclared observedError resolverMeta = Normal (VBool true))
  /\ (forall code,
        get observedError "code" = Normal code -> truthy code = false ->
        checkFailureCodeDeclared observedError resolverMeta = Normal (VBool true))
  /\ (forall code,
        get observedError "code" = Normal code -> truthy code = true ->
        collectable_failures resolverMeta ->
        (checkFailureCodeDeclared observedError resolverMeta = Normal (VBool true)
         <-> declares_code resolverMeta code /\ comparable code)
        /\ (checkFailureCodeDeclared observedError resolverMeta = Normal (VBool false)
            <-> ~ (declares_code resolverMeta code /\ comparable code))).
Proof.
  unfold checkFailureCodeDeclared, get_optional. split; [| split].
  - intros ->. reflexivity.
  - intros code Hget Hfalsy.
    destruct (nullish observedError); simpl; [reflexivity |].
    rewrite Hget. simpl. rewrite Hfalsy. reflexivity.
  - intros code Hget Htruthy (failures & Hfailures & Hshape).
    rewrite (get_normal_not_nullish _ _ _ Hget), Hget. cbn [bind].
    rewrite Htruthy. cbn [negb].
    assert (Hcodes : exists codes,
               declaredCodes resolverMeta = Normal codes
               /\ (In code codes <-> declares_code resolverMeta code)).
    { unfold declaredCodes, declares_code. rewrite Hfailures. cbn [bind].
      destruct Hshape as [Hfalsy | (l & -> & Hall)].
      - unfold or_else. rewrite Hfalsy. exists []. split; [reflexivity |].
        split; [contradiction |].
        intros (l & f & Hl & _). injection Hl as ->. discriminate Hfalsy.
      - cbn [or_else truthy elements_for bind].
        destruct (map_codes l Hall) as (codes & Hmap & Hrel).
        exists codes. split; [exact Hmap |].
        rewrite (collected_codes l codes code Hrel). split.
        + intros (f & Hin & Hfc). exists l, f. auto.
        + intros (l' & f & Hl & Hin & Hfc). injection Hl as <-. eauto. }
    destruct Hcodes as (codes & -> & Hdeclared). cbn [bind]. unfold ret_bool.
    pose proof (includes_truthy codes code Htruthy) as Hincludes.
    rewrite Hdeclared in Hincludes.
    destruct (includes codes code); split; split; intros H;
      try reflexivity; try discriminate H.
    + now apply Hincludes.
    + contradiction H. now apply Hincludes.
    + apply Hincludes in H. discriminate H.
    + intros H'. apply Hincludes in H'. discriminate H'.
Qed.

(** The cases of the specification: no error, an error without a code, a
    declared code, and a thrown [TIMEOUT] that the declaration does not
    list. *)
Lemma failure_declared_iff_code_declared_witness :
  let declaration :=
    VObject [("failures", VArray [VObject [("code", VString "NOT_FOUND");
                                           ("retries", VNumber (Int 2))]])] in
  checkFailureCodeDeclared VNull declaration = Normal (VBool true)
  /\ checkFailureCodeDeclared (VObject [("code", VString "")]) declaration
     = Normal (VBool true)
  /\ checkFailureCodeDeclared (VObject [("code", VString "NOT_FOUND")]) declaration
     = Normal (VBool true)
  /\ checkFailureCodeDeclared
       (VObject [("code", VString "TIMEOUT"); ("message", VString "x")]) declaration
     = Normal (VBool false).
Proof.
  cbv zeta.
  assert (Hcollect : collectable_failures
            (VObject [("failures", VArray [VObject [("code", VString "NOT_FOUND");
                                                    ("retries", VNumber (Int 2))]])])).
  { eexists. split; [reflexivity |]. right. eexists. split; [reflexivity |].
    repeat constructor. }
  split; [| split; [| split]].
  - apply (proj1 (failure_declared_iff_code_declared VNull _)). reflexivity.
  - apply (proj1 (proj2 (failure_declared_iff_code_declared
                           (VObject [("code", VString "")]) _))
             (VString "")); reflexivity.
  - apply (proj1 (proj2 (proj2 (failure_declared_iff_code_declared
                                  (VObject [("code", VString "NOT_FOUND")]) _))
                    (VString "NOT_FOUND") eq_refl eq_refl Hcollect)).
    split; [| exact I]. eexists. eexists.
    split; [reflexivity |]. split; [now left | reflexivity].
  - apply (proj2 (proj2 (proj2 (failure_declared_iff_code_declared
                                  (VObject [("code", VString "TIMEOUT");
                                            ("message", VString "x")]) _))
                    (VString "TIMEOUT") eq_refl eq_refl Hcollect)).
    intros ((l & f & Hl & Hin & Hcode) & _). injection Hl as <-.
    destruct Hin as [<- | []]. discriminate Hcode.
Defined.

(** The scenario of the specification: a thrown [TIMEOUT] that the
    declaration does not list fails the check. *)
Example undeclared_timeout_fails :
  checkFailureCodeDeclared
    (VObject [("code", VString "TIMEOUT"); ("message", VString "x")])
    (VObject [("failures",
               VArray [VObject [("code", VString "NOT_FOUND");
                                ("retries", VNumber (Int 2))]])])
  = Normal (VBool false).
Proof. reflexivity. Qed.

(** ** Name normalization *)

(** C10: when the read of the field named by the assertion yields [undefined]
    or [null] (in particular when the declaration has no such field),
    [field_names_normalized] passes. *)
Theorem field_names_normalized_passes_on_absent_field
    (resolverMeta : value) (assertion : Assertion) (v : value) :
  get resolverMeta (field_key assertion) = Normal v ->
  nullish v = true ->
  checkFieldNamesNormalized resolverMeta assertion = Normal (VBool true).
Proof.
  intros Hget Hnull. unfold checkFieldNamesNormalized. rewrite Hget. simpl.
  destruct v; simpl in *; try discriminate; reflexivity.
Qed.

Lemma field_names_normalized_passes_on_absent_field_witness :
  checkFieldNamesNormalized
    (VObject [("resolverName", VString "bank"); ("outputs", VNull)])
    {| id := "n1"; type := "field_names_normalized"; severity := None;
       description := None; field := Some "inputs"; expected := VUndefined |}
  = Normal (VBool true)
  /\ checkFieldNamesNormalized
       (VObject [("resolverName", VString "bank"); ("outputs", VNull)])
       {| id := "n2"; type := "field_names_normalized"; severity := None;
          description := None; field := Some "outputs"; expected := VUndefined |}
     = Normal (VBool true).
Proof.
  split.
  - apply (field_names_normalized_passes_on_absent_field
             (VObject [("resolverName", VString "bank"); ("outputs", VNull)])
             {| id := "n1"; type := "field_names_normalized"; severity := None;
                description := None; field := Some "inputs"; expected := VUndefined |}
             VUndefined); reflexivity.
  - apply (field_names_normalized_passes_on_absent_field
             (VObject [("resolverName", VString "bank"); ("outputs", VNull)])
             {| id := "n2"; type := "field_names_normalized"; severity := None;
                description := None; field := Some "outputs"; expected := VUndefined |}
             VNull); reflexivity.
Defined.

(** ** Output fields against the contract *)

(** [name in actualOutput], for a string [name]. *)
Definition present (actualOutput : value) (name : string) : bool :=
  match has_property actualOutput name with
  | Normal b => b
  | _ => false
  end.

Lemma filter_missing_names (actualOutput : value) (names : list string) :
  (exists l, actualOutput = VArray l) \/ (exists ps, actualOutput = VObject ps) ->
  JS.filter (missing_from actualOutput) (List.map VString names)
  = Normal (List.map VString
              (List.filter (fun n => negb (present actualOutput n)) names)).
Proof.
  intros Hshape. induction names as [| n rest IH]; simpl; [reflexivity |].
  rewrite IH. unfold missing_from, present. simpl.
  destruct Hshape as [(l & ->) | (ps & ->)]; simpl;
    match goal with |- context [negb ?b] => destruct (negb b) end; reflexivity.
Qed.

(** A declaration that passes [resolver_outputs_valid] declares string
    names, and so does one without an [outputs] field. *)
Lemma valid_outputs_declare_string_names (resolverMeta : value) :
  checkResolverOutputsValid resolverMeta = Normal (VBool true) ->
  exists names, declaredNames resolverMeta = Normal (List.map VString names).
Proof.
  unfold checkResolverOutputsValid, declaredNames. rewrite bind_normal.
  intros (outputs & -> & Hvalid). cbn [bind].
  destruct outputs as [| | b | n | s | l | ps | ps]; try discriminate Hvalid.
  cbn [or_else truthy elements_for bind].
  apply bind_normal in Hvalid. destruct Hvalid as (b & Hevery & Hb).
  injection Hb as ->. apply every_true in Hevery.
  induction Hevery as [| o rest Ho _ (names & IH)].
  - exists []. reflexivity.
  - unfold valid_output in Ho. rewrite !and_then_true, !bind_normal in Ho.
    destruct Ho as ((_ & (n & Hn & Hs)) & _).
    injection Hs as Hs. apply typeof_string in Hs. destruct Hs as (name & ->).
    exists (name :: names). cbn [JS.map List.map]. rewrite Hn. cbn [bind].
    rewrite IH. reflexivity.
Qed.

Lemma absent_outputs_declare_no_name (ps : list (string * value)) :
  lookup "outputs" ps = None -> declaredNames (VObject ps) = Normal [].
Proof.
  intros H. unfold declaredNames. simpl. rewrite H. reflexivity.
Qed.

(** The outcomes of the validator in terms of its own intermediate steps. *)
Lemma output_fields_outcomes (output resolverMeta : value) :
  (truthy output = false \/ (typeof output =? "object") = false ->
   checkOutputFieldsMatchContract output resolverMeta
   = Normal (not_passed [("reason", VString "no_output"); ("actualOutput", output)]))
  /\
  (truthy output = true -> (typeof output =? "object") = true ->
   exists (kernel : bool) (actualOutput : value),
     has_property output "output" = Normal kernel
     /\ (if kernel then get output "output" else Normal output) = Normal actualOutput
     /\ (truthy actualOutput = false \/ (typeof actualOutput =? "object") = false ->
         checkOutputFieldsMatchContract output resolverMeta
         = Normal (not_passed [("reason", VString "invalid_output_shape");
                               ("actualOutput", output)]))
     /\ (truthy actualOutput = true -> (typeof actualOutput =? "object") = true ->
         forall names : list string,
           declaredNames resolverMeta = Normal (List.map VString names) ->
           checkOutputFieldsMatchContract output resolverMeta
           = Normal
               (match List.filter (fun n => negb (present actualOutput n)) names with
                | [] => VBool true
                | missingFields =>
                    not_passed [("reason", VString "missing_fields");
                                ("missingFields", VArray (List.map VString missingFields));
                                ("actualOutput", actualOutput);
                                ("expectedFields", VArray (List.map VString names))]
                end))).
Proof.
  split.
  - intros Hbad. unfold checkOutputFieldsMatchContract.
    destruct Hbad as [-> | ->]; simpl; [reflexivity |].
    rewrite orb_true_r. reflexivity.
  - intros Ht Ho.
    assert (Hk : exists kernel actualOutput,
               has_property output "output" = Normal kernel
               /\ (if kernel then get output "output" else Normal output)
                  = Normal actualOutput).
    { destruct (typeof_object output Ht Ho) as [(l & ->) | (ps & ->)].
      - simpl. destruct (index_of_key "output" (List.length l)) as [i |].
        + exists true. eexists. split; reflexivity.
        + exists false. eexists. split; reflexivity.
      - simpl. unfold has_own. destruct (lookup "output" ps) as [x |].
        + exists true. eexists. split; reflexivity.
        + exists false. eexists. split; reflexivity. }
    destruct Hk as (kernel & actualOutput & Hkernel & Hactual).
    exists kernel, actualOutput. split; [assumption |]. split; [assumption |].
    unfold checkOutputFieldsMatchContract. rewrite Ht, Ho. simpl.
    rewrite Hkernel. simpl. rewrite Hactual. simpl. split.
    + intros [-> | ->]; simpl; [reflexivity |].
      rewrite orb_true_r. reflexivity.
    + intros Ht' Ho' names Hnames. rewrite Ht', Ho'. simpl.
      rewrite Hnames. simpl.
      rewrite (filter_missing_names actualOutput names (typeof_object _ Ht' Ho')).
      simpl.
      destruct (List.filter (fun n => negb (present actualOutput n)) names);
        reflexivity.
Qed.

(** The rich result the specification describes:
    [{passed: false, details: {reason, ...}}]. *)
Definition failed_with (reason : string) (details : list (string * value)) : value :=
  VObject [ ("passed", VBool false);
            ("details", VObject (("reason", VString reason) :: details)) ].

(** The declaration declares the output names [names]: its [outputs] is a
    sequence whose entries carry these names, in order, or it is absent (or
    otherwise falsy) and there is no name. *)
Definition declares_outputs (resolverMeta : value) (names : list string) : Prop :=
  (exists v, get resolverMeta "outputs" = Normal v /\ truthy v = false /\ names = [])
  \/ (exists entries,
        get resolverMeta "outputs" = Normal (VArray entries)
        /\ Forall2 (fun o n => get o "name" = Normal (VString n)) entries names).

Lemma declared_names_collected (resolverMeta : value) (names : list string) :
  declares_outputs resolverMeta names ->
  declaredNames resolverMeta = Normal (List.map VString names).
Proof.
  unfold declaredNames.
  intros [(v & -> & Hfalsy & ->) | (entries & -> & Hrel)]; cbn [bind].
  - unfold or_else. rewrite Hfalsy. reflexivity.
  - cbn [or_else truthy elements_for bind].
    induction Hrel as [| o n entries names Hon _ IH]; [reflexivity |].
    cbn [JS.map List.map]. rewrite Hon. cbn [bind]. rewrite IH. reflexivity.
Qed.

(** What [in] finds in a plain object: its own keys and the members of
    [Object.prototype]. *)
Lemma present_in_object (ps : list (string * value)) (n : string) :
  present (VObject ps) n = true
  <-> (exists x, lookup n ps = Some x) \/ In n object_prototype.
Proof.
  unfold present, has_property, has_own. rewrite orb_true_iff. unfold mem.
  rewrite existsb_exists. split.
  - intros [H | (k & Hin & Hk)].
    + destruct (lookup n ps) as [x |]; [eauto | discriminate].
    + apply String.eqb_eq in Hk. subst k. auto.
  - intros [(x & ->) | Hin]; [auto |].
    right. exists n. split; [assumption | apply String.eqb_refl].
Qed.

(** C7, as stated, fails: a declared output name that the returned object
    does not hold, but that every object inherits, is not reported missing.
    The empty object passes against a declared output [constructor]. *)
Lemma inherited_name_counts_as_present :
  let declaration :=
    VObject [("outputs", VArray [VObject [("name", VString "constructor")]])] in
  declares_outputs declaration ["constructor"]
  /\ lookup "constructor" [] = None
  /\ checkOutputFieldsMatchContract (VObject []) declaration = Normal (VBool true).
Proof.
  cbv zeta. split; [| split; reflexivity].
  right. eexists. split; [reflexivity |]. repeat constructor.
Qed.

(** C7, amended.  A missing or non-object value is reported as [no_output].
    Otherwise the presence of an [output] key selects kernel mode (the
    nested value) or direct mode (the value itself), and a missing or
    non-object resolved value is reported as [invalid_output_shape], both
    with the top-level value as [actualOutput].  Otherwise, with [names] the
    declared output names, the names that [in] does not find in the resolved
    output are reported as [missing_fields] together with the resolved output
    and all declared names, and when there is none the result is plain
    [true].  A name counts as found when it is an own key of the resolved
    object or a member that every object inherits. *)
Theorem output_fields_match_contract_outcomes (output resolverMeta : value) :
  (truthy output = false \/ (typeof output =? "object") = false ->
   checkOutputFieldsMatchContract output resolverMeta
   = Normal (failed_with "no_output" [("actualOutput", output)]))
  /\
  (truthy output = true -> (typeof output =? "object") = true ->
   exists actualOutput : value,
     ((present output "output" = true /\ get output "output" = Normal actualOutput)
      \/ (present output "output" = false /\ actualOutput = output))
     /\ (truthy actualOutput = false \/ (typeof actualOutput =? "object") = false ->
         checkOutputFieldsMatchContract output resolverMeta
         = Normal (failed_with "invalid_output_shape" [("actualOutput", output)]))
     /\ (truthy actualOutput = true -> (typeof actualOutput =? "object") = true ->
         forall names : list string,
           declares_outputs resolverMeta names ->
           let missing := List.filter (fun n => negb (present actualOutput n)) names in
           (missing = [] ->
            checkOutputFieldsMatchContract output resolverMeta = Normal (VBool true))
           /\ (missing <> [] ->
               checkOutputFieldsMatchContract output resolverMeta
               = Normal (failed_with "missing_fields"
                           [("missingFields", VArray (List.map VString missing));
                            ("actualOutput", actualOutput);
                            ("expectedFields", VArray (List.map VString names))]))))
  /\ (forall ps n,
        present (VObject ps) n = true
        <-> (exists x, lookup n ps = Some x) \/ In n object_prototype).
Proof.
  destruct (output_fields_outcomes output resolverMeta) as (Hnone & Hsome).
  split; [| split].
  - intros Hbad. rewrite (Hnone Hbad). reflexivity.
  - intros Ht Ho.
    destruct (Hsome Ht Ho) as (kernel & actualOutput & Hkernel & Hactual & Hshape & Hnames).
    exists actualOutput. split; [| split].
    + unfold present. rewrite Hkernel.
      destruct kernel; [left; auto | right].
      split; [reflexivity | congruence].
    + intros Hbad. rewrite (Hshape Hbad). reflexivity.
    + intros Ht' Ho' names Hdeclared missing.
      pose proof (Hnames Ht' Ho' names (declared_names_collected _ _ Hdeclared)) as Hrun.
      fold missing in Hrun. rewrite Hrun.
      destruct missing as [| m rest]; split; intros H;
        try reflexivity; try discriminate H; now contradiction H.
  - apply present_in_object.
Qed.

(** The cases the specification singles out: with declared outputs
    [[{name: "balance"}]], the result [{balance: 10}] passes, and
    [{output: {}}] fails with reason [missing_fields] and missing fields
    [["balance"]]; a number is reported as [no_output]. *)
Lemma output_fields_match_contract_outcomes_witness :
  let declaration :=
    VObject [("outputs", VArray [VObject [("name", VString "balance")]])] in
  checkOutputFieldsMatchContract (VNumber (Int 7)) declaration
  = Normal (VObject [("passed", VBool false);
                     ("details", VObject [("reason", VString "no_output");
                                          ("actualOutput", VNumber (Int 7))])])
  /\ checkOutputFieldsMatchContract
       (VObject [("balance", VNumber (Int 10))]) declaration
     = Normal (VBool true)
  /\ checkOutputFieldsMatchContract (VObject [("output", VObject [])]) declaration
     = Normal (VObject [("passed", VBool false);
                        ("details",
                         VObject [("reason", VString "missing_fields");
                                  ("missingFields", VArray [VString "balance"]);
                                  ("actualOutput", VObject []);
                                  ("expectedFields", VArray [VString "balance"])])]).
Proof.
  cbv zeta.
  assert (Hdeclared : declares_outputs
            (VObject [("outputs", VArray [VObject [("name", VString "balance")]])])
            ["balance"]).
  { right. eexists. split; [reflexivity |]. repeat constructor. }
  split; [| split].
  - apply (proj1 (output_fields_match_contract_outcomes (VNumber (Int 7)) _)).
    right. reflexivity.
  - destruct (proj1 (proj2 (output_fields_match_contract_outcomes
                              (VObject [("balance", VNumber (Int 10))])
                              (VObject [("outputs",
                                         VArray [VObject [("name", VString "balance")]])])))
                eq_refl eq_refl)
      as (actualOutput & [(Hkernel & _) | (_ & ->)] & _ & Hnames);
      [discriminate Hkernel |].
    exact (proj1 (Hnames eq_refl eq_refl ["balance"] Hdeclared) eq_refl).
  - destruct (proj1 (proj2 (output_fields_match_contract_outcomes
                              (VObject [("output", VObject [])])
                              (VObject [("outputs",
                                         VArray [VObject [("name", VString "balance")]])])))
                eq_refl eq_refl)
      as (actualOutput & [(_ & Hactual) | (Hdirect & _)] & _ & Hnames);
      [| discriminate Hdirect].
    injection Hactual as <-.
    exact (proj2 (Hnames eq_refl eq_refl ["balance"] Hdeclared) ltac:(discriminate)).
Defined.

(** ** Deterministic output *)

(** Equality of two outputs as the validator sees it: both serialize, and to
    the same text (or both to [undefined]). *)
Definition same_serialization_as (a b : value) : Prop :=
  exists s, stringify a = Normal s /\ stringify b = Normal s.

Lemma option_value_equal (a b : option string) :
  strict_equal (option_value a) (option_value b) = true <-> a = b.
Proof.
  destruct a as [x |], b as [y |]; simpl; split; intros H;
    try discriminate; try reflexivity.
  - apply String.eqb_eq in H. congruence.
  - injection H as ->. apply String.eqb_refl.
Qed.

Lemma same_serialization_true (first : option string) (r : value) :
  same_serialization first r = Normal true <-> stringify r = Normal first.
Proof.
  unfold same_serialization. rewrite bind_normal. split.
  - intros (s & Hs & Heq). injection Heq as Heq.
    apply option_value_equal in Heq. congruence.
  - intros H. exists first. split; [assumption |].
    f_equal. now apply option_value_equal.
Qed.

Lemma length_at_least_two (l : list value) :
  2 <= List.length l ->
  less_than (VNumber (Int (Z.of_nat (List.length l)))) (VNumber (Int 2))
  = Normal false.
Proof.
  intros H. unfold less_than, number_ltb. simpl. f_equal.
  destruct (Z.leb_spec (Z.of_nat (List.length l)) 2) as [Hle |]; [| reflexivity].
  assert (Heq : Z.of_nat (List.length l) = 2%Z) by lia.
  rewrite Heq. reflexivity.
Qed.

(** With two outputs or more, the check compares every later output with
    the first. *)
Lemma several_outputs_pass_iff (x y : value) (rest : list value) :
  checkDeterministicOutput (VArray (x :: y :: rest)) = Normal (VBool true)
  <-> exists first, stringify x = Normal first
                    /\ Forall (fun r => stringify r = Normal first) (y :: rest).
Proof.
  unfold checkDeterministicOutput.
  change (get (VArray (x :: y :: rest)) "length")
    with (Normal (A := value)
            (VNumber (Int (Z.of_nat (List.length (x :: y :: rest)))))).
  cbn [bind].
  rewrite (length_at_least_two (x :: y :: rest)) by (simpl; lia). cbn [bind].
  change (get (VArray (x :: y :: rest)) "0") with (Normal (A := value) x).
  cbn [bind slice_1 tl]. split.
  - intros Hpass. apply bind_normal in Hpass.
    destruct Hpass as (first & Hfirst & Hrest).
    apply bind_normal in Hrest. destruct Hrest as (b & Hevery & Hb).
    injection Hb as ->. apply every_true in Hevery.
    exists first. split; [assumption |].
    eapply Forall_impl; [| exact Hevery].
    intros r. apply same_serialization_true.
  - intros (first & Hfirst & Hall). rewrite Hfirst. cbn [bind].
    assert (Hevery : every (same_serialization first) (y :: rest) = Normal true).
    { apply every_true. eapply Forall_impl; [| exact Hall].
      intros r. apply same_serialization_true. }
    rewrite Hevery. reflexivity.
Qed.

(** The scenario of the specification: trials returning [{a:1}], [{a:1}],
    [{a:2}] fail the check. *)
Example diverging_third_trial_fails :
  checkDeterministicOutput
    (VArray [VObject [("a", VNumber (Int 1))]; VObject [("a", VNumber (Int 1))];
             VObject [("a", VNumber (Int 2))]])
  = Normal (VBool false).
Proof. reflexivity. Qed.

(** The comparison is sensitive to the order of the keys. *)
Example key_order_matters :
  checkDeterministicOutput
    (VArray [VObject [("a", VNumber (Int 1)); ("b", VNumber (Int 2))];
             VObject [("b", VNumber (Int 2)); ("a", VNumber (Int 1))]])
  = Normal (VBool false).
Proof. reflexivity. Qed.

(** ** Canonical serialization of JSON data *)

(** Induction on values, with the induction hypothesis for the elements of
    an array and for the property values of an object or function. *)
Section ValueInduction.

Variable P : value -> Prop.
Hypothesis P_undefined : P VUndefined.
Hypothesis P_null : P VNull.
Hypothesis P_bool : forall b, P (VBool b).
Hypothesis P_number : forall n, P (VNumber n).
Hypothesis P_string : forall s, P (VString s).
Hypothesis P_array : forall l, Forall P l -> P (VArray l).
Hypothesis P_object : forall ps, Forall (fun p => P (snd p)) ps -> P (VObject ps).
Hypothesis P_function : forall ps, Forall (fun p => P (snd p)) ps -> P (VFunction ps).

Fixpoint value_nested_ind (v : value) : P v :=
  match v with
  | VUndefined => P_undefined
  | VNull => P_null
  | VBool b => P_bool b
  | VNumber n => P_number n
  | VString s => P_string s
  | VArray l =>
      P_array l
        ((fix all (l : list value) : Forall P l :=
            match l with
            | [] => Forall_nil P
            | x :: rest => Forall_cons x (value_nested_ind x) (all rest)
            end) l)
  | VObject ps =>
      P_object ps
        ((fix all (ps : list (string * value)) : Forall (fun p => P (snd p)) ps :=
            match ps with
            | [] => Forall_nil _
            | p :: rest => Forall_cons p (value_nested_ind (snd p)) (all rest)
            end) ps)
  | VFunction ps =>
      P_function ps
        ((fix all (ps : list (string * value)) : Forall (fun p => P (snd p)) ps :=
            match ps with
            | [] => Forall_nil _
            | p :: rest => Forall_cons p (value_nested_ind (snd p)) (all rest)
            end) ps)
  end.

End ValueInduction.

(** JSON data: what a JSON document denotes.  No [undefined], no function,
    no non-finite number. *)
Fixpoint is_json (v : value) : bool :=
  match v with
  | VNull | VBool _ | VString _ | VNumber (Int _) => true
  | VArray l => forallb is_json l
  | VObject ps => forallb (fun p => is_json (snd p)) ps
  | _ => false
  end.

(** The text [JSON.stringify] produces for JSON data. *)
Fixpoint render (v : value) : string :=
  match v with
  | VNull => "null"
  | VBool true => "true"
  | VBool false => "false"
  | VNumber n => number_to_string n
  | VString s => quote s
  | VArray l => "[" ++ String.concat "," (List.map render l) ++ "]"
  | VObject ps =>
      "{" ++ String.concat ","
               (List.map (fun p => quote (fst p) ++ ":" ++ render (snd p)) ps) ++ "}"
  | _ => ""
  end.

Lemma json_not_callable (ps : list (string * value)) :
  forallb (fun p => is_json (snd p)) ps = true -> callable_toJSON ps = false.
Proof.
  unfold callable_toJSON.
  induction ps as [| [k v] rest IH]; cbn [lookup forallb snd]; [reflexivity |].
  intros H. apply andb_prop in H. destruct H as (Hv & Hrest).
  destruct ("toJSON" =? k); [| now apply IH].
  destruct v; try reflexivity. discriminate Hv.
Qed.

Lemma stringify_json (v : value) :
  is_json v = true -> stringify v = Normal (Some (render v)).
Proof.
  induction v as [| | b | n | s | l IH | ps IH | ps IH] using value_nested_ind;
    cbn [stringify is_json render]; try discriminate; try reflexivity.
  - intros _. destruct b; reflexivity.
  - destruct n; intros H; [reflexivity | discriminate | discriminate].
  - intros Hl.
    assert (Hitems :
      (fix items (l0 : list value) : completion (list string) :=
         match l0 with
         | [] => Normal []
         | x :: rest =>
             sx <- stringify x ;;
             sr <- items rest ;;
             Normal (match sx with Some s => s | None => "null" end :: sr)
         end) l = Normal (List.map render l)).
    { induction IH as [| x rest Hx _ IHrest]; [reflexivity |].
      simpl in Hl. apply andb_prop in Hl. destruct Hl as (Hxj & Hrestj).
      rewrite (Hx Hxj). cbn [bind]. rewrite (IHrest Hrestj). reflexivity. }
    rewrite Hitems. reflexivity.
  - intros Hps. rewrite (json_not_callable ps Hps).
    assert (Hmembers :
      (fix members (ps0 : list (string * value)) : completion (list string) :=
         match ps0 with
         | [] => Normal []
         | (k, x) :: rest =>
             sx <- stringify x ;;
             sr <- members rest ;;
             Normal (match sx with
                     | Some s => (quote k ++ ":" ++ s) :: sr
                     | None => sr
                     end)
         end) ps
      = Normal (List.map (fun p => quote (fst p) ++ ":" ++ render (snd p)) ps)).
    { induction IH as [| [k x] rest Hx _ IHrest]; [reflexivity |].
      simpl in Hps. apply andb_prop in Hps. destruct Hps as (Hxj & Hrestj).
      simpl in Hx. rewrite (Hx Hxj). cbn [bind]. rewrite (IHrest Hrestj). reflexivity. }
    rewrite Hmembers. reflexivity.
Qed.

(** Decoding one escaped character; a raw quote ends the string. *)
Definition hex_value (c : ascii) : nat :=
  match index 0 (String c EmptyString) "0123456789abcdef" with
  | Some n => n
  | None => 0
  end.

Definition unescape_char (s : string) : option (ascii * string) :=
  match s with
  | EmptyString => None
  | String c rest =>
      if Ascii.eqb c (ascii_of_nat 34) then None
      else if Ascii.eqb c (ascii_of_nat 92) then
        match rest with
        | EmptyString => None
        | String e rest' =>
            if Ascii.eqb e (ascii_of_nat 34) then Some (e, rest')
            else if Ascii.eqb e (ascii_of_nat 92) then Some (e, rest')
            else if Ascii.eqb e "b" then Some (ascii_of_nat 8, rest')
            else if Ascii.eqb e "t" then Some (ascii_of_nat 9, rest')
            else if Ascii.eqb e "n" then Some (ascii_of_nat 10, rest')
            else if Ascii.eqb e "f" then Some (ascii_of_nat 12, rest')
            else if Ascii.eqb e "r" then Some (ascii_of_nat 13, rest')
            else
              match rest' with
              | String _ (String _ (String h (String l rest''))) =>
                  Some (ascii_of_nat (16 * hex_value h + hex_value l), rest'')
              | _ => None
              end
        end
      else Some (c, rest)
  end.

Lemma unescape_escape_char (c : ascii) (r : string) :
  unescape_char (escape_char c ++ r) = Some (c, r).
Proof.
  destruct c as [[] [] [] [] [] [] [] []]; reflexivity.
Qed.

Lemma append_assoc (a b c : string) : (a ++ b) ++ c = a ++ b ++ c.
Proof. induction a as [| x a IH]; simpl; [reflexivity | now rewrite IH]. Qed.

Lemma append_inv_head (a b c : string) : a ++ b = a ++ c -> b = c.
Proof. induction a as [| x a IH]; simpl; [auto | intros H; injection H; auto]. Qed.

(** An escaped string followed by its closing quote determines the string
    and what follows the quote. *)
Lemma escape_inj (s s' r r' : string) :
  escape s ++ dquote ++ r = escape s' ++ dquote ++ r' -> s = s' /\ r = r'.
Proof.
  revert s'. induction s as [| c s IH]; intros [| c' s']; cbn [escape].
  - intros H. injection H as H. auto.
  - rewrite append_assoc. intros H.
    apply (f_equal unescape_char) in H.
    rewrite unescape_escape_char in H. discriminate H.
  - rewrite append_assoc. intros H.
    apply (f_equal unescape_char) in H.
    rewrite unescape_escape_char in H. discriminate H.
  - rewrite !append_assoc. intros H.
    pose proof (f_equal unescape_char H) as Hc.
    rewrite !unescape_escape_char in Hc. injection Hc as -> Hrest.
    destruct (IH s' Hrest) as (-> & ->). auto.
Qed.

Lemma quote_inj (s s' r r' : string) :
  quote s ++ r = quote s' ++ r' -> s = s' /\ r = r'.
Proof.
  unfold quote. rewrite !append_assoc. intros H.
  apply append_inv_head in H. now apply escape_inj.
Qed.

(** The characters of a printed integer. *)
Definition numeric (c : ascii) : bool :=
  let n := nat_of_ascii c in (Nat.leb 48 n && Nat.leb n 57) || Nat.eqb n 45.

Fixpoint all_numeric (s : string) : bool :=
  match s with
  | EmptyString => true
  | String c rest => numeric c && all_numeric rest
  end.

Lemma uint_numeric (d : Decimal.uint) :
  all_numeric (NilEmpty.string_of_uint d) = true.
Proof. induction d; simpl; auto. Qed.

Lemma number_numeric (z : Z) :
  exists c rest,
    number_to_string (Int z) = String c rest
    /\ numeric c = true /\ all_numeric rest = true.
Proof.
  assert (Hu : forall d, exists c rest,
             NilZero.string_of_uint d = String c rest
             /\ numeric c = true /\ all_numeric rest = true).
  { intros d. destruct d; simpl;
      try (do 2 eexists; split; [reflexivity | split; [reflexivity |]];
           try reflexivity; apply uint_numeric). }
  unfold number_to_string. destruct z as [| p | p]; simpl.
  - do 2 eexists. repeat split.
  - apply Hu.
  - destruct (Hu (Pos.to_uint p)) as (c & rest & -> & Hc & Hrest).
    do 2 eexists. split; [reflexivity |]. split; [reflexivity |].
    simpl. rewrite Hc, Hrest. reflexivity.
Qed.

(** What may follow a value inside a serialization: nothing, or a character
    that is not part of a number. *)
Definition stops (r : string) : Prop :=
  match r with
  | EmptyString => True
  | String c _ => numeric c = false
  end.

Lemma numeric_split (s1 s2 r1 r2 : string) :
  all_numeric s1 = true -> all_numeric s2 = true -> stops r1 -> stops r2 ->
  s1 ++ r1 = s2 ++ r2 -> s1 = s2 /\ r1 = r2.
Proof.
  revert s2. induction s1 as [| c s1 IH]; intros [| c' s2]; simpl.
  - auto.
  - intros _ H2 H1 _ ->. apply andb_prop in H2. simpl in H1.
    destruct H2. congruence.
  - intros H1 _ _ H2 <-. apply andb_prop in H1. simpl in H2.
    destruct H1. congruence.
  - intros H1 H2 Hr1 Hr2 H. injection H as -> H.
    apply andb_prop in H1. apply andb_prop in H2.
    destruct (IH s2 (proj2 H1) (proj2 H2) Hr1 Hr2 H) as (-> & ->). auto.
Qed.

Lemma number_to_string_inj (z z' : Z) :
  number_to_string (Int z) = number_to_string (Int z') -> z = z'.
Proof.
  unfold number_to_string. intros H.
  assert (Hn : forall x, Z.to_int x <> Decimal.Pos Decimal.Nil
                         /\ Z.to_int x <> Decimal.Neg Decimal.Nil).
  { intros [| p | p]; simpl; split; try discriminate;
      intros E; injection E as E;
      now apply DecimalPos.Unsigned.to_uint_nonnil in E. }
  apply (f_equal NilZero.int_of_string) in H.
  rewrite !NilZero.isi in H by apply Hn.
  injection H as H. now apply DecimalZ.to_int_inj.
Qed.

(** The first character of a serialization tells the kind of value apart. *)
Definition char_kind (c : ascii) : nat :=
  if numeric c then 2
  else if Ascii.eqb c "n" then 0
  else if Ascii.eqb c "t" || Ascii.eqb c "f" then 1
  else if Ascii.eqb c (ascii_of_nat 34) then 3
  else if Ascii.eqb c "[" then 4
  else if Ascii.eqb c "{" then 5
  else 6.

Definition kind (v : value) : nat :=
  match v with
  | VNull => 0
  | VBool _ => 1
  | VNumber _ => 2
  | VString _ => 3
  | VArray _ => 4
  | VObject _ => 5
  | _ => 7
  end.

(** What follows a value inside a serialization: nothing, or a separator or
    closing bracket. *)
Definition delimited (r : string) : Prop :=
  match r with
  | EmptyString => True
  | String c _ => char_kind c = 6
  end.

Lemma delimited_stops (r : string) : delimited r -> stops r.
Proof.
  destruct r as [| c r]; simpl; [auto |]. unfold char_kind.
  destruct (numeric c); [discriminate | reflexivity].
Qed.

Lemma render_head (v : value) :
  is_json v = true ->
  exists c rest, render v = String c rest /\ char_kind c = kind v.
Proof.
  destruct v as [| | b | n | s | l | ps | ps]; cbn [is_json render kind];
    try discriminate; intros H.
  - do 2 eexists. split; reflexivity.
  - destruct b; do 2 eexists; split; reflexivity.
  - destruct n as [z | |]; try discriminate.
    destruct (number_numeric z) as (c & rest & -> & Hc & _).
    exists c, rest. split; [reflexivity |]. unfold char_kind. now rewrite Hc.
  - do 2 eexists. split; reflexivity.
  - do 2 eexists. split; reflexivity.
  - do 2 eexists. split; reflexivity.
Qed.

Lemma render_same_kind (a b : value) (r1 r2 : string) :
  is_json a = true -> is_json b = true ->
  render a ++ r1 = render b ++ r2 -> kind a = kind b.
Proof.
  intros Ha Hb H.
  destruct (render_head a Ha) as (c & s & Hc & <-).
  destruct (render_head b Hb) as (c' & s' & Hc' & <-).
  rewrite Hc, Hc' in H. injection H as -> _. reflexivity.
Qed.

Lemma concat_cons_append (x : string) (xs : list string) (t : string) :
  String.concat "," (x :: xs) ++ t
  = x ++ match xs with
         | [] => t
         | _ :: _ => "," ++ String.concat "," xs ++ t
         end.
Proof.
  destruct xs as [| y ys]; [reflexivity |].
  change (String.concat "," (x :: y :: ys))
    with (x ++ "," ++ String.concat "," (y :: ys)).
  now rewrite !append_assoc.
Qed.

Section Joined.

Variable A : Type.
Variable show : A -> string.
Variable ok : A -> bool.
Variable close : ascii.
Hypothesis close_kind : char_kind close = 6.
Hypothesis close_not_comma : close <> ","%char.
Hypothesis show_head :
  forall y, ok y = true ->
  exists c rest, show y = String c rest /\ char_kind c <> 6.

(** Items that are told apart by their own text are told apart inside a
    comma-separated sequence that ends with [close]. *)
Lemma joined_inj (la : list A) :
  Forall (fun x => ok x = true ->
                   forall y r1 r2, ok y = true ->
                     show x ++ r1 = show y ++ r2 ->
                     delimited r1 -> delimited r2 -> x = y /\ r1 = r2) la ->
  forallb ok la = true ->
  forall lb r1 r2,
    forallb ok lb = true ->
    String.concat "," (List.map show la) ++ String close r1
    = String.concat "," (List.map show lb) ++ String close r2 ->
    la = lb /\ r1 = r2.
Proof.
  intros Hitems. induction Hitems as [| x xs Hx _ IH]; intros Hla lb r1 r2 Hlb.
  - destruct lb as [| y ys]; cbn [List.map].
    + simpl. intros H. injection H as ->. auto.
    + rewrite concat_cons_append. cbn [String.concat append].
      cbn [forallb] in Hlb. apply andb_prop in Hlb.
      destruct (show_head y (proj1 Hlb)) as (c & rest & -> & Hc).
      simpl. intros H. injection H as <- _. contradiction.
  - cbn [forallb] in Hla. apply andb_prop in Hla. destruct Hla as (Hokx & Hokxs).
    destruct lb as [| y ys]; cbn [List.map].
    + rewrite concat_cons_append. cbn [String.concat append].
      destruct (show_head x Hokx) as (c & rest & -> & Hc).
      simpl. intros H. injection H as -> _. contradiction.
    + cbn [forallb] in Hlb. apply andb_prop in Hlb. destruct Hlb as (Hoky & Hokys).
      rewrite !concat_cons_append. intros H.
      assert (Hd : forall (l : list A) r,
                delimited match List.map show l with
                          | [] => String close r
                          | _ :: _ => "," ++ String.concat "," (List.map show l)
                                        ++ String close r
                          end).
      { intros [| z zs] r; simpl; [exact close_kind | reflexivity]. }
      destruct (Hx Hokx y _ _ Hoky H (Hd xs r1) (Hd ys r2)) as (-> & Htail).
      destruct xs as [| x' xs'], ys as [| y' ys']; cbn [List.map] in Htail.
      * injection Htail as ->. auto.
      * simpl in Htail. injection Htail as Hc _. contradiction.
      * simpl in Htail. injection Htail as Hc _. symmetry in Hc. contradiction.
      * apply (append_inv_head ",") in Htail.
        destruct (IH Hokxs (y' :: ys') r1 r2 Hokys Htail) as (-> & ->). auto.
Qed.

End Joined.

(** On JSON data the serialization is injective, even when followed by
    more text. *)
Lemma render_inj (a : value) :
  is_json a = true ->
  forall b r1 r2,
    is_json b = true ->
    render a ++ r1 = render b ++ r2 ->
    delimited r1 -> delimited r2 -> a = b /\ r1 = r2.
Proof.
  induction a as [| | x | n | s | la IH | ps IH | ps IH] using value_nested_ind;
    intros Ha b r1 r2 Hb H Hr1 Hr2;
    pose proof (render_same_kind _ _ _ _ Ha Hb H) as Hk;
    destruct b as [| | y | n' | s' | lb | qs | qs]; try discriminate Hk;
    try discriminate Ha.
  - apply (append_inv_head "null") in H. auto.
  - destruct x, y; try discriminate H.
    + apply (append_inv_head "true") in H. auto.
    + apply (append_inv_head "false") in H. auto.
  - destruct n as [z | |], n' as [z' | |]; try discriminate.
    cbn [render] in H.
    destruct (number_numeric z) as (c & rest & Hz & Hc & Hrest).
    destruct (number_numeric z') as (c' & rest' & Hz' & Hc' & Hrest').
    destruct (numeric_split (number_to_string (Int z)) (number_to_string (Int z'))
                r1 r2) as (Heq & ->); auto using delimited_stops.
    + rewrite Hz. simpl. now rewrite Hc, Hrest.
    + rewrite Hz'. simpl. now rewrite Hc', Hrest'.
    + apply number_to_string_inj in Heq. subst. auto.
  - cbn [render] in H. apply quote_inj in H. destruct H as (-> & ->). auto.
  - cbn [render] in H. rewrite !append_assoc in H.
    apply (append_inv_head "[") in H.
    cbn [is_json] in Ha, Hb.
    destruct (joined_inj value render is_json "]" eq_refl ltac:(discriminate)
                ltac:(intros y Hy; destruct (render_head y Hy) as (c & rest & Hc & Hkind);
                      exists c, rest; split; [assumption |];
                      rewrite Hkind; destruct y; simpl; discriminate)
                la IH Ha lb r1 r2 Hb H) as (-> & ->).
    auto.
  - cbn [render] in H. rewrite !append_assoc in H.
    apply (append_inv_head "{") in H.
    cbn [is_json] in Ha, Hb.
    destruct (joined_inj (string * value)
                (fun p => quote (fst p) ++ ":" ++ render (snd p))
                (fun p => is_json (snd p)) "}" eq_refl ltac:(discriminate)
                ltac:(intros y Hy; do 2 eexists; split; [reflexivity | discriminate])
                ps) with (lb := qs) (r1 := r1) (r2 := r2) as (-> & ->); auto.
    eapply Forall_impl; [| exact IH].
    intros [k v] Hv Hok [k' v'] t1 t2 Hok' Heq Ht1 Ht2. cbn [fst snd] in *.
    rewrite !append_assoc in Heq. apply quote_inj in Heq.
    destruct Heq as (-> & Heq). apply (append_inv_head ":") in Heq.
    destruct (Hv Hok v' t1 t2 Hok' Heq Ht1 Ht2) as (-> & ->). auto.
Qed.

(** On JSON data, equality of serializations is equality of values. *)
Theorem same_serialization_iff_equal (a b : value) :
  is_json a = true -> is_json b = true ->
  (same_serialization_as a b <-> a = b).
Proof.
  intros Ha Hb. unfold same_serialization_as.
  rewrite (stringify_json a Ha), (stringify_json b Hb). split.
  - intros (s & Hsa & Hsb).
    assert (Heq : render a ++ "" = render b ++ "") by congruence.
    now destruct (render_inj a Ha b "" "" Hb Heq I I).
  - intros ->. eauto.
Qed.

(** On outputs that are JSON data, [deterministic_output] on two outputs or
    more passes exactly when every output is identical to the first: same
    structure, same values, same order of keys. *)
Theorem deterministic_output_on_json_data (results : list value) :
  forallb is_json results = true ->
  2 <= List.length results ->
  (checkDeterministicOutput (VArray results) = Normal (VBool true)
   <-> forall r, In r results -> r = hd VUndefined results).
Proof.
  intros Hjson Hlen.
  destruct results as [| x [| y rest]]; [simpl in Hlen; lia | simpl in Hlen; lia |].
  rewrite several_outputs_pass_iff. cbn [hd].
  rewrite forallb_forall in Hjson.
  assert (Hx : is_json x = true) by (apply Hjson; now left).
  split.
  - intros (first & Hfirst & Hall) r [<- | Hin]; [reflexivity |].
    rewrite Forall_forall in Hall.
    apply same_serialization_iff_equal;
      [apply Hjson; now right | assumption |].
    exists first. split; [now apply Hall | assumption].
  - intros Hall. exists (Some (render x)).
    split; [now apply stringify_json |].
    apply Forall_forall. intros r Hin.
    rewrite (Hall r (or_intror Hin)). now apply stringify_json.
Qed.

Lemma deterministic_output_on_json_data_witness :
  checkDeterministicOutput
    (VArray [VObject [("balance", VNumber (Int 10))];
             VObject [("balance", VNumber (Int 10))]])
  = Normal (VBool true)
  <-> forall r,
        In r [VObject [("balance", VNumber (Int 10))];
              VObject [("balance", VNumber (Int 10))]] ->
        r = VObject [("balance", VNumber (Int 10))].
Proof.
  apply (deterministic_output_on_json_data
           [VObject [("balance", VNumber (Int 10))];
            VObject [("balance", VNumber (Int 10))]]).
  - reflexivity.
  - simpl. lia.
Defined.

(** C8, as stated, fails: outside JSON data the serialization identifies
    values that differ.  [NaN] prints as [null], and a property whose value
    is [undefined] is not printed at all, so outputs that are not equal pass
    the check. *)
Lemma serialization_identifies_nan_and_null :
  VNumber NaN <> VNull
  /\ checkDeterministicOutput (VArray [VNumber NaN; VNull]) = Normal (VBool true)
  /\ VObject [("a", VUndefined)] <> VObject []
  /\ checkDeterministicOutput
       (VArray [VObject [("a", VUndefined)]; VObject []]) = Normal (VBool true).
Proof. repeat split; try reflexivity; discriminate. Qed.

(** On JSON data the serialization always succeeds, so the check returns a
    boolean. *)
Lemma deterministic_output_completes (results : list value) :
  forallb is_json results = true ->
  exists b, checkDeterministicOutput (VArray results) = Normal (VBool b).
Proof.
  intros Hjson.
  destruct results as [| x [| y rest]]; [exists true; reflexivity .. |].
  unfold checkDeterministicOutput.
  change (get (VArray (x :: y :: rest)) "length")
    with (Normal (A := value)
            (VNumber (Int (Z.of_nat (List.length (x :: y :: rest)))))).
  cbn [bind].
  rewrite (length_at_least_two (x :: y :: rest)) by (simpl; lia). cbn [bind].
  change (get (VArray (x :: y :: rest)) "0") with (Normal (A := value) x).
  cbn [bind slice_1 tl].
  rewrite forallb_forall in Hjson.
  rewrite (stringify_json x) by (apply Hjson; now left). cbn [bind].
  assert (Hevery : exists b,
             every (same_serialization (Some (render x))) (y :: rest) = Normal b).
  { assert (Hall : forall r, In r (y :: rest) -> is_json r = true)
      by (intros r Hr; apply Hjson; now right).
    clear Hjson. induction (y :: rest) as [| r l IH]; [exists true; reflexivity |].
    cbn [every]. unfold same_serialization at 1.
    rewrite (stringify_json r) by (apply Hall; now left). cbn [bind].
    destruct (strict_equal _ _); [| eauto].
    apply IH. intros r' Hr'. apply Hall. now right. }
  destruct Hevery as (b & ->). cbn [bind]. unfold ret_bool. eauto.
Qed.

(** C8, amended.  [deterministic_output] passes on fewer than two recorded
    outputs, whatever they are.  On two or more outputs that are JSON data
    it returns a boolean, and it passes exactly when every output is deeply
    equal to the first: same structure, same values, same order of keys.
    Outputs that are equal pass whenever the first one can be serialized at
    all; outside JSON data the converse does not hold. *)
Theorem deterministic_output_iff_all_equal_first (results : list value) :
  (List.length results < 2 ->
   checkDeterministicOutput (VArray results) = Normal (VBool true))
  /\ (2 <= List.length results -> forallb is_json results = true ->
      (checkDeterministicOutput (VArray results) = Normal (VBool true)
       <-> forall r, In r results -> r = hd VUndefined results)
      /\ (checkDeterministicOutput (VArray results) = Normal (VBool false)
          <-> ~ (forall r, In r results -> r = hd VUndefined results)))
  /\ (forall first,
        stringify (hd VUndefined results) = Normal first ->
        (forall r, In r results -> r = hd VUndefined results) ->
        checkDeterministicOutput (VArray results) = Normal (VBool true)).
Proof.
  split; [| split].
  - intros H. destruct results as [| x [| y rest]]; [reflexivity | reflexivity |].
    simpl in H. lia.
  - intros Hlen Hjson.
    assert (Hiff : checkDeterministicOutput (VArray results) = Normal (VBool true)
                   <-> forall r, In r results -> r = hd VUndefined results).
    { destruct results as [| x [| y rest]]; [simpl in Hlen; lia | simpl in Hlen; lia |].
      rewrite several_outputs_pass_iff. cbn [hd].
      rewrite forallb_forall in Hjson.
      assert (Hx : is_json x = true) by (apply Hjson; now left).
      split.
      - intros (first & Hfirst & Hall) r [<- | Hin]; [reflexivity |].
        rewrite Forall_forall in Hall.
        apply same_serialization_iff_equal;
          [apply Hjson; now right | assumption |].
        exists first. split; [now apply Hall | assumption].
      - intros Hall. exists (Some (render x)).
        split; [now apply stringify_json |].
        apply Forall_forall. intros r Hin.
        rewrite (Hall r (or_intror Hin)). now apply stringify_json. }
    split; [exact Hiff |].
    destruct (deterministic_output_completes results Hjson) as ([|] & Hb);
      rewrite Hb in *; split; intros H; try reflexivity; try discriminate H.
    + contradiction H. now apply Hiff.
    + intros H'. apply Hiff in H'. discriminate H'.
  - intros first Hfirst Hall.
    destruct results as [| x [| y rest]]; [reflexivity | reflexivity |].
    apply several_outputs_pass_iff. cbn [hd] in *. exists first.
    split; [assumption |]. apply Forall_forall. intros r Hin.
    rewrite (Hall r (or_intror Hin)). assumption.
Qed.

(** The scenarios of the specification: a single output passes, two equal
    outputs pass, and trials returning [{a:1}], [{a:1}], [{a:2}] fail. *)
Lemma deterministic_output_iff_all_equal_first_witness :
  let one := VObject [("a", VNumber (Int 1))] in
  let two := VObject [("a", VNumber (Int 2))] in
  checkDeterministicOutput (VArray [one]) = Normal (VBool true)
  /\ checkDeterministicOutput (VArray [one; one]) = Normal (VBool true)
  /\ checkDeterministicOutput (VArray [one; one; two]) = Normal (VBool false).
Proof.
  cbv zeta. split; [| split].
  - apply (proj1 (deterministic_output_iff_all_equal_first
                    [VObject [("a", VNumber (Int 1))]])).
    simpl. lia.
  - apply (proj1 (proj2 (deterministic_output_iff_all_equal_first
                           [VObject [("a", VNumber (Int 1))];
                            VObject [("a", VNumber (Int 1))]]))
             ltac:(simpl; lia) eq_refl).
    intros r [<- | [<- | []]]; reflexivity.
  - apply (proj1 (proj2 (deterministic_output_iff_all_equal_first
                           [VObject [("a", VNumber (Int 1))];
                            VObject [("a", VNumber (Int 1))];
                            VObject [("a", VNumber (Int 2))]]))
             ltac:(simpl; lia) eq_refl).
    intros H. specialize (H (VObject [("a", VNumber (Int 2))])).
    discriminate H. simpl. tauto.
Defined.

Arguments resolver_value {State} r.
Arguments behaviour {State} r input s.
Arguments call {State} resolver input s.
Arguments trials {State} resolver resolverMeta input n ctx s.
Arguments initial_context {State} resolver resolverMeta.
Arguments invokeResolverWithObservation {State} resolver resolverMeta testSpec fixture s.
Arguments run_suite {State} w resolver resolverMeta suite s.
Arguments run_suites {State} w resolver resolverMeta suites failed s.
Arguments runAllTests {State} w suites resolver s.

(** ** The observation harness *)

(** What the resolver does when it is called up to [n] times in a row on the
    same input, each call starting in the state the previous one left, and
    nothing being called after a rejection. *)
Fixpoint call_sequence {State : Type} (resolver : Resolver State) (input : value)
    (n : nat) (s : State) : list settlement * State :=
  match n with
  | O => ([], s)
  | S n' =>
      match call resolver input s with
      | (Fulfilled result, s') =>
          let (rest, s'') := call_sequence resolver input n' s' in
          (Fulfilled result :: rest, s'')
      | (Rejected err, s') => ([Rejected err], s')
      end
  end.

(** The values of the fulfilled calls of a trace, in order. *)
Fixpoint fulfilled (trace : list settlement) : list value :=
  match trace with
  | [] => []
  | Fulfilled result :: rest => result :: fulfilled rest
  | Rejected _ :: rest => fulfilled rest
  end.

(** The error of the rejected call of a trace, if it has one. *)
Fixpoint rejected (trace : list settlement) : option value :=
  match trace with
  | [] => None
  | Fulfilled _ :: rest => rejected rest
  | Rejected err :: _ => Some err
  end.

(** The context after the successful trials [rs]. *)
Definition after_results (ctx : InvocationContext) (rs : list value)
  : InvocationContext :=
  fold_left on_result rs ctx.

(** The context the harness builds from the results [rs] of the successful
    trials and, when a trial threw, the error and the retry count recorded
    for it. *)
Definition observation {State : Type} (resolver : Resolver State)
    (resolverMeta : value) (rs : list value) (failure : option (value * value))
  : InvocationContext :=
  {| ctx_resolver := resolver_value resolver;
     ctx_resolverMeta := resolverMeta;
     ctx_output := last rs VNull;
     ctx_outputs := rs;
     ctx_error := match failure with Some (err, _) => err | None => VNull end;
     ctx_threw := match failure with Some _ => true | None => false end;
     ctx_retryCount := match failure with
                       | Some (_, retries) => retries
                       | None => VNumber (Int 0)
                       end |}.

Lemma last_nonempty {A : Type} (l : list A) (a d d' : A) :
  last (a :: l) d = last (a :: l) d'.
Proof.
  revert a. induction l as [| b rest IH]; intros a; [reflexivity |].
  change (last (b :: rest) d = last (b :: rest) d'). apply IH.
Qed.

Lemma after_results_eq (rs : list value) (ctx : InvocationContext) :
  after_results ctx rs
  = {| ctx_resolver := ctx_resolver ctx;
       ctx_resolverMeta := ctx_resolverMeta ctx;
       ctx_output := last rs (ctx_output ctx);
       ctx_outputs := (ctx_outputs ctx ++ rs)%list;
       ctx_error := ctx_error ctx;
       ctx_threw := ctx_threw ctx;
       ctx_retryCount := ctx_retryCount ctx |}.
Proof.
  unfold after_results. revert ctx.
  induction rs as [| r rest IH]; intros ctx.
  - destruct ctx. simpl. rewrite app_nil_r. reflexivity.
  - cbn [fold_left]. rewrite IH.
    cbn [on_result ctx_resolver ctx_resolverMeta ctx_output ctx_outputs
         ctx_error ctx_threw ctx_retryCount].
    rewrite <- app_assoc. f_equal.
    destruct rest as [| r' rest']; [reflexivity |].
    change (last (r :: r' :: rest') (ctx_output ctx))
      with (last (r' :: rest') (ctx_output ctx)).
    apply last_nonempty.
Qed.

Lemma after_results_initial {State : Type} (resolver : Resolver State)
    (resolverMeta : value) (rs : list value) :
  after_results (initial_context resolver resolverMeta) rs
  = observation resolver resolverMeta rs None.
Proof. rewrite after_results_eq. reflexivity. Qed.

Section HarnessFacts.

Variable State : Type.
Variable resolver : Resolver State.
Variables resolverMeta input : value.

(** The loop makes exactly the calls of [call_sequence]: it records the
    fulfilled results and hands the rejection, if any, to the [catch] block. *)
Lemma trials_follow_call_sequence (n : nat) (ctx : InvocationContext) (s : State) :
  trials resolver resolverMeta input n ctx s
  = (match rejected (fst (call_sequence resolver input n s)) with
     | None =>
         Normal (after_results ctx (fulfilled (fst (call_sequence resolver input n s))))
     | Some err =>
         on_error resolverMeta
           (after_results ctx (fulfilled (fst (call_sequence resolver input n s)))) err
     end,
     snd (call_sequence resolver input n s)).
Proof.
  revert ctx s. induction n as [| n IH]; intros ctx s; simpl.
  - reflexivity.
  - destruct (call resolver input s) as [[result | err] s1].
    + rewrite IH. destruct (call_sequence resolver input n s1) as [rest s2].
      reflexivity.
    + reflexivity.
Qed.

(** A trace is a run of fulfilled calls, of full length or cut short by one
    rejection. *)
Lemma call_sequence_shape (n : nat) (s : State) :
  let trace := fst (call_sequence resolver input n s) in
  (rejected trace = None
   /\ trace = List.map Fulfilled (fulfilled trace)
   /\ List.length (fulfilled trace) = n)
  \/ (exists err,
        rejected trace = Some err
        /\ trace = (List.map Fulfilled (fulfilled trace) ++ [Rejected err])%list
        /\ List.length (fulfilled trace) < n).
Proof.
  revert s. induction n as [| n IH]; intros s; simpl.
  - left. repeat split.
  - destruct (call resolver input s) as [[result | err] s1].
    + specialize (IH s1).
      destruct (call_sequence resolver input n s1) as [rest s2]. simpl in *.
      destruct IH as [(Hr & Ht & Hl) | (err & Hr & Ht & Hl)].
      * left. repeat split; [assumption | congruence | lia].
      * right. exists err. repeat split; [assumption | congruence | lia].
    + right. exists err. simpl. repeat split. lia.
Qed.

End HarnessFacts.

Lemma strict_equal_truthy (a b : value) :
  strict_equal a b = true -> truthy a = truthy b.
Proof.
  destruct a as [| | x | x | x | x | x | x], b as [| | y | y | y | y | y | y];
    simpl; try discriminate; try reflexivity.
  - intros H. apply Bool.eqb_prop in H. congruence.
  - destruct x as [x | | x], y as [y | | y]; simpl; try discriminate; try reflexivity.
    intros H. apply Z.eqb_eq in H. congruence.
  - intros H. apply String.eqb_eq in H. congruence.
Qed.

Lemma strict_equal_string (v : value) (s : string) :
  strict_equal v (VString s) = true <-> v = VString s.
Proof.
  destruct v; simpl; split; intros H; try discriminate.
  - apply String.eqb_eq in H. congruence.
  - injection H as ->. apply String.eqb_refl.
Qed.

(** A value whose [code] is truthy is itself truthy. *)
Lemma truthy_code_truthy (f c : value) :
  get f "code" = Normal c -> truthy c = true -> truthy f = true.
Proof.
  destruct f as [| | b | n | s | l | ps | ps]; simpl; try discriminate; auto.
  - intros H. injection H as <-. discriminate.
  - intros H. injection H as <-. discriminate.
  - destruct s as [| a s']; [| reflexivity].
    intros H. injection H as <-. discriminate.
Qed.

Lemma has_code_truthy (code f : value) :
  has_code code f = Normal true -> truthy code = true -> truthy f = true.
Proof.
  unfold has_code. rewrite bind_normal. intros (c & Hc & Heq) Ht.
  injection Heq as Heq. apply strict_equal_truthy in Heq.
  eapply truthy_code_truthy; [eassumption | congruence].
Qed.

Lemma find_first (p : value -> completion bool) (pre post : list value) (f : value) :
  Forall (fun g => p g = Normal false) pre ->
  p f = Normal true ->
  JS.find p (pre ++ f :: post) = Normal f.
Proof.
  intros Hpre Hf. induction Hpre as [| g pre Hg _ IH]; simpl.
  - rewrite Hf. reflexivity.
  - rewrite Hg. simpl. exact IH.
Qed.

Lemma find_none (p : value -> completion bool) (l : list value) :
  Forall (fun g => p g = Normal false) l -> JS.find p l = Normal VUndefined.
Proof.
  intros H. induction H as [| g l Hg _ IH]; simpl; [reflexivity |].
  rewrite Hg. simpl. exact IH.
Qed.

Lemma find_found (p : value -> completion bool) (l : list value) (x : value) :
  JS.find p l = Normal x -> truthy x = true -> In x l /\ p x = Normal true.
Proof.
  induction l as [| y rest IH]; simpl.
  - intros H. injection H as <-. discriminate.
  - rewrite bind_normal. intros ([|] & Hy & Hrest) Ht.
    + injection Hrest as <-. auto.
    + destruct (IH Hrest Ht). auto.
Qed.

Lemma elements_for_normal (method : string) (recv : value) (l : list value) :
  elements_for method recv = Normal l -> recv = VArray l.
Proof.
  destruct recv as [| | b | n | s | l' | ps | ps]; simpl; try discriminate.
  - congruence.
  - destruct (lookup method ps) as [[] |]; discriminate.
  - destruct (lookup method ps) as [[] |]; discriminate.
Qed.

(** The [catch] block, on a context that has recorded only results. *)
Lemma on_error_observation {State : Type} (resolver : Resolver State)
    (resolverMeta : value) (rs : list value) (err : value) :
  on_error resolverMeta (observation resolver resolverMeta rs None) err
  = (code <- get err "code" ;;
     if truthy code then
       decl <- declared_failure resolverMeta code ;;
       if truthy decl then
         retries <- get decl "retries" ;;
         Normal (observation resolver resolverMeta rs (Some (err, retries)))
       else Normal (observation resolver resolverMeta rs (Some (err, VNumber (Int 0))))
     else Normal (observation resolver resolverMeta rs (Some (err, VNumber (Int 0))))).
Proof. reflexivity. Qed.

(** The harness in terms of the calls it makes. *)
Lemma harness_follows_call_sequence {State : Type} (resolver : Resolver State)
    (resolverMeta : value) (testSpec : TestSpec) (fixture : option Fixture)
    (input : value) (s : State) :
  resolver_input resolverMeta fixture = Normal input ->
  invokeResolverWithObservation resolver resolverMeta testSpec fixture s
  = (match rejected (fst (call_sequence resolver input (runs testSpec) s)) with
     | None =>
         Normal (observation resolver resolverMeta
                   (fulfilled (fst (call_sequence resolver input (runs testSpec) s)))
                   None)
     | Some err =>
         on_error resolverMeta
           (observation resolver resolverMeta
              (fulfilled (fst (call_sequence resolver input (runs testSpec) s)))
              None) err
     end,
     snd (call_sequence resolver input (runs testSpec) s)).
Proof.
  intros Hinput. unfold invokeResolverWithObservation. rewrite Hinput.
  rewrite trials_follow_call_sequence, after_results_initial. reflexivity.
Qed.

(** A resolver that rejects every call with the same error. *)
Definition always_rejecting (err : value) : Resolver unit :=
  {| resolver_value := VFunction [];
     behaviour := fun _ s => (Rejected err, s) |}.

(** C2, as stated, fails: the thrown error's code, the empty string, equals
    a declared failure code, yet [retryCount] is not set to the declared
    [retries] and stays [0]. *)
Lemma retry_count_ignores_empty_code :
  let err := VObject [("code", VString ""); ("message", VString "x")] in
  let declared := VObject [("code", VString ""); ("retries", VNumber (Int 2))] in
  let declaration := VObject [("failures", VArray [declared])] in
  let testSpec := {| test_id := Some "R-009-retries"; category := Some "resolver-runtime";
                     assertions := None; fixtures := [] |} in
  get err "code" = Normal (VString "")
  /\ declared_failure declaration (VString "") = Normal declared
  /\ get declared "retries" = Normal (VNumber (Int 2))
  /\ invokeResolverWithObservation (always_rejecting err) declaration testSpec None tt
     = (Normal (observation (always_rejecting err) declaration []
                  (Some (err, VNumber (Int 0)))), tt).
Proof. repeat split; reflexivity. Qed.

(** C2, amended.  With [input] the constructed input, the harness plans 3
    trials when [test_id] is the determinism identifier and 1 otherwise, and
    makes exactly the calls of [call_sequence]: sequential, and none after a
    rejection.  When no trial throws, all planned trials are recorded.  When
    a trial throws, the earlier results stay in [outputs], [threw] is set and
    the error recorded; [retryCount] becomes the [retries] of the first
    declared failure whose code equals the error's code provided that code
    is truthy (a non-empty string), and stays [0] when the code is falsy or
    no declared failure has it. *)
Theorem observation_harness_trials {State : Type} (resolver : Resolver State)
    (resolverMeta : value) (testSpec : TestSpec) (fixture : option Fixture)
    (input : value) (s : State) :
  resolver_input resolverMeta fixture = Normal input ->
  let n := runs testSpec in
  let trace := fst (call_sequence resolver input n s) in
  let rs := fulfilled trace in
  let outcome := invokeResolverWithObservation resolver resolverMeta testSpec fixture s in
  let recorded := fun failure => Normal (observation resolver resolverMeta rs failure) in
  (test_id testSpec = Some determinism_test_id -> n = 3)
  /\ (test_id testSpec <> Some determinism_test_id -> n = 1)
  /\ snd outcome = snd (call_sequence resolver input n s)
  /\ (rejected trace = None ->
      trace = List.map Fulfilled rs /\ List.length rs = n
      /\ fst outcome = recorded None)
  /\ (forall err, rejected trace = Some err ->
      trace = (List.map Fulfilled rs ++ [Rejected err])%list
      /\ List.length rs < n
      /\ forall code, get err "code" = Normal code ->
         (truthy code = false ->
          fst outcome = recorded (Some (err, VNumber (Int 0))))
         /\ (truthy code = true ->
             forall failures, get resolverMeta "failures" = Normal failures ->
             (nullish failures = true ->
              fst outcome = recorded (Some (err, VNumber (Int 0))))
             /\ (forall l, failures = VArray l ->
                 (Forall (fun g => has_code code g = Normal false) l ->
                  fst outcome = recorded (Some (err, VNumber (Int 0))))
                 /\ (forall pre f post retries,
                       l = (pre ++ f :: post)%list ->
                       Forall (fun g => has_code code g = Normal false) pre ->
                       has_code code f = Normal true ->
                       get f "retries" = Normal retries ->
                       fst outcome = recorded (Some (err, retries)))))).
Proof.
  intros Hinput n trace rs outcome recorded.
  assert (Hout : outcome
                 = (match rejected trace with
                    | None => recorded None
                    | Some err =>
                        on_error resolverMeta
                          (observation resolver resolverMeta rs None) err
                    end, snd (call_sequence resolver input n s)))
    by (apply harness_follows_call_sequence; assumption).
  pose proof (call_sequence_shape State resolver input n s) as Hshape.
  cbv zeta in Hshape. fold trace rs in Hshape.
  split; [| split; [| split; [| split]]].
  - intros Hid. unfold n, runs. rewrite Hid. reflexivity.
  - intros Hid. unfold n, runs.
    destruct (test_id testSpec) as [t |]; [| reflexivity].
    destruct (String.eqb_spec t determinism_test_id) as [-> | _];
      [contradiction | reflexivity].
  - rewrite Hout. reflexivity.
  - intros Hnone. rewrite Hout, Hnone.
    destruct Hshape as [(_ & Ht & Hl) | (err & Hr & _)]; [| congruence].
    auto.
  - intros err Hsome. rewrite Hout, Hsome. cbn [fst].
    destruct Hshape as [(Hr & _) | (err' & Hr & Ht & Hl)]; [congruence |].
    assert (err' = err) by congruence. subst err'.
    split; [assumption |]. split; [assumption |].
    intros code Hcode. rewrite on_error_observation, Hcode. cbn [bind].
    split.
    + intros ->. reflexivity.
    + intros Htruthy. rewrite Htruthy. intros failures Hfailures.
      unfold declared_failure. rewrite Hfailures. cbn [bind]. split.
      * intros ->. reflexivity.
      * intros l ->. cbn [nullish elements_for bind]. split.
        -- intros Hnone. rewrite (find_none _ _ Hnone). reflexivity.
        -- intros pre f post retries -> Hpre Hf Hretries.
           rewrite (find_first _ pre post f Hpre Hf). cbn [bind].
           rewrite (has_code_truthy code f Hf Htruthy).
           rewrite Hretries. reflexivity.
Qed.

(** A resolver that counts its calls: it answers [{a:1}] twice and [{a:2}]
    from then on. *)
Definition drifting : Resolver nat :=
  {| resolver_value := VFunction [];
     behaviour := fun _ calls =>
       (Fulfilled (VObject [("a", VNumber (Int (if Nat.ltb calls 2 then 1 else 2)))]),
        S calls) |}.

(** The scenarios of the specification: the three determinism trials are all
    made and all reported, and a thrown declared code sets the retry count. *)
Lemma observation_harness_trials_witness :
  let determinism := {| test_id := Some "R-011-determinism";
                        category := Some "resolver-runtime";
                        assertions := None; fixtures := [] |} in
  let retries := {| test_id := Some "R-009-retries";
                    category := Some "resolver-runtime";
                    assertions := None; fixtures := [] |} in
  let err := VObject [("code", VString "NOT_FOUND"); ("message", VString "x")] in
  let declared := VObject [("code", VString "NOT_FOUND"); ("retries", VNumber (Int 2))] in
  let declaration := VObject [("failures", VArray [declared])] in
  (fst (invokeResolverWithObservation drifting (VObject []) determinism None 0)
   = Normal (observation drifting (VObject [])
               [VObject [("a", VNumber (Int 1))]; VObject [("a", VNumber (Int 1))];
                VObject [("a", VNumber (Int 2))]] None)
   /\ snd (invokeResolverWithObservation drifting (VObject []) determinism None 0) = 3)
  /\ fst (invokeResolverWithObservation (always_rejecting err) declaration retries None tt)
     = Normal (observation (always_rejecting err) declaration []
                 (Some (err, VNumber (Int 2)))).
Proof.
  cbv zeta. split.
  - pose proof (observation_harness_trials drifting (VObject [])
                  {| test_id := Some "R-011-determinism";
                     category := Some "resolver-runtime";
                     assertions := None; fixtures := [] |}
                  None (VObject []) 0 eq_refl) as H.
    cbv zeta in H. destruct H as (_ & _ & Hcalls & Hnone & _).
    destruct (Hnone eq_refl) as (_ & _ & Hctx). split.
    + exact Hctx.
    + exact Hcalls.
  - pose proof (observation_harness_trials
                  (always_rejecting
                     (VObject [("code", VString "NOT_FOUND"); ("message", VString "x")]))
                  (VObject [("failures",
                             VArray [VObject [("code", VString "NOT_FOUND");
                                              ("retries", VNumber (Int 2))]])])
                  {| test_id := Some "R-009-retries";
                     category := Some "resolver-runtime";
                     assertions := None; fixtures := [] |}
                  None (VObject []) tt eq_refl) as H.
    cbv zeta in H. destruct H as (_ & _ & _ & _ & Hthrown).
    destruct (Hthrown _ eq_refl) as (_ & _ & Hcode).
    destruct (Hcode (VString "NOT_FOUND") eq_refl) as (_ & Htruthy).
    destruct (Htruthy eq_refl _ eq_refl) as (_ & Hlist).
    destruct (Hlist _ eq_refl) as (_ & Hfound).
    exact (Hfound [] _ [] _ eq_refl (Forall_nil _) eq_refl eq_refl).
Defined.

(** The invariant of a context returned for the declaration [resolverMeta]
    after the calls [trace]:
    - [threw] is set exactly when an error is recorded;
    - [outputs] holds the results of the successful trials, in order;
    - [output] is [null] when [outputs] is empty and its last element
      otherwise;
    - [retryCount] differs from [0] only if a trial threw an error whose code
      is the code of a declared failure, whose [retries] it then is. *)
Definition context_invariant (resolverMeta : value) (trace : list settlement)
    (ctx : InvocationContext) : Prop :=
  (ctx_threw ctx = true <-> ctx_error ctx <> VNull)
  /\ ctx_outputs ctx = fulfilled trace
  /\ (ctx_outputs ctx = [] -> ctx_output ctx = VNull)
  /\ (ctx_outputs ctx <> [] ->
      exists front, ctx_outputs ctx = (front ++ [ctx_output ctx])%list)
  /\ (ctx_retryCount ctx <> VNumber (Int 0) ->
      ctx_threw ctx = true
      /\ rejected trace = Some (ctx_error ctx)
      /\ exists code l f,
           get (ctx_error ctx) "code" = Normal code
           /\ get resolverMeta "failures" = Normal (VArray l)
           /\ In f l
           /\ has_code code f = Normal true
           /\ get f "retries" = Normal (ctx_retryCount ctx)).

Lemma observation_invariant {State : Type} (resolver : Resolver State)
    (resolverMeta : value) (trace : list settlement)
    (failure : option (value * value)) :
  match failure with
  | None => True
  | Some (err, retries) =>
      err <> VNull
      /\ (retries <> VNumber (Int 0) ->
          rejected trace = Some err
          /\ exists code l f,
               get err "code" = Normal code
               /\ get resolverMeta "failures" = Normal (VArray l)
               /\ In f l
               /\ has_code code f = Normal true
               /\ get f "retries" = Normal retries)
  end ->
  context_invariant resolverMeta trace
    (observation resolver resolverMeta (fulfilled trace) failure).
Proof.
  intros Hfailure. unfold context_invariant, observation. simpl.
  split; [| split; [reflexivity | split; [| split]]].
  - destruct failure as [[err retries] |].
    + split; [intros _; apply Hfailure | reflexivity].
    + split; [discriminate | intros H; now contradiction H].
  - intros ->. reflexivity.
  - intros Hne. exists (removelast (fulfilled trace)).
    now apply app_removelast_last.
  - destruct failure as [[err retries] |].
    + intros Hretries. destruct Hfailure as (_ & Hmatch).
      destruct (Hmatch Hretries) as (Hrej & Hdecl). auto.
    + intros H. now contradiction H.
Qed.

(** C9: a context returned by the harness satisfies the invariant, for the
    calls the harness made. *)
Theorem returned_context_invariant {State : Type} (resolver : Resolver State)
    (resolverMeta : value) (testSpec : TestSpec) (fixture : option Fixture)
    (s s' : State) (ctx : InvocationContext) :
  invokeResolverWithObservation resolver resolverMeta testSpec fixture s
  = (Normal ctx, s') ->
  exists input,
    resolver_input resolverMeta fixture = Normal input
    /\ s' = snd (call_sequence resolver input (runs testSpec) s)
    /\ context_invariant resolverMeta
         (fst (call_sequence resolver input (runs testSpec) s)) ctx.
Proof.
  intros Hrun.
  destruct (resolver_input resolverMeta fixture) as [input | e |] eqn:Hinput;
    try (unfold invokeResolverWithObservation in Hrun; rewrite Hinput in Hrun;
         discriminate).
  exists input. split; [reflexivity |].
  rewrite (harness_follows_call_sequence resolver resolverMeta testSpec fixture
             input s Hinput) in Hrun.
  injection Hrun as Hctx Hs. split; [congruence |].
  set (trace := fst (call_sequence resolver input (runs testSpec) s)) in *.
  destruct (rejected trace) as [err |] eqn:Hrej.
  - rewrite on_error_observation in Hctx. apply bind_normal in Hctx.
    destruct Hctx as (code & Hcode & Hctx).
    assert (Herr : err <> VNull) by (intros ->; discriminate).
    destruct (truthy code) eqn:Htruthy.
    + apply bind_normal in Hctx. destruct Hctx as (decl & Hdecl & Hctx).
      destruct (truthy decl) eqn:Hfound.
      * apply bind_normal in Hctx. destruct Hctx as (retries & Hretries & Hctx).
        injection Hctx as <-. apply observation_invariant.
        split; [assumption |]. intros _. split; [exact Hrej |].
        unfold declared_failure in Hdecl. apply bind_normal in Hdecl.
        destruct Hdecl as (failures & Hfailures & Hdecl).
        destruct (nullish failures).
        -- injection Hdecl as <-. discriminate.
        -- apply bind_normal in Hdecl. destruct Hdecl as (l & Hl & Hfind).
           apply elements_for_normal in Hl. subst failures.
           destruct (find_found _ _ _ Hfind Hfound) as (Hin & Hmatch).
           exists code, l, decl. auto.
      * injection Hctx as <-. apply observation_invariant.
        split; [assumption |]. intros H. now contradiction H.
    + injection Hctx as <-. apply observation_invariant.
      split; [assumption |]. intros H. now contradiction H.
  - injection Hctx as <-. apply observation_invariant. exact I.
Qed.

Lemma returned_context_invariant_witness :
  exists input,
    resolver_input (VObject []) None = Normal input
    /\ 3 = snd (call_sequence drifting input 3 0)
    /\ context_invariant (VObject []) (fst (call_sequence drifting input 3 0))
         (observation drifting (VObject [])
            [VObject [("a", VNumber (Int 1))]; VObject [("a", VNumber (Int 1))];
             VObject [("a", VNumber (Int 2))]] None).
Proof.
  exact (returned_context_invariant drifting (VObject [])
           {| test_id := Some "R-011-determinism";
              category := Some "resolver-runtime";
              assertions := None; fixtures := [] |}
           None 0 3 _ eq_refl).
Defined.

(** ** Input construction *)

(** A resolver that returns its input. *)
Definition echo : Resolver unit :=
  {| resolver_value := VFunction [];
     behaviour := fun input s => (Fulfilled input, s) |}.

Definition runtime_spec (name : string) : TestSpec :=
  {| test_id := Some name; category := Some "resolver-runtime";
     assertions := None; fixtures := [] |}.

(** C5, as stated, fails in three ways.  A fixture whose [invoke] is present
    but falsy (here the empty string) does not reach the resolver: the input
    is the empty object.  A declaration whose [exampleAction] is present but
    falsy raises the configuration error.  And the configuration error is not
    the only exception that reaches the caller: when the resolver rejects
    with [undefined], reading the error's code in the [catch] block throws. *)
Lemma resolver_input_not_literal :
  let spec := runtime_spec "R-008-missing-input" in
  invokeResolverWithObservation echo (VObject [])
    spec (Some {| resolver_contract := None; invoke := VString "" |}) tt
  = (Normal (observation echo (VObject []) [VObject []] None), tt)
  /\ invokeResolverWithObservation echo (VObject [("exampleAction", VString "")])
       spec (Some {| resolver_contract := None; invoke := VString example_marker |}) tt
     = (Throw configuration_error, tt)
  /\ invokeResolverWithObservation (always_rejecting VUndefined) (VObject [])
       spec (Some {| resolver_contract := None; invoke := VObject [] |}) tt
     = (Throw (TypeError "Cannot read properties of undefined (reading 'code')"), tt).
Proof. repeat split; reflexivity. Qed.

Lemma get_optional_example_action (resolverMeta : value) :
  exists x, get_optional resolverMeta "exampleAction" = Normal x.
Proof.
  unfold get_optional. destruct (nullish resolverMeta) eqn:Hn; [eauto |].
  apply get_plain_key; [assumption | reflexivity].
Qed.

(** A declaration whose [failures] can be searched: absent, [null], or a
    sequence of entries none of which is [null] or [undefined]. *)
Definition searchable_failures (resolverMeta : value) : Prop :=
  exists failures,
    get resolverMeta "failures" = Normal failures
    /\ (nullish failures = true
        \/ exists l, failures = VArray l /\ Forall (fun f => nullish f = false) l).

(** A declaration that passes [resolver_failures_valid] can be searched. *)
Lemma valid_failures_searchable (resolverMeta : value) :
  checkResolverFailuresValid resolverMeta = Normal (VBool true) ->
  searchable_failures resolverMeta.
Proof.
  unfold checkResolverFailuresValid, searchable_failures. rewrite bind_normal.
  intros (failures & Hget & Hvalid). exists failures. split; [assumption |].
  destruct failures as [| | b | n | s | l | ps | ps]; simpl in Hvalid;
    try discriminate Hvalid;
    try (destruct (negb _) in Hvalid; discriminate Hvalid).
  right. exists l. split; [reflexivity |].
  unfold ret_bool in Hvalid. apply bind_normal in Hvalid.
  destruct Hvalid as (b & Hevery & Hb). injection Hb as ->.
  apply every_true in Hevery. eapply Forall_impl; [| exact Hevery].
  intros f Hf. apply valid_failure_true in Hf. destruct Hf as ((c & Hc) & _).
  eapply get_normal_not_nullish; eassumption.
Qed.

Lemma find_has_code_total (code : value) (l : list value) :
  Forall (fun f => nullish f = false) l ->
  exists x, JS.find (has_code code) l = Normal x
            /\ (x = VUndefined \/ nullish x = false).
Proof.
  intros H. induction H as [| f l Hf _ IH]; simpl; [eauto |].
  unfold has_code at 1.
  destruct (get_plain_key f "code" Hf eq_refl) as (c & ->). simpl.
  destruct (strict_equal c code); eauto.
Qed.

(** The [catch] block completes when the error is an object and the
    declared failures can be searched. *)
Lemma on_error_completes (resolverMeta : value) (ctx : InvocationContext)
    (err : value) :
  nullish err = false ->
  searchable_failures resolverMeta ->
  exists ctx', on_error resolverMeta ctx err = Normal ctx'.
Proof.
  intros Herr (failures & Hfailures & Hshape). unfold on_error.
  destruct (get_plain_key err "code" Herr eq_refl) as (code & ->). simpl.
  destruct (truthy code); [| eauto].
  unfold declared_failure. rewrite Hfailures. simpl.
  destruct Hshape as [-> | (l & -> & Hall)]; simpl; [eauto |].
  destruct (find_has_code_total code l Hall) as (x & -> & Hx). simpl.
  destruct (truthy x) eqn:Ht; [| eauto].
  destruct Hx as [-> | Hx]; [discriminate |].
  destruct (get_plain_key x "retries" Hx eq_refl) as (r & ->). simpl. eauto.
Qed.

(** C5, amended.  When the fixture's [invoke] is the marker, the input is the
    declaration's [exampleAction] if that is truthy, and the harness throws
    the configuration error if it is falsy (absent, [null], [false], [0],
    [NaN] or the empty string).  Otherwise the input is the fixture's
    [invoke] value if that is truthy, and the empty object if it is absent or
    falsy.  Whatever the harness throws to its caller is either the
    configuration error, raised under these conditions before any call, or
    an exception raised in the [catch] block while the rejection of a trial
    is recorded; the latter cannot happen when rejections are objects and
    the declared failures can be searched. *)
Theorem resolver_input_construction {State : Type} (resolver : Resolver State)
    (resolverMeta : value) (testSpec : TestSpec) (fixture : option Fixture)
    (s : State) :
  let outcome := invokeResolverWithObservation resolver resolverMeta testSpec fixture s in
  let trials_on := fun input =>
    trials resolver resolverMeta input (runs testSpec)
      (initial_context resolver resolverMeta) s in
  (fixture_invoke fixture = VString example_marker ->
   exists exampleAction,
     get_optional resolverMeta "exampleAction" = Normal exampleAction
     /\ (truthy exampleAction = true -> outcome = trials_on exampleAction)
     /\ (truthy exampleAction = false -> outcome = (Throw configuration_error, s)))
  /\ (fixture_invoke fixture <> VString example_marker ->
      (truthy (fixture_invoke fixture) = true ->
       outcome = trials_on (fixture_invoke fixture))
      /\ (truthy (fixture_invoke fixture) = false ->
          outcome = trials_on (VObject [])))
  /\ (forall e s', outcome = (Throw e, s') ->
      (e = configuration_error /\ s' = s
       /\ fixture_invoke fixture = VString example_marker
       /\ exists exampleAction,
            get_optional resolverMeta "exampleAction" = Normal exampleAction
            /\ truthy exampleAction = false)
      \/ (exists input err,
            resolver_input resolverMeta fixture = Normal input
            /\ rejected (fst (call_sequence resolver input (runs testSpec) s)) = Some err
            /\ on_error resolverMeta
                 (observation resolver resolverMeta
                    (fulfilled (fst (call_sequence resolver input (runs testSpec) s)))
                    None) err
               = Throw e))
  /\ ((forall input s0 err s1,
         call resolver input s0 = (Rejected err, s1) -> nullish err = false) ->
      searchable_failures resolverMeta ->
      forall e s', outcome = (Throw e, s') -> e = configuration_error).
Proof.
  intros outcome trials_on.
  assert (Hmarker : fixture_invoke fixture = VString example_marker ->
            forall exampleAction,
              get_optional resolverMeta "exampleAction" = Normal exampleAction ->
              resolver_input resolverMeta fixture
              = if negb (truthy exampleAction) then Throw configuration_error
                else Normal exampleAction).
  { intros Hm ex Hex. unfold resolver_input. rewrite Hm.
    cbn [strict_equal]. rewrite String.eqb_refl, Hex. reflexivity. }
  assert (Hliteral : fixture_invoke fixture <> VString example_marker ->
            resolver_input resolverMeta fixture
            = Normal (or_else (fixture_invoke fixture) (VObject []))).
  { intros Hm. unfold resolver_input.
    destruct (strict_equal (fixture_invoke fixture) (VString example_marker)) eqn:E;
      [| reflexivity].
    apply strict_equal_string in E. contradiction. }
  assert (Hthrown : forall e s', outcome = (Throw e, s') ->
            (e = configuration_error /\ s' = s
             /\ fixture_invoke fixture = VString example_marker
             /\ exists exampleAction,
                  get_optional resolverMeta "exampleAction" = Normal exampleAction
                  /\ truthy exampleAction = false)
            \/ (exists input err,
                  resolver_input resolverMeta fixture = Normal input
                  /\ rejected (fst (call_sequence resolver input (runs testSpec) s))
                     = Some err
                  /\ on_error resolverMeta
                       (observation resolver resolverMeta
                          (fulfilled (fst (call_sequence resolver input
                                             (runs testSpec) s))) None) err
                     = Throw e)).
  { intros e s' Hout.
    destruct (resolver_input resolverMeta fixture) as [input | e0 |] eqn:Hinput.
    - right. exists input. unfold outcome in Hout.
      rewrite (harness_follows_call_sequence resolver resolverMeta testSpec
                 fixture input s Hinput) in Hout.
      injection Hout as Hctx _.
      destruct (rejected (fst (call_sequence resolver input (runs testSpec) s)))
        as [err |]; [| discriminate].
      exists err. auto.
    - left. unfold outcome, invokeResolverWithObservation in Hout.
      rewrite Hinput in Hout. injection Hout as <- <-.
      destruct (strict_equal (fixture_invoke fixture) (VString example_marker)) eqn:E.
      + apply strict_equal_string in E.
        destruct (get_optional_example_action resolverMeta) as (ex & Hex).
        pose proof (Hmarker E ex Hex) as Hcfg.
        destruct (truthy ex) eqn:Ht; simpl in Hcfg; [discriminate |].
        injection Hcfg as ->. repeat split; eauto.
      + assert (Hne : fixture_invoke fixture <> VString example_marker)
          by (intros Heq; apply strict_equal_string in Heq; congruence).
        specialize (Hliteral Hne). discriminate.
    - unfold outcome, invokeResolverWithObservation in Hout.
      rewrite Hinput in Hout. discriminate. }
  split; [| split; [| split]].
  - intros Hm. destruct (get_optional_example_action resolverMeta) as (ex & Hex).
    exists ex. split; [assumption |].
    unfold outcome, invokeResolverWithObservation.
    rewrite (Hmarker Hm ex Hex). split; intros ->; reflexivity.
  - intros Hm. unfold outcome, invokeResolverWithObservation.
    rewrite (Hliteral Hm). unfold or_else.
    split; intros ->; reflexivity.
  - exact Hthrown.
  - intros Hobjects Hsearch e s' Hout.
    destruct (Hthrown e s' Hout) as [(He & _) | (input & err & _ & Hrej & Hcatch)];
      [assumption |].
    exfalso.
    assert (Herr : nullish err = false).
    { clear - Hrej Hobjects.
      revert Hrej. generalize (runs testSpec) as n. revert s.
      intros s n. revert s. induction n as [| n IH]; intros s; simpl.
      - discriminate.
      - destruct (call resolver input s) as [[result | err'] s1] eqn:Hcall.
        + specialize (IH s1).
          destruct (call_sequence resolver input n s1) as [rest s2]. exact IH.
        + simpl. intros Heq. injection Heq as <-. eapply Hobjects; eassumption. }
    destruct (on_error_completes resolverMeta
                (observation resolver resolverMeta
                   (fulfilled (fst (call_sequence resolver input (runs testSpec) s)))
                   None) err Herr Hsearch) as (ctx' & Hok).
    congruence.
Qed.

Lemma resolver_input_construction_witness :
  let spec := runtime_spec "R-007-output" in
  let action := VString "Action bank-account-lookup customer_id=12345" in
  let marked := Some {| resolver_contract := None; invoke := VString example_marker |} in
  let literal := VObject [("customer_id", VNumber (Int 12345))] in
  invokeResolverWithObservation echo (VObject [("exampleAction", action)]) spec marked tt
  = (Normal (observation echo (VObject [("exampleAction", action)]) [action] None), tt)
  /\ invokeResolverWithObservation echo (VObject []) spec marked tt
     = (Throw configuration_error, tt)
  /\ invokeResolverWithObservation echo (VObject []) spec
       (Some {| resolver_contract := None; invoke := literal |}) tt
     = (Normal (observation echo (VObject []) [literal] None), tt)
  /\ invokeResolverWithObservation echo (VObject []) spec None tt
     = (Normal (observation echo (VObject []) [VObject []] None), tt)
  /\ (forall e s',
        invokeResolverWithObservation echo (VObject []) spec marked tt = (Throw e, s') ->
        e = configuration_error).
Proof.
  cbv zeta. split; [| split; [| split; [| split]]].
  - destruct (proj1 (resolver_input_construction echo
                       (VObject [("exampleAction",
                                  VString "Action bank-account-lookup customer_id=12345")])
                       (runtime_spec "R-007-output")
                       (Some {| resolver_contract := None;
                                invoke := VString example_marker |}) tt) eq_refl)
      as (ex & Hex & Htruthy & _).
    injection Hex as <-. rewrite (Htruthy eq_refl). reflexivity.
  - destruct (proj1 (resolver_input_construction echo (VObject [])
                       (runtime_spec "R-007-output")
                       (Some {| resolver_contract := None;
                                invoke := VString example_marker |}) tt) eq_refl)
      as (ex & Hex & _ & Hfalsy).
    injection Hex as <-. exact (Hfalsy eq_refl).
  - destruct (proj1 (proj2 (resolver_input_construction echo (VObject [])
                              (runtime_spec "R-007-output")
                              (Some {| resolver_contract := None;
                                       invoke := VObject [("customer_id",
                                                           VNumber (Int 12345))] |}) tt)))
      as (Htruthy & _); [discriminate |].
    rewrite (Htruthy eq_refl). reflexivity.
  - destruct (proj1 (proj2 (resolver_input_construction echo (VObject [])
                              (runtime_spec "R-007-output") None tt)))
      as (_ & Hfalsy); [discriminate |].
    rewrite (Hfalsy eq_refl). reflexivity.
  - apply (proj2 (proj2 (proj2 (resolver_input_construction echo (VObject [])
                                  (runtime_spec "R-007-output")
                                  (Some {| resolver_contract := None;
                                           invoke := VString example_marker |}) tt)))).
    + intros input s0 err s1 Hcall. discriminate Hcall.
    + exists VUndefined. split; [reflexivity | left; reflexivity].
Defined.

(** ** The assertion runner *)

(** The spec that holds the single assertion [a], and the report of running
    it: what [a] does individually. *)
Definition only (testSpec : TestSpec) (a : Assertion) : TestSpec :=
  {| test_id := test_id testSpec;
     category := category testSpec;
     assertions := Some [a];
     fixtures := fixtures testSpec |}.

Definition alone (testSpec : TestSpec) (target status : value) (a : Assertion)
  : completion Report :=
  runAssertions (only testSpec a) target status.

(** The failure entries [a] produces individually. *)
Definition own_failures (testSpec : TestSpec) (target status : value) (a : Assertion)
  : list Failure :=
  match alone testSpec target status a with
  | Normal {| failures := Some fs |} => fs
  | _ => []
  end.

Definition report_of (fs : list Failure) : Report :=
  {| ok := Nat.eqb (List.length fs) 0;
     message := if Nat.eqb (List.length fs) 0 then "All assertions passed"
                else String.concat (newline ++ newline) (List.map failure_line fs);
     failures := Some fs |}.

Definition entries (r : option Failure) : list Failure :=
  match r with Some f => [f] | None => [] end.

Lemma alone_check_assertion (testSpec : TestSpec) (target status : value)
    (a : Assertion) :
  alone testSpec target status a
  = (r <- check_assertion target (default_status status) a ;;
     Normal (report_of (entries r))).
Proof.
  unfold alone, runAssertions, only. cbn [assertions check_all].
  destruct (check_assertion target (default_status status) a) as [[f |] | e |];
    reflexivity.
Qed.

Lemma check_all_collects (target status : value) (l : list Assertion)
    (acc : list Failure) :
  (forall a, In a l -> exists r, check_assertion target status a = Normal r) ->
  check_all target status l acc
  = Normal (acc ++ flat_map
                     (fun a => match check_assertion target status a with
                               | Normal r => entries r
                               | _ => []
                               end) l)%list.
Proof.
  revert acc. induction l as [| a rest IH]; intros acc Hall; simpl.
  - rewrite app_nil_r. reflexivity.
  - destruct (Hall a (or_introl eq_refl)) as (r & Hr). rewrite Hr. cbn [bind].
    rewrite IH by (intros b Hb; apply Hall; now right).
    destruct r as [f |]; simpl; [rewrite <- app_assoc |]; reflexivity.
Qed.

Lemma check_all_throws (target status : value) (pre post : list Assertion)
    (a : Assertion) (e : value) (acc : list Failure) :
  (forall b, In b pre -> exists r, check_assertion target status b = Normal r) ->
  check_assertion target status a = Throw e ->
  check_all target status (pre ++ a :: post) acc = Throw e.
Proof.
  revert acc. induction pre as [| b pre IH]; intros acc Hpre Ha; simpl.
  - rewrite Ha. reflexivity.
  - destruct (Hpre b (or_introl eq_refl)) as (r & Hr). rewrite Hr. cbn [bind].
    apply IH; [| assumption]. intros c Hc. apply Hpre. now right.
Qed.

Definition declaration_example : value :=
  VObject [ ("resolverName", VString "bank-account-lookup");
            ("inputs", VArray [VObject [("name", VString "customer_id");
                                        ("type", VString "string");
                                        ("required", VBool true)]]);
            ("outputs", VArray [VObject [("name", VString "balance")]]);
            ("failures", VArray [VObject [("code", VString "NOT_FOUND");
                                          ("retries", VNumber (Int 2))]]) ].

Definition assertion_of (i t : string) : Assertion :=
  {| id := i; type := t; severity := None; description := None;
     field := None; expected := VUndefined |}.

(** C1, as stated, fails: a handler that throws ends the run.  Against a
    declaration, the registered type [retry_count_within_declared_limit]
    reads [failures] from the missing [resolverMeta] property and throws; no
    report is returned, and the next assertion, which fails individually, is
    never evaluated. *)
Lemma runAssertions_stops_at_throwing_handler :
  let a1 := assertion_of "a1" "retry_count_within_declared_limit" in
  let a2 := assertion_of "a2" "resolver_outputs_valid" in
  let testSpec := {| test_id := Some "R-005-resolver-metadata"; category := None;
                     assertions := Some [a1; a2]; fixtures := [] |} in
  own_failures testSpec declaration_example VUndefined a2
  = [ {| failure_id := "a2"; failure_severity := "fatal";
         failure_message := "Assertion failed: a2" |} ]
  /\ runAssertions testSpec declaration_example VUndefined
     = Throw (TypeError "Cannot read properties of undefined (reading 'failures')").
Proof. split; reflexivity. Qed.

Lemma own_failures_check_assertion (testSpec : TestSpec) (target status : value)
    (a : Assertion) :
  own_failures testSpec target status a
  = match check_assertion target (default_status status) a with
    | Normal r => entries r
    | _ => []
    end.
Proof.
  unfold own_failures. rewrite alone_check_assertion.
  destruct (check_assertion target (default_status status) a) as [[f |] | e |];
    reflexivity.
Qed.

Lemma check_assertion_entry (target status : value) (a : Assertion) (f : Failure) :
  check_assertion target status a = Normal (Some f) ->
  failure_id f = id a
  /\ failure_severity f = match severity a with Some s => s | None => "fatal" end.
Proof.
  unfold check_assertion.
  destruct (lookup_handler (type a)) as [h |].
  - rewrite bind_normal. intros (result & _ & H).
    apply bind_normal in H. destruct H as ((passed & details) & _ & H).
    destruct (truthy passed); [discriminate |].
    apply bind_normal in H. destruct H as (msg & _ & H).
    injection H as <-. split; reflexivity.
  - intros H. injection H as <-. split; reflexivity.
Qed.

(** C1, amended.  For a spec with a non-empty assertion list, if every
    assertion evaluated individually yields a report, the runner yields a
    report whose failures are the individual failure entries of the
    assertions, concatenated in spec order: none for an assertion that passes
    individually, exactly one (carrying the assertion's id and severity) for
    one that fails; [ok] holds exactly when there is no failure.  An
    assertion whose type the registry lookup does not find fails with the
    "Unknown assertion type" message.  If instead an assertion's handler
    throws after the ones before it returned, the runner throws the same
    error and returns no report. *)
Theorem runAssertions_reports_each_failing_assertion
    (testSpec : TestSpec) (target status : value) (l : list Assertion) :
  assertions testSpec = Some l -> l <> [] ->
  ((forall a, In a l -> exists report, alone testSpec target status a = Normal report) ->
   exists fs,
     runAssertions testSpec target status = Normal (report_of fs)
     /\ fs = flat_map (own_failures testSpec target status) l
     /\ (ok (report_of fs) = true <-> fs = [])
     /\ (forall a, In a l ->
         (alone testSpec target status a = Normal (report_of [])
          /\ own_failures testSpec target status a = [])
         \/ (exists f,
               alone testSpec target status a = Normal (report_of [f])
               /\ own_failures testSpec target status a = [f]
               /\ failure_id f = id a
               /\ failure_severity f
                  = match severity a with Some s => s | None => "fatal" end)))
  /\ (forall a, lookup_handler (type a) = None ->
      own_failures testSpec target status a
      = [ {| failure_id := id a;
             failure_severity := match severity a with Some s => s | None => "fatal" end;
             failure_message := "Unknown assertion type: " ++ type a |} ])
  /\ (forall pre a post e,
        l = (pre ++ a :: post)%list ->
        (forall b, In b pre ->
                   exists report, alone testSpec target status b = Normal report) ->
        alone testSpec target status a = Throw e ->
        runAssertions testSpec target status = Throw e).
Proof.
  intros Hl Hne.
  assert (Hrun : runAssertions testSpec target status
                 = (fs <- check_all target (default_status status) l [] ;;
                    Normal (report_of fs))).
  { unfold runAssertions. rewrite Hl. destruct l; [contradiction | reflexivity]. }
  assert (Hreturns : forall a,
            (exists report, alone testSpec target status a = Normal report) ->
            exists r, check_assertion target (default_status status) a = Normal r).
  { intros a (report & Ha). rewrite alone_check_assertion in Ha.
    apply bind_normal in Ha. destruct Ha as (r & Hr & _). eauto. }
  split; [| split].
  - intros Hall. exists (flat_map (own_failures testSpec target status) l).
    split; [| split; [reflexivity | split]].
    + rewrite Hrun, check_all_collects by (intros a Ha; auto). cbn [bind app].
      do 2 f_equal. apply flat_map_ext. intros a.
      symmetry. apply own_failures_check_assertion.
    + unfold report_of. cbn [ok].
      destruct (flat_map (own_failures testSpec target status) l);
        simpl; split; intros H; congruence.
    + intros a Ha. destruct (Hreturns a (Hall a Ha)) as (r & Hr).
      rewrite own_failures_check_assertion, alone_check_assertion, Hr. cbn [bind].
      destruct r as [f |]; [right | left; auto].
      exists f. destruct (check_assertion_entry _ _ _ _ Hr). auto.
  - intros a Hunknown. rewrite own_failures_check_assertion.
    unfold check_assertion. rewrite Hunknown. reflexivity.
  - intros pre a post e -> Hpre Ha. rewrite Hrun.
    rewrite alone_check_assertion in Ha.
    destruct (check_assertion target (default_status status) a) as [r | e' |] eqn:Hr;
      try discriminate.
    injection Ha as ->.
    rewrite (check_all_throws target (default_status status) pre post a e []);
      auto.
Qed.

Lemma runAssertions_reports_each_failing_assertion_witness :
  let l := [ assertion_of "a1" "resolver_inputs_valid"; assertion_of "a2" "nope";
             assertion_of "a3" "resolver_failures_valid";
             assertion_of "a4" "output_is_object" ] in
  let testSpec := {| test_id := Some "R-005-resolver-metadata"; category := None;
                     assertions := Some l; fixtures := [] |} in
  runAssertions testSpec declaration_example VUndefined
  = Normal (report_of
              [ {| failure_id := "a2"; failure_severity := "fatal";
                   failure_message := "Unknown assertion type: nope" |};
                {| failure_id := "a4"; failure_severity := "fatal";
                   failure_message := "Assertion failed: a4" |} ]).
Proof.
  cbv zeta.
  destruct (proj1 (runAssertions_reports_each_failing_assertion
                     {| test_id := Some "R-005-resolver-metadata"; category := None;
                        assertions :=
                          Some [ assertion_of "a1" "resolver_inputs_valid";
                                 assertion_of "a2" "nope";
                                 assertion_of "a3" "resolver_failures_valid";
                                 assertion_of "a4" "output_is_object" ];
                        fixtures := [] |}
                     declaration_example VUndefined _ eq_refl
                     ltac:(discriminate)))
    as (fs & Hrun & Hfs & _).
  - intros a [<- | [<- | [<- | [<- | []]]]]; eexists; reflexivity.
  - rewrite Hrun, Hfs. reflexivity.
Defined.

(** The registry lookup uses [in], which also finds what the registry
    inherits: an assertion whose type is [toString] is not reported as
    unknown, and it passes whatever the target is. *)
Lemma inherited_type_passes (testSpec : TestSpec) (target status : value)
    (a : Assertion) :
  type a = "toString" ->
  ~ In (type a) registered
  /\ alone testSpec target status a = Normal (report_of []).
Proof.
  intros Ha. split.
  - rewrite Ha. simpl. intuition discriminate.
  - rewrite alone_check_assertion. unfold check_assertion. rewrite Ha. reflexivity.
Qed.

Lemma inherited_type_passes_witness :
  ~ In "toString" registered
  /\ alone (runtime_spec "R-005-resolver-metadata") declaration_example VUndefined
       (assertion_of "t1" "toString")
     = Normal (report_of []).
Proof.
  exact (inherited_type_passes (runtime_spec "R-005-resolver-metadata")
           declaration_example VUndefined
           (assertion_of "t1" "toString") eq_refl).
Defined.

(** ** Static-contract mode *)

Definition metadata_suite : string := "R-005-resolver-metadata".

Definition metadata_spec : TestSpec :=
  {| test_id := Some metadata_suite;
     category := Some "resolver-metadata";
     assertions := Some [ assertion_of "inputs" "resolver_inputs_valid";
                          assertion_of "failures" "resolver_failures_valid" ];
     fixtures := [ {| resolver_contract := Some "resolver.js"; invoke := VUndefined |} ] |}.

(** A package whose metadata suite loads [module] as its contract. *)
Definition world_with_contract (module : value) : World :=
  {| test_json := fun suite =>
       if suite =? metadata_suite then Contents metadata_spec else Missing;
     local_fixture := fun _ => Missing;
     contract_module := fun suite path =>
       if (suite =? metadata_suite) && (path =? "resolver.js")
       then Contents module else Missing |}.

(** C6, as stated, fails: the same declaration passes the static suite when
    the contract module exposes it directly and fails it when the module
    wraps it in a [resolverDeclaration] field, although the wrapper is what
    [resolver.resolverDeclaration || resolver] would unwrap. *)
Lemma static_mode_does_not_unwrap :
  let wrapped := VObject [("resolverDeclaration", declaration_example)] in
  resolver_meta wrapped = Normal declaration_example
  /\ runAllTests (world_with_contract declaration_example) [metadata_suite] echo tt
     = (Normal 0, tt)
  /\ runAllTests (world_with_contract wrapped) [metadata_suite] echo tt
     = (Normal 1, tt).
Proof. repeat split; reflexivity. Qed.

(** The fixture the executor uses for a suite: the local override when there
    is one, the first declared fixture otherwise. *)
Definition selected_fixture (w : World) (suite : string) (testSpec : TestSpec)
    (fx : Fixture) : Prop :=
  local_fixture w suite = Contents fx
  \/ (local_fixture w suite = Missing /\ hd_error (fixtures testSpec) = Some fx).

(** The executor's pre-check lets the suites start when the declared
    [resolverName] is absent, falsy or a string. *)
Lemma executor_unwraps_declaration {State : Type} (w : World)
    (suites : list string) (r : Resolver State) (d rn : value) (s : State) :
  get (resolver_value r) "resolverDeclaration" = Normal d ->
  get (if truthy d then d else resolver_value r) "resolverName" = Normal rn ->
  truthy rn = false \/ (exists n, rn = VString n) ->
  runAllTests w suites r s
  = run_suites w r (if truthy d then d else resolver_value r) suites 0 s.
Proof.
  intros Hd Hrn Hname. unfold runAllTests, resolver_meta. rewrite Hd. cbn [bind].
  unfold or_else at 1. rewrite Hrn. cbn [bind].
  destruct Hname as [Hfalsy | (n & ->)].
  - unfold or_else. rewrite Hfalsy. reflexivity.
  - unfold or_else. destruct (truthy (VString n)); reflexivity.
Qed.

(** The runtime branch of a suite. *)
Lemma runtime_suite {State : Type} (w : World) (r : Resolver State)
    (resolverMeta : value) (suite : string) (testSpec : TestSpec) (fx : Fixture)
    (s : State) :
  test_json w suite = Contents testSpec ->
  selected_fixture w suite testSpec fx ->
  string_truthy (resolver_contract fx) = false ->
  category testSpec = Some "resolver-runtime" ->
  run_suite w r resolverMeta suite s
  = match invokeResolverWithObservation r resolverMeta testSpec (Some fx) s with
    | (Normal ctx, s') =>
        match runAssertions testSpec (context_value ctx)
                (VObject [("resolverMeta", resolverMeta)]) with
        | Normal result => (Normal (verdict result), s')
        | Throw _ => (Normal 1, s')
        | Unmodelled => (Unmodelled, s')
        end
    | (Throw _, s') => (Normal 1, s')
    | (Unmodelled, s') => (Unmodelled, s')
    end.
Proof.
  intros Hspec Hfx Hstatic Hcategory. unfold run_suite. rewrite Hspec.
  destruct Hfx as [Hlocal | (Hlocal & Hfirst)]; rewrite Hlocal;
    try rewrite Hfirst; rewrite Hstatic, Hcategory; reflexivity.
Qed.

(** The declaration a returned context carries is the one the harness was
    given. *)
Lemma returned_context_declaration {State : Type} (r : Resolver State)
    (resolverMeta : value) (testSpec : TestSpec) (fixture : option Fixture)
    (s s' : State) (ctx : InvocationContext) :
  invokeResolverWithObservation r resolverMeta testSpec fixture s = (Normal ctx, s') ->
  ctx_resolverMeta ctx = resolverMeta.
Proof.
  intros Hrun.
  destruct (resolver_input resolverMeta fixture) as [input | e |] eqn:Hinput;
    try (unfold invokeResolverWithObservation in Hrun; rewrite Hinput in Hrun;
         discriminate).
  rewrite (harness_follows_call_sequence r resolverMeta testSpec fixture
             input s Hinput) in Hrun.
  injection Hrun as Hctx _.
  destruct (rejected (fst (call_sequence r input (runs testSpec) s))) as [err |].
  - rewrite on_error_observation in Hctx. apply bind_normal in Hctx.
    destruct Hctx as (code & _ & Hctx).
    destruct (truthy code).
    + apply bind_normal in Hctx. destruct Hctx as (decl & _ & Hctx).
      destruct (truthy decl).
      * apply bind_normal in Hctx. destruct Hctx as (retries & _ & Hctx).
        injection Hctx as <-. reflexivity.
      * injection Hctx as <-. reflexivity.
    + injection Hctx as <-. reflexivity.
  - injection Hctx as <-. reflexivity.
Qed.

(** C6, amended.  In static-contract mode the target of the assertions is the
    contract module exactly as it was loaded: the verdict of the suite is
    that of [runAssertions] on the loaded value, and neither the resolver nor
    its declaration takes part.  A module that wraps the declaration in a
    [resolverDeclaration] field is therefore validated as the wrapper object.
    The two forms are accepted for the resolver argument of the executor:
    its declaration is the [resolverDeclaration] property when that is
    truthy and the resolver itself otherwise, the executor runs every suite
    with that declaration, and a runtime suite hands it to the harness, to
    the handlers (as [resolverMeta] of the context) and to the guidance (as
    [status.resolverMeta]). *)
Theorem static_mode_validates_loaded_module {State : Type} (w : World)
    (resolver : Resolver State) (resolverMeta : value) (suite : string) (s : State)
    (testSpec : TestSpec) (fx : Fixture) (path : string) (target : value) :
  test_json w suite = Contents testSpec ->
  selected_fixture w suite testSpec fx ->
  resolver_contract fx = Some path -> path <> "" ->
  contract_module w suite path = Contents target ->
  run_suite w resolver resolverMeta suite s
  = (result <- runAssertions testSpec target VUndefined ;; Normal (verdict result), s)
  /\ (forall v d, get v "resolverDeclaration" = Normal d ->
        resolver_meta v = Normal (if truthy d then d else v))
  /\ (forall (r : Resolver State) (d rn : value) (suites : list string) (s0 : State),
        get (resolver_value r) "resolverDeclaration" = Normal d ->
        get (if truthy d then d else resolver_value r) "resolverName" = Normal rn ->
        truthy rn = false \/ (exists n, rn = VString n) ->
        runAllTests w suites r s0
        = run_suites w r (if truthy d then d else resolver_value r) suites 0 s0)
  /\ (forall (r : Resolver State) (declaration : value) (suite' : string)
             (testSpec' : TestSpec) (fx' : Fixture) (s0 : State),
        test_json w suite' = Contents testSpec' ->
        selected_fixture w suite' testSpec' fx' ->
        string_truthy (resolver_contract fx') = false ->
        category testSpec' = Some "resolver-runtime" ->
        run_suite w r declaration suite' s0
        = match invokeResolverWithObservation r declaration testSpec' (Some fx') s0 with
          | (Normal ctx, s1) =>
              match runAssertions testSpec' (context_value ctx)
                      (VObject [("resolverMeta", declaration)]) with
              | Normal result => (Normal (verdict result), s1)
              | Throw _ => (Normal 1, s1)
              | Unmodelled => (Unmodelled, s1)
              end
          | (Throw _, s1) => (Normal 1, s1)
          | (Unmodelled, s1) => (Unmodelled, s1)
          end
        /\ (forall ctx s1,
              invokeResolverWithObservation r declaration testSpec' (Some fx') s0
              = (Normal ctx, s1) ->
              ctx_resolverMeta ctx = declaration)).
Proof.
  intros Hspec Hfx Hpath Hne Hmodule. split; [| split; [| split]].
  - unfold run_suite. rewrite Hspec.
    assert (Htruthy : string_truthy (resolver_contract fx) = true).
    { rewrite Hpath. simpl. destruct (String.eqb_spec path ""); [contradiction | reflexivity]. }
    destruct Hfx as [Hlocal | (Hlocal & Hfirst)]; rewrite Hlocal;
      try rewrite Hfirst; rewrite Htruthy, Hpath, Hmodule; reflexivity.
  - intros v d Hd. unfold resolver_meta. rewrite Hd. reflexivity.
  - intros r d rn suites s0. apply executor_unwraps_declaration.
  - intros r declaration suite' testSpec' fx' s0 Hspec' Hfx' Hstatic Hcategory. split.
    + now apply runtime_suite.
    + intros ctx s1. apply returned_context_declaration.
Qed.

(** A runtime suite whose verdict depends on the declaration: the resolver
    rejects with a code, which must be declared. *)
Definition failure_suite : string := "R-007-failure-declared".

Definition failure_spec : TestSpec :=
  {| test_id := Some failure_suite;
     category := Some "resolver-runtime";
     assertions := Some [ assertion_of "declared" "resolver_failure_declared" ];
     fixtures := [ {| resolver_contract := None; invoke := VObject [] |} ] |}.

(** A package with the metadata suite, which loads [module] as its contract,
    and the runtime suite above. *)
Definition world_with_both (module : value) : World :=
  {| test_json := fun suite =>
       if suite =? metadata_suite then Contents metadata_spec
       else if suite =? failure_suite then Contents failure_spec
       else Missing;
     local_fixture := fun _ => Missing;
     contract_module := fun suite path =>
       if (suite =? metadata_suite) && (path =? "resolver.js")
       then Contents module else Missing |}.

(** A resolver function that rejects every call with [NOT_FOUND] and carries
    the properties [props]. *)
Definition rejecting_with (props : list (string * value)) : Resolver unit :=
  {| resolver_value := VFunction props;
     behaviour := fun _ s => (Rejected (VObject [("code", VString "NOT_FOUND")]), s) |}.

(** The wrapped contract module fails the static suite, where it is not
    unwrapped; the resolver that wraps the same declaration passes the
    runtime suite, where it is, and a resolver without declaration does not. *)
Lemma static_mode_validates_loaded_module_witness :
  let wrapped := VObject [("resolverDeclaration", declaration_example)] in
  let w := world_with_both wrapped in
  run_suite w echo declaration_example metadata_suite tt = (Normal 1, tt)
  /\ runAllTests w [failure_suite]
       (rejecting_with [("resolverDeclaration", declaration_example)]) tt
     = (Normal 0, tt)
  /\ runAllTests w [failure_suite] (rejecting_with []) tt = (Normal 1, tt).
Proof.
  cbv zeta.
  destruct (static_mode_validates_loaded_module
              (world_with_both (VObject [("resolverDeclaration", declaration_example)]))
              echo declaration_example metadata_suite tt metadata_spec
              {| resolver_contract := Some "resolver.js"; invoke := VUndefined |}
              "resolver.js"
              (VObject [("resolverDeclaration", declaration_example)])
              eq_refl (or_intror (conj eq_refl eq_refl)) eq_refl
              ltac:(discriminate) eq_refl)
    as (Hstatic & _ & Hexecutor & Hruntime).
  split; [| split].
  - rewrite Hstatic. reflexivity.
  - rewrite (Hexecutor (rejecting_with [("resolverDeclaration", declaration_example)])
               declaration_example (VString "bank-account-lookup")
               [failure_suite] tt eq_refl eq_refl (or_intror (ex_intro _ _ eq_refl))).
    change (if truthy declaration_example then declaration_example
            else resolver_value
                   (rejecting_with [("resolverDeclaration", declaration_example)]))
      with declaration_example.
    cbn [run_suites].
    rewrite (proj1 (Hruntime (rejecting_with [("resolverDeclaration", declaration_example)])
                      declaration_example failure_suite failure_spec
                      {| resolver_contract := None; invoke := VObject [] |} tt
                      eq_refl (or_intror (conj eq_refl eq_refl)) eq_refl eq_refl)).
    reflexivity.
  - rewrite (Hexecutor (rejecting_with []) VUndefined VUndefined
               [failure_suite] tt eq_refl eq_refl (or_introl eq_refl)).
    change (if truthy VUndefined then VUndefined
            else resolver_value (rejecting_with []))
      with (VFunction []).
    cbn [run_suites].
    rewrite (proj1 (Hruntime (rejecting_with []) (VFunction []) failure_suite failure_spec
                      {| resolver_contract := None; invoke := VObject [] |} tt
                      eq_refl (or_intror (conj eq_refl eq_refl)) eq_refl eq_refl)).
    reflexivity.
Defined.

(** ** Further properties of the validators *)

(** An undeclared error code is within every retry limit: when no declared
    failure has the code, [retry_count_within_declared_limit] passes whatever
    the observed retry count is. *)
Theorem retry_count_passes_when_code_undeclared
    (observedRetries resolverMeta errorCode failures : value) :
  get resolverMeta "failures" = Normal failures ->
  truthy failures = false
  \/ (exists l, failures = VArray l
                /\ Forall (fun f => has_code errorCode f = Normal false) l) ->
  checkRetryCountWithinLimit observedRetries resolverMeta errorCode
  = Normal (VBool true).
Proof.
  intros Hfailures Hnone. unfold checkRetryCountWithinLimit.
  rewrite Hfailures. cbn [bind]. unfold or_else.
  destruct Hnone as [-> | (l & -> & Hall)]; cbn [truthy elements_for bind].
  - reflexivity.
  - rewrite (find_none _ _ Hall). reflexivity.
Qed.

Lemma retry_count_passes_when_code_undeclared_witness :
  checkRetryCountWithinLimit (VNumber (Int 99)) declaration_example (VString "TIMEOUT")
  = Normal (VBool true)
  /\ checkRetryCountWithinLimit (VNumber (Int 99)) (VObject []) (VString "TIMEOUT")
     = Normal (VBool true).
Proof.
  split.
  - apply (retry_count_passes_when_code_undeclared (VNumber (Int 99))
             declaration_example (VString "TIMEOUT")
             (VArray [VObject [("code", VString "NOT_FOUND");
                               ("retries", VNumber (Int 2))]])).
    + reflexivity.
    + right. eexists. split; [reflexivity |].
      constructor; [reflexivity | constructor].
  - apply (retry_count_passes_when_code_undeclared (VNumber (Int 99))
             (VObject []) (VString "TIMEOUT") VUndefined).
    + reflexivity.
    + left. reflexivity.
Defined.

(** A declared code is held to its limit. *)
Example retry_count_over_limit_fails :
  checkRetryCountWithinLimit (VNumber (Int 3)) declaration_example (VString "NOT_FOUND")
  = Normal (VBool false).
Proof. reflexivity. Qed.

(** [output_is_object] accepts exactly the plain objects that either have no
    [output] key (direct mode) or hold a plain object under it (kernel
    mode). *)
Theorem output_is_object_iff (output : value) :
  checkOutputIsObject output = Normal (VBool true)
  <-> exists ps,
        output = VObject ps
        /\ (lookup "output" ps = None
            \/ exists nested, lookup "output" ps = Some (VObject nested)).
Proof.
  unfold checkOutputIsObject. split.
  - destruct output as [| | b | n | s | l | ps | ps]; simpl;
      try discriminate;
      try (destruct (negb _); discriminate).
    intros H. exists ps. split; [reflexivity |].
    unfold has_own in H. destruct (lookup "output" ps) as [x |]; [| now left].
    right. simpl in H.
    destruct x; simpl in H; try discriminate. eauto.
  - intros (ps & -> & [Hnone | (nested & Hsome)]); simpl; unfold has_own.
    + rewrite Hnone. reflexivity.
    + rewrite Hsome. reflexivity.
Qed.

(** The shapes the specification lists. *)
Example output_is_object_shapes :
  checkOutputIsObject (VObject [("output", VObject [("a", VNumber (Int 1))])])
  = Normal (VBool true)
  /\ checkOutputIsObject (VObject [("a", VNumber (Int 1))]) = Normal (VBool true)
  /\ checkOutputIsObject VNull = Normal (VBool false)
  /\ checkOutputIsObject (VArray []) = Normal (VBool false)
  /\ checkOutputIsObject (VString "string") = Normal (VBool false)
  /\ checkOutputIsObject (VObject [("output", VNull)]) = Normal (VBool false).
Proof. repeat split; reflexivity. Qed.

(** [rejects_missing_required_input] passes exactly when the call threw or
    returned a plain object that has an [error] key. *)
Theorem rejects_missing_input_iff (ctx : InvocationContext) :
  checkRejectsMissingRequiredInput (context_value ctx) = Normal (VBool true)
  <-> ctx_threw ctx = true
      \/ exists ps, ctx_output ctx = VObject ps /\ has_own "error" ps = true.
Proof.
  unfold checkRejectsMissingRequiredInput, context_value. cbn [get lookup String.eqb
    Ascii.eqb Bool.eqb bind truthy].
  destruct (ctx_threw ctx); [split; auto |].
  split.
  - intros H. right.
    destruct (ctx_output ctx) as [| | b | n | s | l | ps | ps]; simpl in H;
      try discriminate.
    exists ps. split; [reflexivity |].
    rewrite orb_false_r in H. unfold ret_bool in H. congruence.
  - intros [H | (ps & -> & H)]; [discriminate |]. simpl. rewrite H. reflexivity.
Qed.

(** On a field that holds a sequence of entries with string names (whatever
    else the entries carry), [field_names_normalized] passes exactly when
    every name matches the identifier pattern. *)
Theorem field_names_normalized_iff (resolverMeta : value) (assertion : Assertion)
    (items : list value) (names : list string) :
  get resolverMeta (field_key assertion) = Normal (VArray items) ->
  Forall2 (fun item n => get item "name" = Normal (VString n)) items names ->
  (checkFieldNamesNormalized resolverMeta assertion = Normal (VBool true)
   <-> Forall (fun n => identifier_pattern n = true) names).
Proof.
  intros Hget Hnames. unfold checkFieldNamesNormalized. rewrite Hget.
  cbn [bind or_else truthy].
  assert (Hevery : every (fun item => n <- get item "name" ;; pattern_test n) items
                   = Normal (forallb identifier_pattern names)).
  { clear Hget. induction Hnames as [| item n items names Hitem _ IH]; [reflexivity |].
    cbn [every forallb]. rewrite Hitem. cbn [bind pattern_test to_string].
    destruct (identifier_pattern n); [exact IH | reflexivity]. }
  rewrite Hevery. cbn [bind]. unfold ret_bool. rewrite Forall_forall. split.
  - intros H. injection H as H. now apply forallb_forall.
  - intros H. do 2 f_equal. now apply forallb_forall.
Qed.

Lemma field_names_normalized_iff_witness :
  let on := fun f => {| id := "n1"; type := "field_names_normalized"; severity := None;
                        description := None; field := Some f; expected := VUndefined |} in
  let bad := VObject [("outputs", VArray [VObject [("name", VString "1bad");
                                                   ("type", VString "number")]])] in
  checkFieldNamesNormalized declaration_example (on "inputs") = Normal (VBool true)
  /\ (checkFieldNamesNormalized bad (on "outputs") = Normal (VBool true) -> False)
  /\ identifier_pattern "customer_id" = true
  /\ identifier_pattern "1bad" = false.
Proof.
  cbv zeta. split; [| split; [| split; reflexivity]].
  - apply (field_names_normalized_iff declaration_example
             {| id := "n1"; type := "field_names_normalized"; severity := None;
                description := None; field := Some "inputs"; expected := VUndefined |}
             [VObject [("name", VString "customer_id"); ("type", VString "string");
                       ("required", VBool true)]]
             ["customer_id"] eq_refl).
    + repeat constructor.
    + repeat constructor.
  - intros H.
    apply (field_names_normalized_iff
             (VObject [("outputs", VArray [VObject [("name", VString "1bad");
                                                    ("type", VString "number")]])])
             {| id := "n1"; type := "field_names_normalized"; severity := None;
                description := None; field := Some "outputs"; expected := VUndefined |}
             [VObject [("name", VString "1bad"); ("type", VString "number")]]
             ["1bad"] eq_refl) in H.
    + inversion H as [| ? ? Hbad _]. discriminate Hbad.
    + repeat constructor.
Defined.

(** The scenario of the specification: against a declaration with one
    required input and the output [balance], a call with the empty object
    that returns [{error: "INVALID_INPUT"}] passes the missing-input check and
    fails the output-fields check. *)
Example invalid_input_scenario :
  let ctx := observation echo declaration_example
               [VObject [("error", VString "INVALID_INPUT")]] None in
  checkRejectsMissingRequiredInput (context_value ctx) = Normal (VBool true)
  /\ checkOutputFieldsMatchContract (ctx_output ctx) declaration_example
     = Normal (not_passed [("reason", VString "missing_fields");
                           ("missingFields", VArray [VString "balance"]);
                           ("actualOutput", VObject [("error", VString "INVALID_INPUT")]);
                           ("expectedFields", VArray [VString "balance"])]).
Proof. split; reflexivity. Qed.


(* ===================================================================== *)
(** * Further properties of the metadata validators *)
(* ===================================================================== *)

Lemma typeof_boolean (v : value) :
  (typeof v =? "boolean") = true <-> exists b, v = VBool b.
Proof.
  destruct v; simpl; split; intros H; try discriminate;
    try (destruct H as (s' & H); discriminate); eauto.
Qed.

Lemma inherited_not_string (chain : list string) (k c : string) :
  inherited chain k <> Normal (VString c).
Proof.
  unfold inherited.
  destruct (mem k ["__proto__"; "arguments"; "caller"]); destruct (mem k chain);
    discriminate.
Qed.

(** Whatever answers a read with a string is truthy: a primitive other than a
    non-empty string reads built-in members only. *)
Lemma string_read_truthy (f : value) (k c : string) :
  get f k = Normal (VString c) -> truthy f = true.
Proof.
  destruct f as [| | b | n | s | l | ps | ps]; cbn [get truthy];
    try discriminate; auto.
  - intros H. now apply inherited_not_string in H.
  - intros H. now apply inherited_not_string in H.
  - destruct s as [| a s']; [| reflexivity].
    destruct (k =? "length"); [discriminate |].
    unfold index_of_key. simpl.
    intros H. now apply inherited_not_string in H.
Qed.

Lemma truthy_not_nullish (v : value) : truthy v = true -> nullish v = false.
Proof. destruct v; simpl; try discriminate; reflexivity. Qed.

(** An entry of [outputs] with a string [name] and a string [type]; an entry
    of [inputs] has a boolean [required] as well. *)
Definition well_formed_output (o : value) : Prop :=
  (exists n, get o "name" = Normal (VString n))
  /\ (exists t, get o "type" = Normal (VString t)).

Definition well_formed_input (i : value) : Prop :=
  (exists n, get i "name" = Normal (VString n))
  /\ (exists t, get i "type" = Normal (VString t))
  /\ (exists b, get i "required" = Normal (VBool b)).

Lemma valid_output_true (o : value) :
  valid_output o = Normal true <-> well_formed_output o.
Proof.
  unfold valid_output, well_formed_output.
  rewrite !and_then_true, !bind_normal. split.
  - intros ((_ & (n & Hn & Hs)) & (t & Ht & Hs')).
    injection Hs as Hs. injection Hs' as Hs'.
    apply typeof_string in Hs. apply typeof_string in Hs'.
    destruct Hs as (n' & ->). destruct Hs' as (t' & ->). eauto.
  - intros ((n & Hn) & (t & Ht)). repeat split.
    + f_equal. eapply string_read_truthy; eassumption.
    + exists (VString n). auto.
    + exists (VString t). auto.
Qed.

Lemma valid_input_true (i : value) :
  valid_input i = Normal true <-> well_formed_input i.
Proof.
  unfold valid_input, well_formed_input.
  rewrite !and_then_true, !bind_normal. split.
  - intros (((_ & (n & Hn & Hs)) & (t & Ht & Hs')) & (r & Hr & Hb)).
    injection Hs as Hs. injection Hs' as Hs'. injection Hb as Hb.
    apply typeof_string in Hs. apply typeof_string in Hs'.
    apply typeof_boolean in Hb.
    destruct Hs as (n' & ->). destruct Hs' as (t' & ->). destruct Hb as (b & ->).
    eauto 10.
  - intros ((n & Hn) & (t & Ht) & (b & Hb)). repeat split.
    + f_equal. eapply string_read_truthy; eassumption.
    + exists (VString n). auto.
    + exists (VString t). auto.
    + exists (VBool b). auto.
Qed.

(** A list validator passes exactly on sequences of accepted entries. *)
Lemma list_validator_true (p : value -> completion bool) (v : value) :
  match v with
  | VArray l => b <- every p l ;; ret_bool b
  | _ => ret_bool false
  end = Normal (VBool true)
  <-> exists l, v = VArray l /\ Forall (fun x => p x = Normal true) l.
Proof.
  split.
  - destruct v as [| | b | n | s | l | ps | ps]; try discriminate.
    unfold ret_bool. rewrite bind_normal. intros (b & Hevery & Hb).
    injection Hb as ->. exists l. split; [reflexivity |].
    now apply every_true.
  - intros (l & -> & Hall). apply every_true in Hall. rewrite Hall. reflexivity.
Qed.

(** [resolver_inputs_valid] passes exactly when reading [inputs] from the
    declaration yields a sequence, possibly empty, in which every entry has a
    string [name], a string [type] and a boolean [required]. *)
Theorem inputs_valid_iff_every_entry_well_formed (resolverMeta : value) :
  checkResolverInputsValid resolverMeta = Normal (VBool true)
  <-> exists l, get resolverMeta "inputs" = Normal (VArray l)
                /\ Forall well_formed_input l.
Proof.
  unfold checkResolverInputsValid. rewrite bind_normal. split.
  - intros (inputs & Hget & Hrun). apply list_validator_true in Hrun.
    destruct Hrun as (l & -> & Hall). exists l. split; [assumption |].
    eapply Forall_impl; [| exact Hall]. intros i. apply valid_input_true.
  - intros (l & Hget & Hall). exists (VArray l). split; [assumption |].
    apply (proj2 (list_validator_true valid_input (VArray l))).
    exists l. split; [reflexivity |].
    eapply Forall_impl; [| exact Hall]. intros i. apply valid_input_true.
Qed.

(** [resolver_outputs_valid] passes exactly when reading [outputs] from the
    declaration yields a sequence, possibly empty, in which every entry has a
    string [name] and a string [type]. *)
Theorem outputs_valid_iff_every_entry_well_formed (resolverMeta : value) :
  checkResolverOutputsValid resolverMeta = Normal (VBool true)
  <-> exists l, get resolverMeta "outputs" = Normal (VArray l)
                /\ Forall well_formed_output l.
Proof.
  unfold checkResolverOutputsValid. rewrite bind_normal. split.
  - intros (outputs & Hget & Hrun). apply list_validator_true in Hrun.
    destruct Hrun as (l & -> & Hall). exists l. split; [assumption |].
    eapply Forall_impl; [| exact Hall]. intros o. apply valid_output_true.
  - intros (l & Hget & Hall). exists (VArray l). split; [assumption |].
    apply (proj2 (list_validator_true valid_output (VArray l))).
    exists l. split; [reflexivity |].
    eapply Forall_impl; [| exact Hall]. intros o. apply valid_output_true.
Qed.

(** [resolver_has_field] passes exactly when the field reads as the expected
    value and that value is one [===] can identify.  An assertion without
    [expected] passes when the field is absent; an [expected] array or object
    never passes. *)
Theorem has_field_iff_reads_expected (resolverMeta : value) (a : Assertion) :
  checkResolverHasField resolverMeta a = Normal (VBool true)
  <-> get resolverMeta (field_key a) = Normal (expected a) /\ comparable (expected a).
Proof.
  unfold checkResolverHasField, ret_bool. rewrite bind_normal. split.
  - intros (v & Hget & Heq). injection Heq as Heq.
    apply strict_equal_true in Heq. destruct Heq as (-> & Hc). auto.
  - intros (Hget & Hc). exists (expected a). split; [assumption |].
    do 2 f_equal. apply strict_equal_true. auto.
Qed.

Lemma every_completes (p : value -> completion bool) (l : list value) :
  (forall x, exists b, p x = Normal b) -> exists b, every p l = Normal b.
Proof.
  intros Hp. induction l as [| x rest IH]; simpl; [eauto |].
  destruct (Hp x) as ([|] & ->); cbn [bind]; eauto.
Qed.

Lemma valid_input_completes (i : value) : exists b, valid_input i = Normal b.
Proof.
  unfold valid_input, and_then. cbn [bind].
  destruct (truthy i) eqn:Ht; [| cbn [bind]; eauto].
  apply truthy_not_nullish in Ht.
  destruct (get_plain_key i "name" Ht eq_refl) as (n & ->). cbn [bind].
  destruct (typeof n =? "string"); [| cbn [bind]; eauto].
  destruct (get_plain_key i "type" Ht eq_refl) as (t & ->). cbn [bind].
  destruct (typeof t =? "string"); [| cbn [bind]; eauto].
  destruct (get_plain_key i "required" Ht eq_refl) as (r & ->). cbn [bind]. eauto.
Qed.

Lemma valid_output_completes (o : value) : exists b, valid_output o = Normal b.
Proof.
  unfold valid_output, and_then. cbn [bind].
  destruct (truthy o) eqn:Ht; [| cbn [bind]; eauto].
  apply truthy_not_nullish in Ht.
  destruct (get_plain_key o "name" Ht eq_refl) as (n & ->). cbn [bind].
  destruct (typeof n =? "string"); [| cbn [bind]; eauto].
  destruct (get_plain_key o "type" Ht eq_refl) as (t & ->). cbn [bind]. eauto.
Qed.

Lemma valid_failure_completes (f : value) : exists b, valid_failure f = Normal b.
Proof.
  unfold valid_failure, and_then. cbn [bind].
  destruct (truthy f) eqn:Ht; [| cbn [bind]; eauto].
  apply truthy_not_nullish in Ht.
  destruct (get_plain_key f "code" Ht eq_refl) as (c & ->). cbn [bind].
  destruct (typeof c =? "string"); [| cbn [bind]; eauto].
  destruct (get_plain_key f "retries" Ht eq_refl) as (r & ->). cbn [bind]. eauto.
Qed.

Lemma list_validator_completes (p : value -> completion bool) (v : value) :
  (forall x, exists b, p x = Normal b) ->
  exists b, match v with
            | VArray l => b <- every p l ;; ret_bool b
            | _ => ret_bool false
            end = Normal (VBool b).
Proof.
  intros Hp. destruct v as [| | b | n | s | l | ps | ps]; unfold ret_bool; eauto.
  destruct (every_completes p l Hp) as (b & ->). cbn [bind]. eauto.
Qed.

(** The three list validators never throw on a declaration that is an
    object (or any value but [null] and [undefined]): each returns a boolean,
    whatever the declared lists hold.  On [null] and [undefined] each throws
    the [TypeError] of the property read. *)
Theorem list_validators_return_a_boolean (resolverMeta : value) :
  (nullish resolverMeta = false ->
   (exists b, checkResolverInputsValid resolverMeta = Normal (VBool b))
   /\ (exists b, checkResolverOutputsValid resolverMeta = Normal (VBool b))
   /\ (exists b, checkResolverFailuresValid resolverMeta = Normal (VBool b)))
  /\ (nullish resolverMeta = true ->
      (exists e, checkResolverInputsValid resolverMeta = Throw e)
      /\ (exists e, checkResolverOutputsValid resolverMeta = Throw e)
      /\ (exists e, checkResolverFailuresValid resolverMeta = Throw e)).
Proof.
  split.
  - intros Hm. split; [| split].
    + unfold checkResolverInputsValid.
      destruct (get_plain_key resolverMeta "inputs" Hm eq_refl) as (v & ->).
      cbn [bind]. apply list_validator_completes, valid_input_completes.
    + unfold checkResolverOutputsValid.
      destruct (get_plain_key resolverMeta "outputs" Hm eq_refl) as (v & ->).
      cbn [bind]. apply list_validator_completes, valid_output_completes.
    + unfold checkResolverFailuresValid.
      destruct (get_plain_key resolverMeta "failures" Hm eq_refl) as (v & ->).
      cbn [bind]. destruct (negb (truthy v)); [unfold ret_bool; eauto |].
      apply list_validator_completes, valid_failure_completes.
  - destruct resolverMeta; simpl; try discriminate; intros _;
      repeat split; eexists; reflexivity.
Qed.

Lemma list_validators_return_a_boolean_witness :
  checkResolverInputsValid (VObject [("inputs", VString "none")]) = Normal (VBool false)
  /\ checkResolverFailuresValid (VArray [VNull]) = Normal (VBool false)
  /\ exists e, checkResolverOutputsValid VNull = Throw e.
Proof.
  destruct (list_validators_return_a_boolean VNull) as (_ & H).
  destruct (H eq_refl) as (_ & Ho & _).
  split; [reflexivity | split; [reflexivity | exact Ho]].
Defined.

(* ===================================================================== *)
(** * The harness and the runtime validators together *)
(* ===================================================================== *)

(** The contexts the harness can return, by the calls it made. *)
Lemma returned_context_cases {State : Type} (resolver : Resolver State)
    (resolverMeta : value) (testSpec : TestSpec) (fixture : option Fixture)
    (s s' : State) (ctx : InvocationContext) :
  invokeResolverWithObservation resolver resolverMeta testSpec fixture s
  = (Normal ctx, s') ->
  exists input,
    resolver_input resolverMeta fixture = Normal input
    /\ s' = snd (call_sequence resolver input (runs testSpec) s)
    /\ let trace := fst (call_sequence resolver input (runs testSpec) s) in
       let recorded := observation resolver resolverMeta (fulfilled trace) in
       (rejected trace = None /\ ctx = recorded None)
       \/ (exists err code,
             rejected trace = Some err
             /\ get err "code" = Normal code
             /\ ((truthy code = false
                  /\ ctx = recorded (Some (err, VNumber (Int 0))))
                 \/ (truthy code = true
                     /\ exists decl,
                          declared_failure resolverMeta code = Normal decl
                          /\ ((truthy decl = false
                               /\ ctx = recorded (Some (err, VNumber (Int 0))))
                              \/ (truthy decl = true
                                  /\ exists retries,
                                       get decl "retries" = Normal retries
                                       /\ ctx = recorded (Some (err, retries))))))).
Proof.
  intros Hrun.
  destruct (resolver_input resolverMeta fixture) as [input | e |] eqn:Hinput;
    try (unfold invokeResolverWithObservation in Hrun; rewrite Hinput in Hrun;
         discriminate).
  exists input. split; [reflexivity |].
  rewrite (harness_follows_call_sequence resolver resolverMeta testSpec fixture
             input s Hinput) in Hrun.
  injection Hrun as Hctx Hs. split; [congruence |]. cbv zeta.
  destruct (rejected (fst (call_sequence resolver input (runs testSpec) s)))
    as [err |] eqn:Hrej.
  - right. rewrite on_error_observation in Hctx. apply bind_normal in Hctx.
    destruct Hctx as (code & Hcode & Hctx). exists err, code.
    split; [reflexivity | split; [assumption |]].
    destruct (truthy code) eqn:Htruthy.
    + right. split; [reflexivity |].
      apply bind_normal in Hctx. destruct Hctx as (decl & Hdecl & Hctx).
      exists decl. split; [assumption |].
      destruct (truthy decl) eqn:Hfound.
      * right. split; [reflexivity |].
        apply bind_normal in Hctx. destruct Hctx as (retries & Hretries & Hctx).
        injection Hctx as <-. eauto.
      * left. injection Hctx as <-. auto.
    + left. injection Hctx as <-. auto.
  - left. injection Hctx as <-. auto.
Qed.

(** The properties of a context, as the handlers read them. *)
Lemma context_reads (ctx : InvocationContext) :
  get (context_value ctx) "resolver" = Normal (ctx_resolver ctx)
  /\ get (context_value ctx) "resolverMeta" = Normal (ctx_resolverMeta ctx)
  /\ get (context_value ctx) "output" = Normal (ctx_output ctx)
  /\ get (context_value ctx) "outputs" = Normal (VArray (ctx_outputs ctx))
  /\ get (context_value ctx) "error" = Normal (ctx_error ctx)
  /\ get (context_value ctx) "threw" = Normal (VBool (ctx_threw ctx))
  /\ get (context_value ctx) "retryCount" = Normal (ctx_retryCount ctx).
Proof. repeat split; reflexivity. Qed.

(** An assertion of a registered type whose handler answers [true] pushes no
    failure. *)
Lemma check_assertion_passes (target status : value) (a : Assertion) (h : handler) :
  lookup_handler (type a) = Some h ->
  h target a status = Normal (VBool true) ->
  check_assertion target status a = Normal None.
Proof.
  intros Hh Hr. unfold check_assertion. rewrite Hh, Hr. reflexivity.
Qed.

(** ** A resolver that is not a function *)

(** When the resolver is not a function, the call itself throws inside the
    [try] block: the harness makes one attempt, records the [TypeError] as a
    thrown error without a code, and returns.  On that context
    [resolver_is_callable] fails, while [rejects_missing_required_input] and
    [resolver_failure_declared] pass, whatever the declaration says. *)
Theorem non_callable_resolver_counts_as_rejecting {State : Type}
    (resolver : Resolver State) (resolverMeta : value) (testSpec : TestSpec)
    (fixture : option Fixture) (input : value) (s : State) :
  (typeof (resolver_value resolver) =? "function") = false ->
  resolver_input resolverMeta fixture = Normal input ->
  let ctx := observation resolver resolverMeta []
               (Some (TypeError "resolver is not a function", VNumber (Int 0))) in
  invokeResolverWithObservation resolver resolverMeta testSpec fixture s
  = (Normal ctx, s)
  /\ checkResolverIsCallable (ctx_resolver ctx) = Normal (VBool false)
  /\ checkRejectsMissingRequiredInput (context_value ctx) = Normal (VBool true)
  /\ checkFailureCodeDeclared (ctx_error ctx) (ctx_resolverMeta ctx) = Normal (VBool true).
Proof.
  intros Hfun Hinput ctx.
  assert (Hcall : forall i s0,
             call resolver i s0 = (Rejected (TypeError "resolver is not a function"), s0)).
  { intros i s0. unfold call.
    destruct (resolver_value resolver); try reflexivity. discriminate Hfun. }
  split; [| split; [| split]].
  - rewrite (harness_follows_call_sequence resolver resolverMeta testSpec fixture
               input s Hinput).
    assert (Hruns : exists n, runs testSpec = S n).
    { unfold runs. destruct (test_id testSpec) as [t |]; [| eauto].
      destruct (t =? determinism_test_id); eauto. }
    destruct Hruns as (n & ->). cbn [call_sequence]. rewrite Hcall. reflexivity.
  - unfold checkResolverIsCallable. cbn [ctx ctx_resolver observation].
    rewrite Hfun. reflexivity.
  - reflexivity.
  - reflexivity.
Qed.

Lemma non_callable_resolver_counts_as_rejecting_witness :
  let resolver := {| resolver_value := VObject [("resolverName", VString "bank")];
                     behaviour := fun input (s : unit) => (Fulfilled input, s) |} in
  let ctx := observation resolver declaration_example []
               (Some (TypeError "resolver is not a function", VNumber (Int 0))) in
  invokeResolverWithObservation resolver declaration_example
    (runtime_spec "R-008-missing-input") None tt
  = (Normal ctx, tt)
  /\ checkResolverIsCallable (ctx_resolver ctx) = Normal (VBool false)
  /\ checkRejectsMissingRequiredInput (context_value ctx) = Normal (VBool true)
  /\ checkFailureCodeDeclared (ctx_error ctx) (ctx_resolverMeta ctx) = Normal (VBool true).
Proof.
  cbv zeta.
  exact (non_callable_resolver_counts_as_rejecting
           {| resolver_value := VObject [("resolverName", VString "bank")];
              behaviour := fun input (s : unit) => (Fulfilled input, s) |}
           declaration_example (runtime_spec "R-008-missing-input") None
           (VObject []) tt eq_refl eq_refl).
Defined.

(** ** The retry limit on the harness's own observations *)

(** A declared failure with a string code and a retry limit that is a
    non-negative number. *)
Definition limited_failure (f : value) : Prop :=
  exists c n, get f "code" = Normal (VString c)
              /\ get f "retries" = Normal (VNumber n)
              /\ number_leb (Int 0) n = true.

(** A declaration whose failures, if it declares any, all are of that kind. *)
Definition declares_retry_limits (resolverMeta : value) : Prop :=
  exists failures,
    get resolverMeta "failures" = Normal failures
    /\ (nullish failures = true
        \/ exists l, failures = VArray l /\ Forall limited_failure l).

Lemma find_in_or_undefined (p : value -> completion bool) (l : list value) :
  Forall (fun x => exists b, p x = Normal b) l ->
  exists x, JS.find p l = Normal x
            /\ (x = VUndefined \/ (In x l /\ p x = Normal true)).
Proof.
  intros H. induction H as [| y l (b & Hy) _ IH]; simpl; [eauto |].
  rewrite Hy. cbn [bind]. destruct b.
  - exists y. split; [reflexivity |]. right. split; [now left | assumption].
  - destruct IH as (x & Hx & [-> | (Hin & Hp)]).
    + exists VUndefined. auto.
    + exists x. split; [assumption |]. right. split; [now right | assumption].
Qed.

Lemma number_leb_refl (n : number) :
  number_leb (Int 0) n = true -> number_leb n n = true.
Proof.
  destruct n as [z | | [|]]; simpl; try discriminate; auto.
  intros _. apply Z.leb_refl.
Qed.

(** The retry check passes when the observed count is [0] or is the limit of
    the failure the harness looked up for the same code. *)
Lemma retry_limit_passes (resolverMeta observed code : value) :
  declares_retry_limits resolverMeta ->
  (observed = VNumber (Int 0)
   \/ exists decl, declared_failure resolverMeta code = Normal decl
                   /\ truthy decl = true
                   /\ get decl "retries" = Normal observed) ->
  checkRetryCountWithinLimit observed resolverMeta code = Normal (VBool true).
Proof.
  intros (failures & Hget & Hshape) Hobserved.
  unfold checkRetryCountWithinLimit. rewrite Hget. cbn [bind].
  destruct Hshape as [Hnull | (l & -> & Hall)].
  - destruct failures; try discriminate Hnull; reflexivity.
  - cbn [or_else truthy elements_for bind].
    assert (Hp : Forall (fun x => exists b, has_code code x = Normal b) l).
    { eapply Forall_impl; [| exact Hall].
      intros f (c & n & Hc & _). unfold has_code. rewrite Hc. cbn [bind]. eauto. }
    destruct (find_in_or_undefined _ _ Hp) as (x & Hx & Hcases).
    rewrite Hx. cbn [bind].
    destruct Hcases as [-> | (Hin & _)]; [reflexivity |].
    rewrite Forall_forall in Hall.
    destruct (Hall x Hin) as (c & n & Hc & Hn & Hle).
    rewrite (string_read_truthy x "code" c Hc). cbn [negb].
    rewrite Hn. cbn [bind].
    destruct Hobserved as [-> | (decl & Hdecl & _ & Hretries)].
    + unfold less_equal. cbn [to_number bind]. rewrite Hle. reflexivity.
    + unfold declared_failure in Hdecl. rewrite Hget in Hdecl.
      cbn [bind nullish elements_for] in Hdecl.
      assert (decl = x) by congruence. subst decl.
      assert (observed = VNumber n) by congruence. subst observed.
      unfold less_equal. cbn [to_number bind].
      rewrite (number_leb_refl n Hle). reflexivity.
Qed.

(** The harness never counts retries: [retryCount] is [0] or the declared
    limit itself.  So on every context the harness returns, for a declaration
    whose failures have string codes and non-negative numeric limits (or that
    declares none), an assertion of type [retry_count_within_declared_limit]
    pushes no failure, whatever the resolver did. *)
Theorem retry_limit_holds_on_every_observation {State : Type}
    (resolver : Resolver State) (resolverMeta : value) (testSpec : TestSpec)
    (fixture : option Fixture) (s s' : State) (ctx : InvocationContext)
    (status : value) (a : Assertion) :
  declares_retry_limits resolverMeta ->
  type a = "retry_count_within_declared_limit" ->
  invokeResolverWithObservation resolver resolverMeta testSpec fixture s
  = (Normal ctx, s') ->
  check_assertion (context_value ctx) status a = Normal None.
Proof.
  intros Hdecl Htype Hrun.
  assert (Hcheck : forall rs failure,
            ctx = observation resolver resolverMeta rs failure ->
            (c <- get_optional (ctx_error ctx) "code" ;;
             checkRetryCountWithinLimit (ctx_retryCount ctx) resolverMeta c)
            = Normal (VBool true) ->
            check_assertion (context_value ctx) status a = Normal None).
  { intros rs failure -> H.
    eapply check_assertion_passes; [rewrite Htype; reflexivity |].
    cbv beta. exact H. }
  destruct (returned_context_cases _ _ _ _ _ _ _ Hrun)
    as (input & _ & _ & Hcases). cbv zeta in Hcases.
  destruct Hcases as [(_ & Hctx) | (err & code & _ & Hcode & Hcases)].
  - apply (Hcheck _ _ Hctx). rewrite Hctx. cbn [observation ctx_error ctx_retryCount].
    cbn [get_optional nullish bind]. apply retry_limit_passes; auto.
  - assert (Hread : get_optional err "code" = Normal code).
    { unfold get_optional. rewrite (get_normal_not_nullish _ _ _ Hcode). exact Hcode. }
    destruct Hcases as [(_ & Hctx) | (_ & decl & Hfound & Hcases)].
    + apply (Hcheck _ _ Hctx). rewrite Hctx.
      cbn [observation ctx_error ctx_retryCount]. rewrite Hread. cbn [bind].
      apply retry_limit_passes; auto.
    + destruct Hcases as [(_ & Hctx) | (Htruthy & retries & Hretries & Hctx)].
      * apply (Hcheck _ _ Hctx). rewrite Hctx.
        cbn [observation ctx_error ctx_retryCount]. rewrite Hread. cbn [bind].
        apply retry_limit_passes; auto.
      * apply (Hcheck _ _ Hctx). rewrite Hctx.
        cbn [observation ctx_error ctx_retryCount]. rewrite Hread. cbn [bind].
        apply retry_limit_passes; [assumption |]. right. eauto.
Qed.

Lemma retry_limit_holds_on_every_observation_witness :
  let err := VObject [("code", VString "NOT_FOUND")] in
  check_assertion
    (context_value (observation (always_rejecting err) declaration_example []
                      (Some (err, VNumber (Int 2)))))
    (VObject [("resolverMeta", declaration_example)])
    (assertion_of "r1" "retry_count_within_declared_limit")
  = Normal None.
Proof.
  cbv zeta.
  refine (retry_limit_holds_on_every_observation
            (always_rejecting (VObject [("code", VString "NOT_FOUND")]))
            declaration_example (runtime_spec "R-009-retries") None tt tt _
            (VObject [("resolverMeta", declaration_example)])
            (assertion_of "r1" "retry_count_within_declared_limit")
            _ eq_refl eq_refl).
  eexists. split; [reflexivity |]. right. eexists. split; [reflexivity |].
  repeat constructor.
  exists "NOT_FOUND", (Int 2). repeat split.
Defined.

(** ** Determinism outside the determinism suite *)

(** Unless the spec's [test_id] is the determinism identifier the harness
    makes a single trial, so at most one output is recorded and an assertion
    of type [deterministic_output] pushes no failure, whatever the resolver
    returns. *)
Theorem single_trial_is_deterministic {State : Type}
    (resolver : Resolver State) (resolverMeta : value) (testSpec : TestSpec)
    (fixture : option Fixture) (s s' : State) (ctx : InvocationContext)
    (status : value) (a : Assertion) :
  test_id testSpec <> Some determinism_test_id ->
  type a = "deterministic_output" ->
  invokeResolverWithObservation resolver resolverMeta testSpec fixture s
  = (Normal ctx, s') ->
  check_assertion (context_value ctx) status a = Normal None.
Proof.
  intros Hid Htype Hrun.
  assert (Hruns : runs testSpec = 1).
  { unfold runs. destruct (test_id testSpec) as [t |]; [| reflexivity].
    destruct (t =? determinism_test_id) eqn:Ht; [| reflexivity].
    apply String.eqb_eq in Ht. subst t. now contradiction Hid. }
  destruct (returned_context_cases _ _ _ _ _ _ _ Hrun)
    as (input & _ & _ & Hcases). cbv zeta in Hcases.
  rewrite Hruns in Hcases.
  assert (Houtputs : exists rs, ctx_outputs ctx = rs /\ List.length rs <= 1).
  { exists (fulfilled (fst (call_sequence resolver input 1 s))). split.
    - destruct Hcases as [(_ & ->) | (err & code & _ & _ & Hcases)];
        [reflexivity |].
      destruct Hcases as [(_ & ->) | (_ & decl & _ & Hcases)]; [reflexivity |].
      destruct Hcases as [(_ & ->) | (_ & retries & _ & ->)]; reflexivity.
    - pose proof (call_sequence_shape State resolver input 1 s) as Hshape.
      cbv zeta in Hshape.
      destruct Hshape as [(_ & _ & Hl) | (err & _ & _ & Hl)]; lia. }
  destruct Houtputs as (rs & Hrs & Hlen).
  eapply check_assertion_passes; [rewrite Htype; reflexivity |].
  cbv beta. destruct (context_reads ctx) as (_ & _ & _ & -> & _).
  rewrite Hrs. cbn [bind].
  destruct rs as [| r [| r' rest]]; [reflexivity | reflexivity |].
  simpl in Hlen. lia.
Qed.

Lemma single_trial_is_deterministic_witness :
  check_assertion
    (context_value (observation drifting (VObject [])
                      [VObject [("a", VNumber (Int 1))]] None))
    VUndefined (assertion_of "d1" "deterministic_output")
  = Normal None.
Proof.
  refine (single_trial_is_deterministic drifting (VObject [])
            (runtime_spec "R-010-output-shape") None 0 1 _ VUndefined
            (assertion_of "d1" "deterministic_output") _ eq_refl eq_refl).
  discriminate.
Defined.

(* ===================================================================== *)
(** * Failure messages *)
(* ===================================================================== *)

(** A computation that, when it returns, returns a boolean. *)
Definition boolean_result (c : completion value) : Prop :=
  forall v, c = Normal v -> exists b, v = VBool b.

Lemma boolean_ret (b : bool) : boolean_result (ret_bool b).
Proof. intros v H. injection H as <-. eauto. Qed.

Lemma boolean_bind {A : Type} (c : completion A) (k : A -> completion value) :
  (forall x, boolean_result (k x)) -> boolean_result (bind c k).
Proof.
  intros Hk v H. apply bind_normal in H. destruct H as (x & _ & H).
  exact (Hk x v H).
Qed.

Ltac boolean :=
  repeat first
    [ apply boolean_ret
    | apply boolean_bind; intros ?
    | match goal with
      | |- boolean_result (if ?b then _ else _) => destruct b
      | |- boolean_result (match ?v with _ => _ end) => destruct v
      end ].

(** Every registered handler but [output_fields_match_contract] answers with
    a boolean. *)
Lemma boolean_handlers (t : string) :
  In t registered -> t <> "output_fields_match_contract" ->
  exists h, lookup_handler t = Some h
            /\ forall target a status, boolean_result (h target a status).
Proof.
  intros Hin Hne. simpl in Hin.
  repeat (destruct Hin as [Hin | Hin]; [subst t |]);
    try contradiction;
    try (now contradiction Hne);
    (eexists; split; [reflexivity |]; intros target a status; cbv beta;
     unfold checkResolverHasField, checkResolverInputsValid,
       checkResolverOutputsValid, checkFieldNamesNormalized,
       checkResolverFailuresValid, checkResolverIsCallable,
       checkFailureCodeDeclared, checkRejectsMissingRequiredInput,
       checkRetryCountWithinLimit, checkOutputIsObject,
       checkDeterministicOutput, checkNoGlobalMutation;
     cbv zeta; boolean).
Qed.

(** The message of a failure that carries no details. *)
Definition plain_message (a : Assertion) : string :=
  match description a with
  | Some d => if d =? "" then "Assertion failed: " ++ id a else d
  | None => "Assertion failed: " ++ id a
  end.

(** Guidance is consulted only for rich results, and only
    [output_fields_match_contract] produces one: a failing assertion of any
    other registered type is reported with its description, or with
    "Assertion failed: <id>" when it has none (or an empty one).  The guidance
    texts for [rejects_missing_required_input] and [output_is_object] are
    therefore never part of a report. *)
Theorem boolean_handlers_report_the_description (target status : value)
    (a : Assertion) (f : Failure) :
  In (type a) registered ->
  type a <> "output_fields_match_contract" ->
  check_assertion target status a = Normal (Some f) ->
  failure_message f = plain_message a.
Proof.
  intros Hin Hne Hcheck.
  destruct (boolean_handlers (type a) Hin Hne) as (h & Hh & Hbool).
  unfold check_assertion in Hcheck. rewrite Hh in Hcheck.
  apply bind_normal in Hcheck. destruct Hcheck as (result & Hresult & Hcheck).
  destruct (Hbool target a status result Hresult) as (b & ->).
  cbn [typeof String.eqb Ascii.eqb Bool.eqb andb bind truthy] in Hcheck.
  destruct b; [discriminate Hcheck |].
  cbn [bind] in Hcheck. injection Hcheck as <-. reflexivity.
Qed.

Lemma boolean_handlers_report_the_description_witness :
  let a := {| id := "o1"; type := "output_is_object"; severity := None;
              description := Some "Resolver must return an object";
              field := None; expected := VUndefined |} in
  let f := {| failure_id := "o1"; failure_severity := "fatal";
              failure_message := "Resolver must return an object" |} in
  let target := context_value (observation echo (VObject []) [VNull] None) in
  check_assertion target (VObject []) a = Normal (Some f)
  /\ failure_message f = plain_message a.
Proof.
  cbv zeta. split; [reflexivity |].
  apply (boolean_handlers_report_the_description
           (context_value (observation echo (VObject []) [VNull] None))
           (VObject [])).
  - simpl. tauto.
  - discriminate.
  - reflexivity.
Defined.

(** An output that [output_fields_match_contract] cannot inspect: not an
    object at all, or an object whose [output] member is not one. *)
Definition shapeless (output : value) : Prop :=
  (truthy output && (typeof output =? "object")) = false
  \/ exists ps inner,
       output = VObject ps
       /\ lookup "output" ps = Some inner
       /\ (truthy inner && (typeof inner =? "object")) = false.

Lemma shapeless_output_reason (output resolverMeta : value) :
  shapeless output ->
  exists reason,
    checkOutputFieldsMatchContract output resolverMeta
    = Normal (not_passed [("reason", VString reason); ("actualOutput", output)])
    /\ reason <> "missing_fields".
Proof.
  intros [H | (ps & inner & -> & Hlookup & H)]; unfold checkOutputFieldsMatchContract.
  - apply andb_false_iff in H.
    exists "no_output". split; [| discriminate].
    destruct H as [-> | ->]; [reflexivity |].
    rewrite orb_true_r. reflexivity.
  - exists "invalid_output_shape". split; [| discriminate].
    cbn [truthy typeof negb orb String.eqb Ascii.eqb Bool.eqb has_property bind].
    unfold has_own. rewrite Hlookup. cbn [orb get bind]. rewrite Hlookup. cbn [bind].
    apply andb_false_iff in H.
    destruct H as [-> | ->]; [reflexivity |].
    rewrite orb_true_r. reflexivity.
Qed.

(** When [output_fields_match_contract] fails because the output has no
    usable shape, the reported message is the generic one: the assertion's
    description is discarded and no specific guidance is given. *)
Theorem shapeless_output_gets_generic_message (target status : value)
    (a : Assertion) (output resolverMeta : value) :
  type a = "output_fields_match_contract" ->
  nullish status = false ->
  get target "output" = Normal output ->
  get target "resolverMeta" = Normal resolverMeta ->
  shapeless output ->
  check_assertion target status a
  = Normal (Some {| failure_id := id a;
                    failure_severity :=
                      match severity a with Some s => s | None => "fatal" end;
                    failure_message := generic_guidance |}).
Proof.
  intros Htype Hstatus Houtput Hmeta Hshape.
  destruct (shapeless_output_reason output resolverMeta Hshape)
    as (reason & Hresult & Hreason).
  unfold check_assertion. rewrite Htype.
  change (lookup_handler "output_fields_match_contract")
    with (Some (fun (ctx : value) (_ : Assertion) (_ : value) =>
                  o <- get ctx "output" ;; m <- get ctx "resolverMeta" ;;
                  checkOutputFieldsMatchContract o m)).
  cbv beta iota. rewrite Houtput. cbn [bind]. rewrite Hmeta. cbn [bind].
  rewrite Hresult. unfold not_passed.
  cbn [bind typeof String.eqb Ascii.eqb Bool.eqb strict_equal negb andb get lookup
       truthy].
  destruct (get_plain_key status "resolverMeta" Hstatus eq_refl) as (m & ->).
  cbn [bind]. unfold getGuidanceMessage.
  assert (Hname : exists rn, get_optional (or_else m target) "resolverName" = Normal rn).
  { unfold get_optional. destruct (nullish (or_else m target)) eqn:Hn; [eauto |].
    apply get_plain_key; [assumption | reflexivity]. }
  destruct Hname as (rn & ->).
  cbn [bind String.eqb Ascii.eqb Bool.eqb get lookup].
  assert (Hne : strict_equal (VString reason) (VString "missing_fields") = false).
  { simpl. now apply String.eqb_neq. }
  rewrite Hne. reflexivity.
Qed.

Lemma shapeless_output_gets_generic_message_witness :
  let a := {| id := "f1"; type := "output_fields_match_contract"; severity := None;
              description := Some "Output must match the declared fields";
              field := None; expected := VUndefined |} in
  check_assertion
    (context_value (observation echo declaration_example [VString "done"] None))
    (VObject [("resolverMeta", declaration_example)]) a
  = Normal (Some {| failure_id := "f1"; failure_severity := "fatal";
                    failure_message := generic_guidance |}).
Proof.
  cbv zeta.
  refine (shapeless_output_gets_generic_message
            (context_value (observation echo declaration_example [VString "done"] None))
            (VObject [("resolverMeta", declaration_example)])
            {| id := "f1"; type := "output_fields_match_contract"; severity := None;
               description := Some "Output must match the declared fields";
               field := None; expected := VUndefined |}
            (VString "done") declaration_example eq_refl eq_refl eq_refl eq_refl _).
  left. reflexivity.
Defined.

(* ===================================================================== *)
(** * The suite executor *)
(* ===================================================================== *)

(** The state the harness leaves the resolver in: untouched when the input
    cannot be constructed, and otherwise the state after the planned calls. *)
Lemma harness_state {State : Type} (resolver : Resolver State)
    (resolverMeta : value) (testSpec : TestSpec) (fixture : option Fixture)
    (s s' : State) (c : completion InvocationContext) :
  invokeResolverWithObservation resolver resolverMeta testSpec fixture s = (c, s') ->
  s' = s
  \/ exists input,
       resolver_input resolverMeta fixture = Normal input
       /\ s' = snd (call_sequence resolver input (runs testSpec) s).
Proof.
  unfold invokeResolverWithObservation.
  destruct (resolver_input resolverMeta fixture) as [input | e |].
  - rewrite trials_follow_call_sequence. intros H. injection H as _ <-.
    right. exists input. auto.
  - intros H. injection H as _ <-. auto.
  - intros H. injection H as _ <-. auto.
Qed.

Ltac untouched :=
  let H := fresh in intros H; injection H as _ <-; now left.

(** The fixture a suite runs with: the local override when there is one, the
    first fixture of the spec otherwise. *)
Definition suite_fixture (w : World) (suite : string) (testSpec : TestSpec)
  : option Fixture :=
  match local_fixture w suite with
  | Contents f => Some f
  | _ => hd_error (fixtures testSpec)
  end.

(** A suite that selects static-contract mode names a contract module. *)
Definition static_mode (fixture : option Fixture) : bool :=
  match fixture with
  | Some fx => string_truthy (resolver_contract fx)
  | None => false
  end.

(** The resolver is called in runtime mode only: a suite that is missing,
    that names a contract module, or whose category is not
    [resolver-runtime] leaves the resolver's state as it was, and a runtime
    suite makes at most the planned calls on the constructed input. *)
Theorem resolver_called_only_in_runtime_mode {State : Type} (w : World)
    (resolver : Resolver State) (resolverMeta : value) (suite : string)
    (s s' : State) (c : completion nat) :
  run_suite w resolver resolverMeta suite s = (c, s') ->
  s' = s
  \/ exists testSpec input,
       test_json w suite = Contents testSpec
       /\ static_mode (suite_fixture w suite testSpec) = false
       /\ category testSpec = Some "resolver-runtime"
       /\ resolver_input resolverMeta (suite_fixture w suite testSpec) = Normal input
       /\ s' = snd (call_sequence resolver input (runs testSpec) s).
Proof.
  unfold run_suite, suite_fixture, static_mode.
  destruct (test_json w suite) as [| e | testSpec]; try untouched.
  destruct (local_fixture w suite) as [| e | f]; try untouched;
    [destruct (hd_error (fixtures testSpec)) as [fx |] eqn:Hfx; try untouched
    | rename f into fx];
    (destruct (string_truthy (resolver_contract fx)) eqn:Hstatic;
     [destruct (contract_module w suite _); untouched |];
     destruct (category testSpec) as [cat |] eqn:Hcategory; [| untouched];
     destruct (cat =? "resolver-runtime") eqn:Hcat; [| untouched];
     apply String.eqb_eq in Hcat; subst cat;
     destruct (invokeResolverWithObservation resolver resolverMeta testSpec
                 (Some fx) s) as [r s1] eqn:Hrun;
     apply harness_state in Hrun; intros H;
     assert (Hs : s' = s1)
       by (destruct r as [ctx | e' |];
           [destruct (runAssertions testSpec (context_value ctx) _) | |];
           injection H as _ <-; reflexivity);
     subst s1; destruct Hrun as [-> | (input & Hinput & ->)]; [now left |];
     right; exists testSpec, input; try rewrite Hfx; auto).
Qed.

(** A package with one runtime suite, the determinism suite. *)
Definition determinism_spec : TestSpec :=
  {| test_id := Some determinism_test_id;
     category := Some "resolver-runtime";
     assertions := Some [ assertion_of "d1" "deterministic_output" ];
     fixtures := [ {| resolver_contract := None; invoke := VObject [] |} ] |}.

Definition world_with_runtime_suite : World :=
  {| test_json := fun suite =>
       if suite =? determinism_test_id then Contents determinism_spec else Missing;
     local_fixture := fun _ => Missing;
     contract_module := fun _ _ => Missing |}.

Lemma resolver_called_only_in_runtime_mode_witness :
  snd (run_suite world_with_runtime_suite drifting (VObject []) determinism_test_id 0) = 3
  /\ snd (run_suite (world_with_contract declaration_example) drifting (VObject [])
            metadata_suite 0) = 0
  /\ (snd (run_suite world_with_runtime_suite drifting (VObject []) determinism_test_id 0)
      = 0
      \/ exists testSpec input,
           test_json world_with_runtime_suite determinism_test_id = Contents testSpec
           /\ static_mode (suite_fixture world_with_runtime_suite determinism_test_id
                             testSpec) = false
           /\ category testSpec = Some "resolver-runtime"
           /\ resolver_input (VObject [])
                (suite_fixture world_with_runtime_suite determinism_test_id testSpec)
              = Normal input
           /\ snd (run_suite world_with_runtime_suite drifting (VObject [])
                     determinism_test_id 0)
              = snd (call_sequence drifting input (runs testSpec) 0)).
Proof.
  split; [reflexivity | split; [reflexivity |]].
  apply (resolver_called_only_in_runtime_mode world_with_runtime_suite drifting
           (VObject []) determinism_test_id 0 _
           (fst (run_suite world_with_runtime_suite drifting (VObject [])
                   determinism_test_id 0))).
  reflexivity.
Defined.

Lemma verdict_at_most_one (result : Report) : verdict result <= 1.
Proof. unfold verdict. destruct (ok result); lia. Qed.

(** A suite adds at most one to the count, however many of its assertions
    fail. *)
Lemma run_suite_increment {State : Type} (w : World) (resolver : Resolver State)
    (resolverMeta : value) (suite : string) (s s' : State) (n : nat) :
  run_suite w resolver resolverMeta suite s = (Normal n, s') -> n <= 1.
Proof.
  assert (Hone : forall (s1 : State) (k : nat), (Normal k, s1) = (Normal n, s') -> k <= 1 -> n <= 1).
  { intros s1 k H Hk. injection H as <- _. exact Hk. }
  unfold run_suite.
  destruct (test_json w suite) as [| e | testSpec];
    [intros H; apply (Hone _ _ H); lia | discriminate |].
  destruct (local_fixture w suite) as [| e | f]; [| discriminate |];
    [destruct (hd_error (fixtures testSpec)) as [fx |]; [| discriminate]
    | rename f into fx];
    (destruct (string_truthy (resolver_contract fx));
     [destruct (contract_module w suite _) as [| e | target];
      try (intros H; apply (Hone _ _ H); lia);
      destruct (runAssertions testSpec target VUndefined) as [result | e |];
      cbn [bind]; try discriminate;
      intros H; apply (Hone _ _ H), verdict_at_most_one |];
     destruct (category testSpec) as [cat |];
     [| intros H; apply (Hone _ _ H); lia];
     destruct (cat =? "resolver-runtime");
     [| intros H; apply (Hone _ _ H); lia];
     destruct (invokeResolverWithObservation resolver resolverMeta testSpec
                 (Some fx) s) as [[ctx | e |] s1];
     [destruct (runAssertions testSpec (context_value ctx) _) as [result | e |] | |];
     try discriminate;
     intros H; apply (Hone _ _ H); try apply verdict_at_most_one; lia).
Qed.

Lemma run_suites_bounds {State : Type} (w : World) (resolver : Resolver State)
    (resolverMeta : value) (suites : list string) (failed : nat) (s s' : State)
    (n : nat) :
  run_suites w resolver resolverMeta suites failed s = (Normal n, s') ->
  failed <= n <= failed + List.length suites.
Proof.
  revert failed s. induction suites as [| suite rest IH]; intros failed s; simpl.
  - intros H. injection H as <- _. lia.
  - destruct (run_suite w resolver resolverMeta suite s) as [[k | e |] s1] eqn:Hsuite;
      try discriminate.
    apply run_suite_increment in Hsuite. intros H. apply IH in H. lia.
Qed.

(** The executor counts suites, not assertions: when it returns, [failed] is
    at most the number of suites it was given. *)
Theorem failed_count_at_most_suites {State : Type} (w : World)
    (suites : list string) (resolver : Resolver State) (s s' : State) (n : nat) :
  runAllTests w suites resolver s = (Normal n, s') ->
  n <= List.length suites.
Proof.
  unfold runAllTests.
  destruct (resolverMeta <- resolver_meta (resolver_value resolver) ;;
            rn <- get resolverMeta "resolverName" ;;
            _ <- name_includes (or_else rn (VString "unknown")) "bank" ;;
            Normal resolverMeta) as [resolverMeta | e |]; try discriminate.
  intros H. apply run_suites_bounds in H. lia.
Qed.

Lemma failed_count_at_most_suites_witness :
  fst (runAllTests (world_with_contract (VObject [])) [metadata_suite; "R-404"] echo tt)
  = Normal 2
  /\ 2 <= List.length [metadata_suite; "R-404"].
Proof.
  split; [reflexivity |].
  apply (failed_count_at_most_suites (world_with_contract (VObject []))
           [metadata_suite; "R-404"] echo tt tt 2).
  reflexivity.
Defined.

(** In runtime mode nothing escapes a suite.  For a spec of the data model
    whose selected fixture names no contract module and whose category is
    [resolver-runtime], the harness and the assertions run inside one [try]
    block: an exception of the harness (the configuration error, a failure
    while a rejection is recorded) and an exception of a handler are each
    caught and counted as one failure, and the suite itself never throws.
    In static-contract mode there is no such block: there a handler's
    exception ends the whole run (example
    [static_mode_lets_exceptions_escape]). *)
Theorem runtime_mode_counts_every_exception {State : Type} (w : World)
    (resolver : Resolver State) (resolverMeta : value) (suite : string)
    (s : State) (testSpec : TestSpec) (fx : Fixture) :
  test_json w suite = Contents testSpec ->
  selected_fixture w suite testSpec fx ->
  string_truthy (resolver_contract fx) = false ->
  category testSpec = Some "resolver-runtime" ->
  (forall e s', run_suite w resolver resolverMeta suite s <> (Throw e, s'))
  /\ (forall e s',
        invokeResolverWithObservation resolver resolverMeta testSpec (Some fx) s
        = (Throw e, s') ->
        run_suite w resolver resolverMeta suite s = (Normal 1, s'))
  /\ (forall ctx s' e,
        invokeResolverWithObservation resolver resolverMeta testSpec (Some fx) s
        = (Normal ctx, s') ->
        runAssertions testSpec (context_value ctx)
          (VObject [("resolverMeta", resolverMeta)]) = Throw e ->
        run_suite w resolver resolverMeta suite s = (Normal 1, s')).
Proof.
  intros Hspec Hfx Hstatic Hcategory.
  rewrite (runtime_suite w resolver resolverMeta suite testSpec fx s
             Hspec Hfx Hstatic Hcategory).
  split; [| split].
  - intros e s'.
    destruct (invokeResolverWithObservation resolver resolverMeta testSpec
                (Some fx) s) as [[ctx | e0 |] s1];
      [destruct (runAssertions testSpec (context_value ctx) _) | |];
      discriminate.
  - intros e s' ->. reflexivity.
  - intros ctx s' e -> ->. reflexivity.
Qed.

(** A runtime suite whose fixture asks for the resolver's example action. *)
Definition example_suite : string := "R-006-runtime-example".

Definition world_with_example_suite : World :=
  {| test_json := fun suite =>
       if suite =? example_suite
       then Contents {| test_id := Some example_suite;
                        category := Some "resolver-runtime";
                        assertions := Some [ assertion_of "o1" "output_is_object" ];
                        fixtures := [ {| resolver_contract := None;
                                         invoke := VString example_marker |} ] |}
       else Missing;
     local_fixture := fun _ => Missing;
     contract_module := fun _ _ => Missing |}.

(** The configuration error of a resolver without [exampleAction] is counted
    as one failure; the resolver is not called. *)
Lemma runtime_mode_counts_every_exception_witness :
  invokeResolverWithObservation drifting (VObject [])
    {| test_id := Some example_suite; category := Some "resolver-runtime";
       assertions := Some [ assertion_of "o1" "output_is_object" ];
       fixtures := [ {| resolver_contract := None; invoke := VString example_marker |} ] |}
    (Some {| resolver_contract := None; invoke := VString example_marker |}) 0
  = (Throw configuration_error, 0)
  /\ run_suite world_with_example_suite drifting (VObject []) example_suite 0
     = (Normal 1, 0).
Proof.
  split; [reflexivity |].
  apply (proj1 (proj2 (runtime_mode_counts_every_exception
                         world_with_example_suite drifting (VObject []) example_suite 0
                         _ {| resolver_contract := None; invoke := VString example_marker |}
                         eq_refl (or_intror (conj eq_refl eq_refl)) eq_refl eq_refl))
           configuration_error 0).
  reflexivity.
Defined.

(** In static-contract mode a handler's exception is not caught: a contract
    module that exports [null] makes the suite, and with it the run, throw. *)
Example static_mode_lets_exceptions_escape :
  runAllTests (world_with_contract VNull) [metadata_suite; "R-404"] echo tt
  = (Throw (TypeError "Cannot read properties of null (reading 'inputs')"), tt).
Proof. reflexivity. Qed.

(** ** The pre-check *)

(** Before the first suite the executor calls [includes] on the declared
    [resolverName] (or on "unknown" when that is absent or falsy).  With a
    name that is a string or an array the suites run, starting from a count
    of zero.  With a name that is a number or [true] the call throws: the
    executor fails before any suite runs and without calling the resolver. *)
Theorem executor_precheck_needs_a_textual_name {State : Type} (w : World)
    (suites : list string) (resolver : Resolver State) (s : State)
    (resolverMeta rn : value) :
  resolver_meta (resolver_value resolver) = Normal resolverMeta ->
  get resolverMeta "resolverName" = Normal rn ->
  (truthy rn = false \/ (exists n, rn = VString n) \/ (exists l, rn = VArray l) ->
   runAllTests w suites resolver s = run_suites w resolver resolverMeta suites 0 s)
  /\ ((exists n, rn = VNumber n /\ truthy rn = true) \/ rn = VBool true ->
      exists e, runAllTests w suites resolver s = (Throw e, s)).
Proof.
  intros Hmeta Hrn. unfold runAllTests. rewrite Hmeta. cbn [bind]. rewrite Hrn.
  cbn [bind]. split.
  - intros [Hfalsy | [(n & ->) | (l & ->)]].
    + unfold or_else. rewrite Hfalsy. reflexivity.
    + unfold or_else. destruct (truthy (VString n)); reflexivity.
    + reflexivity.
  - intros [(n & -> & Ht) | ->].
    + unfold or_else. rewrite Ht. eexists. reflexivity.
    + eexists. reflexivity.
Qed.

Lemma executor_precheck_needs_a_textual_name_witness :
  let numbered := {| resolver_value := VFunction [("resolverName", VNumber (Int 7))];
                     behaviour := fun input (s : nat) => (Fulfilled input, S s) |} in
  exists e, runAllTests world_with_runtime_suite [determinism_test_id] numbered 0
            = (Throw e, 0).
Proof.
  cbv zeta.
  apply (executor_precheck_needs_a_textual_name world_with_runtime_suite
           [determinism_test_id]
           {| resolver_value := VFunction [("resolverName", VNumber (Int 7))];
              behaviour := fun input (s : nat) => (Fulfilled input, S s) |}
           0 (VFunction [("resolverName", VNumber (Int 7))]) (VNumber (Int 7))
           eq_refl eq_refl).
  left. exists (Int 7). split; reflexivity.
Defined.

(* ===================================================================== *)
(** * Properties of the AST runner *)
(* ===================================================================== *)

(** ** The contract checks *)

Lemma contract_exists_passes (ast : value) (k : string) :
  (exists v, contract_exists ast k = Normal v /\ truthy v = true)
  <-> exists x l, get ast k = Normal (VArray (x :: l)).
Proof.
  unfold contract_exists. split.
  - intros (v & Hrun & Htruthy). apply bind_normal in Hrun.
    destruct Hrun as (m & Hget & Hrun).
    destruct (truthy m) eqn:Hm; cbn [negb] in Hrun.
    + destruct m as [| | b | n | s | l | ps | ps]; cbn [isArray negb] in Hrun;
        try (injection Hrun as <-; discriminate Htruthy).
      destruct l as [| x l]; [injection Hrun as <-; discriminate Htruthy |].
      eauto.
    + injection Hrun as <-. congruence.
  - intros (x & l & ->). exists (VBool true). split; [| reflexivity].
    cbn [bind truthy negb isArray get String.eqb Ascii.eqb Bool.eqb List.length].
    unfold less_than. cbn [to_number bind]. unfold number_ltb. cbn [number_leb number_eqb].
    replace (0 <=? Z.of_nat (S (List.length l)))%Z with true by (symmetry; apply Z.leb_le; lia).
    replace (0 =? Z.of_nat (S (List.length l)))%Z with false by (symmetry; apply Z.eqb_neq; lia).
    reflexivity.
Qed.

(** The three contract checks of the AST runner pass (return a truthy value)
    exactly when the member they look at is a non-empty sequence.  Unlike the
    engine's list validators they reject the empty list and do not inspect
    the entries. *)
Theorem contract_checks_require_nonempty_sequence (ast : value) :
  ((exists v, checkInputContract ast = Normal v /\ truthy v = true)
   <-> exists x l, get ast "inputs" = Normal (VArray (x :: l)))
  /\ ((exists v, checkOutputContract ast = Normal v /\ truthy v = true)
      <-> exists x l, get ast "outputs" = Normal (VArray (x :: l)))
  /\ ((exists v, checkFailureModes ast = Normal v /\ truthy v = true)
      <-> exists x l, get ast "failures" = Normal (VArray (x :: l))).
Proof.
  split; [| split]; apply contract_exists_passes.
Qed.

(** ** The allowlist *)

Definition allowed_step (step : value) : Prop :=
  exists t, get step "type" = Normal (VString t)
            /\ In t ["action"; "prompt"; "persist"; "emit"; "use"; "ask"].

Lemma includes_allowed (t : value) :
  includes allowedNodes t = true
  <-> exists s, t = VString s
                /\ In s ["action"; "prompt"; "persist"; "emit"; "use"; "ask"].
Proof.
  unfold includes, allowedNodes. split.
  - intros H. apply existsb_exists in H. destruct H as (y & Hin & Heq).
    assert (Hs : exists s, y = VString s
                           /\ In s ["action"; "prompt"; "persist"; "emit"; "use"; "ask"]).
    { simpl in Hin. simpl.
      repeat (destruct Hin as [<- | Hin]; [eexists; split; [reflexivity | tauto] |]).
      contradiction. }
    destruct Hs as (s & -> & Hs).
    destruct t as [| | b | n | s' | l | ps | ps]; try discriminate Heq.
    simpl in Heq. apply String.eqb_eq in Heq. subst s'. eauto.
  - intros (s & -> & Hin). apply existsb_exists. exists (VString s). split.
    + simpl in Hin. simpl. intuition congruence.
    + simpl. apply String.eqb_refl.
Qed.

(** The allowlist check passes exactly when [steps] is a sequence, possibly
    empty, of steps whose [type] is one of the six allowed node types.  A
    resolver without [steps] fails; one with an empty list of steps passes. *)
Theorem allowlist_iff_every_step_allowed (ast : value) :
  checkAllowlist ast = Normal (VBool true)
  <-> exists l, get ast "steps" = Normal (VArray l) /\ Forall allowed_step l.
Proof.
  unfold checkAllowlist. rewrite bind_normal. split.
  - intros (steps & Hget & Hrun).
    destruct (truthy steps); cbn [negb] in Hrun; [| discriminate Hrun].
    apply bind_normal in Hrun. destruct Hrun as (l & Hl & Hrun).
    apply elements_for_normal in Hl. subst steps. exists l. split; [assumption |].
    apply bind_normal in Hrun. destruct Hrun as (b & Hevery & Hb).
    injection Hb as ->. apply every_true in Hevery.
    eapply Forall_impl; [| exact Hevery].
    intros step Hstep. apply bind_normal in Hstep.
    destruct Hstep as (t & Ht & Hin). injection Hin as Hin.
    apply includes_allowed in Hin. destruct Hin as (s & -> & Hin).
    exists s. auto.
  - intros (l & Hget & Hall). exists (VArray l). split; [assumption |].
    cbn [truthy negb elements_for bind].
    assert (Hevery : every (fun step => t <- get step "type" ;;
                                        Normal (includes allowedNodes t)) l
                     = Normal true).
    { apply every_true. eapply Forall_impl; [| exact Hall].
      intros step (t & Ht & Hin). rewrite Ht. cbn [bind]. f_equal.
      apply includes_allowed. eauto. }
    rewrite Hevery. reflexivity.
Qed.

(** ** The runner *)

Definition supported : list string :=
  [ "assert_allowlist"; "assert_input_contract"; "assert_output_contract";
    "assert_failure_modes" ].

(** Whether an assertion passes against a parsed resolver. *)
Definition ast_passes (resolverAST : value) (a : AstAssertion) : bool :=
  match LibRunner.dispatch (ast_type a) resolverAST with
  | Normal v => truthy v
  | _ => false
  end.

Definition lib_report (fs : list Failure) : Report :=
  {| ok := Nat.eqb (List.length fs) 0;
     message := if Nat.eqb (List.length fs) 0 then "All assertions passed"
                else String.concat "; " (List.map LibRunner.failure_line fs);
     failures := Some fs |}.

Lemma lib_check_all_collects (resolverAST : value) (l : list AstAssertion)
    (acc : list Failure) :
  (forall a, In a l -> exists v, LibRunner.dispatch (ast_type a) resolverAST = Normal v) ->
  LibRunner.check_all resolverAST l acc
  = Normal (acc ++ List.map LibRunner.failure_of
                     (List.filter (fun a => negb (ast_passes resolverAST a)) l))%list.
Proof.
  revert acc. induction l as [| a rest IH]; intros acc Hall; simpl.
  - rewrite app_nil_r. reflexivity.
  - destruct (Hall a (or_introl eq_refl)) as (v & Hv).
    unfold LibRunner.check_assertion, ast_passes. rewrite Hv. cbn [bind].
    rewrite IH by (intros b Hb; apply Hall; now right).
    destruct (truthy v); cbn [negb List.map]; [reflexivity |].
    rewrite <- app_assoc. reflexivity.
Qed.

Lemma dispatch_unsupported (t : string) (resolverAST : value) :
  ~ In t supported -> LibRunner.dispatch t resolverAST = Normal (VBool false).
Proof.
  intros Hnot. unfold LibRunner.dispatch.
  destruct (String.eqb_spec t "assert_allowlist") as [-> | _];
    [contradiction Hnot; simpl; tauto |].
  destruct (String.eqb_spec t "assert_input_contract") as [-> | _];
    [contradiction Hnot; simpl; tauto |].
  destruct (String.eqb_spec t "assert_output_contract") as [-> | _];
    [contradiction Hnot; simpl; tauto |].
  destruct (String.eqb_spec t "assert_failure_modes") as [-> | _];
    [contradiction Hnot; simpl; tauto |].
  reflexivity.
Qed.

(** The AST runner evaluates every assertion.  When each check returns, the
    report lists the failing assertions in spec order, each with its id, its
    severity ([fatal] by default) and its message (or "Assertion failed:
    <type>"), and [ok] holds exactly when none fails.  A type outside the four
    supported ones fails whatever the resolver is: the [switch] has no
    inherited cases, [toString] included. *)
Theorem lib_runner_reports_failing_assertions (testSpec : AstTestSpec)
    (resolverAST : value) (l : list AstAssertion) :
  ast_assertions testSpec = Some l -> l <> [] ->
  ((forall a, In a l ->
      exists v, LibRunner.dispatch (ast_type a) resolverAST = Normal v) ->
   let failing := List.filter (fun a => negb (ast_passes resolverAST a)) l in
   LibRunner.runAssertions testSpec resolverAST
   = Normal (lib_report (List.map LibRunner.failure_of failing))
   /\ (ok (lib_report (List.map LibRunner.failure_of failing)) = true
       <-> forall a, In a l -> ast_passes resolverAST a = true))
  /\ (forall a, ~ In (ast_type a) supported ->
      LibRunner.check_assertion resolverAST a = Normal (Some (LibRunner.failure_of a))
      /\ ast_passes resolverAST a = false).
Proof.
  intros Hl Hne. split.
  - intros Hall failing. split.
    + unfold LibRunner.runAssertions. rewrite Hl.
      destruct l as [| a0 rest]; [contradiction |].
      rewrite lib_check_all_collects by assumption. reflexivity.
    + unfold lib_report. cbn [ok]. rewrite length_map. subst failing. split.
      * intros Hlen a Ha. apply Nat.eqb_eq in Hlen.
        apply length_zero_iff_nil in Hlen.
        destruct (ast_passes resolverAST a) eqn:Hp; [reflexivity |].
        assert (Hin : In a (List.filter (fun a => negb (ast_passes resolverAST a)) l)).
        { apply filter_In. rewrite Hp. auto. }
        rewrite Hlen in Hin. contradiction.
      * intros Hpass. apply Nat.eqb_eq, length_zero_iff_nil.
        clear Hl Hne Hall. induction l as [| a rest IH]; [reflexivity |].
        cbn [List.filter]. rewrite (Hpass a (or_introl eq_refl)). cbn [negb].
        apply IH. intros b Hb. apply Hpass. now right.
  - intros a Hnot. unfold LibRunner.check_assertion, ast_passes.
    rewrite (dispatch_unsupported _ _ Hnot). split; reflexivity.
Qed.

Lemma lib_runner_reports_failing_assertions_witness :
  let ast := VObject [("inputs", VArray [VString "customer_id"]);
                      ("outputs", VArray [])] in
  let named := fun i t => {| ast_id := i; ast_type := t; ast_severity := None;
                             ast_message := None |} in
  LibRunner.runAssertions
    {| ast_assertions := Some [ named "a1" "assert_input_contract";
                                named "a2" "assert_output_contract";
                                named "a3" "toString" ] |} ast
  = Normal (lib_report
              [ {| failure_id := "a2"; failure_severity := "fatal";
                   failure_message := "Assertion failed: assert_output_contract" |};
                {| failure_id := "a3"; failure_severity := "fatal";
                   failure_message := "Assertion failed: toString" |} ]).
Proof.
  cbv zeta.
  destruct (lib_runner_reports_failing_assertions
              {| ast_assertions :=
                   Some [ {| ast_id := "a1"; ast_type := "assert_input_contract";
                             ast_severity := None; ast_message := None |};
                          {| ast_id := "a2"; ast_type := "assert_output_contract";
                             ast_severity := None; ast_message := None |};
                          {| ast_id := "a3"; ast_type := "toString";
                             ast_severity := None; ast_message := None |} ] |}
              (VObject [("inputs", VArray [VString "customer_id"]);
                        ("outputs", VArray [])])
              _ eq_refl ltac:(discriminate)) as (Hreport & _).
  destruct Hreport as (Hrun & _).
  - intros a [<- | [<- | [<- | []]]]; eexists; reflexivity.
  - exact Hrun.
Defined.

(* ===================================================================== *)
(** * Properties of the command-line entry point *)
(* ===================================================================== *)

(** ** Exit code *)

(** A suite that cannot fail the run: it lacks [test.json] or [resolver.ol]
    and is skipped, or both load and the AST runner reports [ok]. *)
Definition suite_passes_or_skipped (d : Cli.Disk) (suite : string) : Prop :=
  Cli.suite_spec d suite = Missing
  \/ Cli.suite_resolver d suite = Missing
  \/ exists testSpec ast report,
       Cli.suite_spec d suite = Contents testSpec
       /\ Cli.suite_resolver d suite = Contents ast
       /\ LibRunner.runAssertions testSpec ast = Normal report
       /\ ok report = true.

Lemma insert_sorted_In (x name : string) (sorted : list string) :
  In x (Cli.insert_sorted name sorted) <-> x = name \/ In x sorted.
Proof.
  induction sorted as [| y rest IH]; simpl.
  - intuition.
  - destruct (String.leb name y); simpl; [intuition |].
    rewrite IH. intuition.
Qed.

Lemma sort_In (x : string) (names : list string) :
  In x (Cli.sort names) <-> In x names.
Proof.
  unfold Cli.sort. induction names as [| y rest IH]; simpl; [tauto |].
  rewrite insert_sorted_In, IH. intuition.
Qed.

(** The flag is never reset: the loop ends with [false] exactly when it
    started with [false] and no suite raised it. *)
Lemma run_suites_false (d : Cli.Disk) (suites : list string) (overallFailed : bool) :
  Cli.run_suites d suites overallFailed = Normal false
  <-> overallFailed = false /\ Forall (suite_passes_or_skipped d) suites.
Proof.
  revert overallFailed. induction suites as [| suite rest IH]; intros overallFailed.
  - simpl. split.
    + intros H. injection H as ->. auto.
    + intros (-> & _). reflexivity.
  - cbn [Cli.run_suites]. rewrite Forall_cons_iff.
    unfold suite_passes_or_skipped at 1.
    destruct (Cli.suite_spec d suite) as [| e | testSpec].
    + rewrite IH. intuition.
    + destruct (Cli.suite_resolver d suite) as [| e' | ast].
      * rewrite IH. intuition.
      * split.
        -- intros H. apply bind_normal in H. destruct H as (m & _ & H).
           apply IH in H. destruct H as (H & _). discriminate H.
        -- intros (_ & [H | [H | (t & a & r & H & _)]] & _); discriminate H.
      * split.
        -- intros H. apply bind_normal in H. destruct H as (m & _ & H).
           apply IH in H. destruct H as (H & _). discriminate H.
        -- intros (_ & [H | [H | (t & a & r & H & _)]] & _); discriminate H.
    + destruct (Cli.suite_resolver d suite) as [| e' | ast].
      * rewrite IH. intuition.
      * split.
        -- intros H. apply bind_normal in H. destruct H as (m & _ & H).
           apply IH in H. destruct H as (H & _). discriminate H.
        -- intros (_ & [H | [H | (t & a & r & _ & H & _)]] & _); discriminate H.
      * rewrite bind_normal. split.
        -- intros (report & Hrun & H). apply IH in H. destruct H as (Hflag & Hrest).
           destruct (ok report) eqn:Hok; [| discriminate Hflag].
           split; [assumption |]. split; [| assumption].
           right. right. exists testSpec, ast, report. auto.
        -- intros (-> & [H | [H | (t & a & r & Ht & Ha & Hrun & Hok)]] & Hrest);
             try discriminate H.
           injection Ht as <-. injection Ha as <-.
           exists r. split; [assumption |]. rewrite Hok. apply IH. auto.
Qed.

(** The script exits with code 0 exactly when a non-empty path is given, the
    file it names is read and parsed, [resolver-tests] lists at least one
    name of the form [R-<digit>...], and every such suite passes or is
    skipped.  A suite without [test.json] or [resolver.ol] is skipped, not
    failed, and the parsed resolver takes no part in the verdict: each suite
    is judged on its own [resolver.ol]. *)
Theorem exit_zero_iff_every_suite_passes_or_is_skipped (argv2 : option string)
    (d : Cli.Disk) :
  Cli.main argv2 d = Cli.Exit 0
  <-> exists resolverPath resolverAST names,
        argv2 = Some resolverPath /\ resolverPath <> ""
        /\ Cli.resolver_file d resolverPath = Contents resolverAST
        /\ Cli.resolver_tests d = Normal names
        /\ (exists suite, In suite names /\ Cli.suite_pattern suite = true)
        /\ (forall suite, In suite names -> Cli.suite_pattern suite = true ->
              suite_passes_or_skipped d suite).
Proof.
  unfold Cli.main. split.
  - destruct argv2 as [resolverPath |]; [| discriminate].
    destruct (String.eqb_spec resolverPath "") as [| Hne]; [discriminate |].
    destruct (Cli.resolver_file d resolverPath) as [| e | resolverAST] eqn:Hfile;
      [discriminate | destruct (get e "message"); discriminate |].
    destruct (Cli.resolver_tests d) as [names | e |] eqn:Hnames; try discriminate.
    cbv zeta.
    destruct (Cli.sort (List.filter Cli.suite_pattern names)) as [| s0 rest] eqn:Hsort;
      [discriminate |].
    cbn [List.length Nat.eqb].
    destruct (Cli.run_suites d (s0 :: rest) false) as [[|] | e |] eqn:Hrun;
      try discriminate.
    intros _. apply run_suites_false in Hrun. destruct Hrun as (_ & Hall).
    rewrite <- Hsort in Hall. rewrite Forall_forall in Hall.
    exists resolverPath, resolverAST, names. repeat split; try assumption.
    + exists s0. apply filter_In. apply sort_In. rewrite Hsort. now left.
    + intros suite Hin Hp. apply Hall, sort_In, filter_In. auto.
  - intros (resolverPath & resolverAST & names & -> & Hne & -> & -> & Hsome & Hall).
    destruct (String.eqb_spec resolverPath "") as [| _]; [contradiction |].
    cbv zeta.
    destruct (Cli.sort (List.filter Cli.suite_pattern names)) as [| s0 rest] eqn:Hsort.
    + destruct Hsome as (suite & Hin & Hp).
      assert (H : In suite (Cli.sort (List.filter Cli.suite_pattern names))).
      { apply sort_In, filter_In. auto. }
      rewrite Hsort in H. contradiction.
    + cbn [List.length Nat.eqb].
      assert (Hrun : Cli.run_suites d (s0 :: rest) false = Normal false).
      { apply run_suites_false. split; [reflexivity |].
        rewrite <- Hsort. apply Forall_forall. intros suite Hin.
        apply sort_In, filter_In in Hin. destruct Hin. auto. }
      rewrite Hrun. reflexivity.
Qed.

(** A run in which every suite is skipped succeeds although nothing was
    checked. *)
Example all_suites_skipped_exits_zero :
  let d := {| Cli.resolver_file := fun _ => Contents (VObject []);
              Cli.resolver_tests := Normal ["R-001-allowlist"; "README.md"];
              Cli.suite_spec := fun _ => Missing;
              Cli.suite_resolver := fun _ => Missing |} in
  Cli.main (Some "resolver.ol") d = Cli.Exit 0.
Proof. reflexivity. Qed.

Lemma run_suites_same_suites (d d' : Cli.Disk) (suites : list string)
    (overallFailed : bool) :
  (forall suite, Cli.suite_spec d suite = Cli.suite_spec d' suite) ->
  (forall suite, Cli.suite_resolver d suite = Cli.suite_resolver d' suite) ->
  Cli.run_suites d suites overallFailed = Cli.run_suites d' suites overallFailed.
Proof.
  intros Hspec Hresolver. revert overallFailed.
  induction suites as [| suite rest IH]; intros overallFailed; [reflexivity |].
  cbn [Cli.run_suites]. rewrite <- Hspec, <- Hresolver.
  destruct (Cli.suite_spec d suite) as [| e | testSpec];
    destruct (Cli.suite_resolver d suite) as [| e' | ast];
    try apply IH;
    try (destruct (Cli.error_message _); cbn [bind]; [apply IH | reflexivity ..]).
  destruct (LibRunner.runAssertions testSpec ast); cbn [bind];
    [apply IH | reflexivity ..].
Qed.

(** The resolver named on the command line only has to parse: its AST is
    never handed to the assertions.  Two runs over the same [resolver-tests]
    directory end the same way whatever the two resolvers contain. *)
Theorem given_resolver_only_has_to_parse (d d' : Cli.Disk)
    (resolverPath resolverPath' : string) (resolverAST resolverAST' : value) :
  resolverPath <> "" -> resolverPath' <> "" ->
  Cli.resolver_file d resolverPath = Contents resolverAST ->
  Cli.resolver_file d' resolverPath' = Contents resolverAST' ->
  Cli.resolver_tests d = Cli.resolver_tests d' ->
  (forall suite, Cli.suite_spec d suite = Cli.suite_spec d' suite) ->
  (forall suite, Cli.suite_resolver d suite = Cli.suite_resolver d' suite) ->
  Cli.main (Some resolverPath) d = Cli.main (Some resolverPath') d'.
Proof.
  intros Hne Hne' Hfile Hfile' Htests Hspec Hresolver. unfold Cli.main.
  destruct (String.eqb_spec resolverPath "") as [| _]; [contradiction |].
  destruct (String.eqb_spec resolverPath' "") as [| _]; [contradiction |].
  rewrite Hfile, Hfile', <- Htests.
  destruct (Cli.resolver_tests d) as [names | e |]; try reflexivity.
  cbv zeta.
  rewrite (run_suites_same_suites d d' _ false Hspec Hresolver). reflexivity.
Qed.

(** A suite directory whose resolver declares no inputs. *)
Definition disk_with (given : value) : Cli.Disk :=
  {| Cli.resolver_file := fun _ => Contents given;
     Cli.resolver_tests := Normal ["R-002-io-contract"];
     Cli.suite_spec := fun _ =>
       Contents {| ast_assertions :=
                     Some [ {| ast_id := "in"; ast_type := "assert_input_contract";
                               ast_severity := None; ast_message := None |} ] |};
     Cli.suite_resolver := fun _ => Contents (VObject [("inputs", VArray [])]) |}.

Lemma given_resolver_only_has_to_parse_witness :
  let good := VObject [("inputs", VArray [VString "customer_id"])] in
  Cli.main (Some "good.ol") (disk_with good) = Cli.Exit 1
  /\ Cli.main (Some "good.ol") (disk_with good)
     = Cli.main (Some "empty.ol") (disk_with (VObject [])).
Proof.
  cbv zeta. split; [reflexivity |].
  apply (given_resolver_only_has_to_parse
           (disk_with (VObject [("inputs", VArray [VString "customer_id"])]))
           (disk_with (VObject []))
           "good.ol" "empty.ol"
           (VObject [("inputs", VArray [VString "customer_id"])]) (VObject []));
    try discriminate; reflexivity.
Defined.

(* ===================================================================== *)
(** * Guided feedback *)
(* ===================================================================== *)

(** The tip appended for a resolver name: the bank tip when the name
    mentions [bank], else the Telegram tip when it mentions [telegram]. *)
Definition resolver_tips (resolverName : string) : string :=
  if contains "bank" resolverName then bank_tip
  else if contains "telegram" resolverName then telegram_tip
  else "".

Lemma map_quoted_names (names : list string) :
  JS.map (fun f => s <- to_string f ;; Normal (dquote ++ s ++ dquote))
    (List.map VString names)
  = Normal (List.map (fun n => dquote ++ n ++ dquote) names).
Proof.
  induction names as [| n rest IH]; [reflexivity |].
  cbn [List.map JS.map to_string bind]. rewrite IH. reflexivity.
Qed.

(** When [output_fields_match_contract] finds declared names missing from an
    output that is JSON data, the failure message is the guidance text built
    from the output printed as JSON, the quoted list of all declared names
    (not only the missing ones) and the tip for the resolver's name; the
    assertion's description is not used.  The name is read from
    [status.resolverMeta] when that is truthy and from the target otherwise,
    and defaults to [unknown]. *)
Theorem missing_fields_are_reported_with_guidance (target status : value)
    (a : Assertion) (output resolverMeta actual m rn : value)
    (missing names : list string) (name : string) :
  type a = "output_fields_match_contract" ->
  get target "output" = Normal output ->
  get target "resolverMeta" = Normal resolverMeta ->
  checkOutputFieldsMatchContract output resolverMeta
  = Normal (not_passed [("reason", VString "missing_fields");
                        ("missingFields", VArray (List.map VString missing));
                        ("actualOutput", actual);
                        ("expectedFields", VArray (List.map VString names))]) ->
  is_json actual = true ->
  get status "resolverMeta" = Normal m ->
  get_optional (or_else m target) "resolverName" = Normal rn ->
  or_else rn (VString "unknown") = VString name ->
  check_assertion target status a
  = Normal (Some {| failure_id := id a;
                    failure_severity :=
                      match severity a with Some s => s | None => "fatal" end;
                    failure_message :=
                      missing_fields_guidance (render actual)
                        (String.concat ", "
                           (List.map (fun n => dquote ++ n ++ dquote) names))
                        (resolver_tips name) |}).
Proof.
  intros Htype Houtput Hmeta Hresult Hjson Hstatus Hrn Hname.
  unfold check_assertion. rewrite Htype.
  change (lookup_handler "output_fields_match_contract")
    with (Some (fun (ctx : value) (_ : Assertion) (_ : value) =>
                  o <- get ctx "output" ;; m <- get ctx "resolverMeta" ;;
                  checkOutputFieldsMatchContract o m)).
  cbv beta iota. rewrite Houtput. cbn [bind]. rewrite Hmeta. cbn [bind].
  rewrite Hresult. unfold not_passed.
  cbn [bind typeof String.eqb Ascii.eqb Bool.eqb strict_equal negb andb get lookup
       truthy].
  rewrite Hstatus. cbn [bind]. unfold getGuidanceMessage.
  rewrite Hrn. cbn [bind]. rewrite Hname.
  cbn [bind String.eqb Ascii.eqb Bool.eqb get lookup strict_equal name_includes].
  rewrite (stringify_json actual Hjson).
  cbn [bind option_value to_string elements_for].
  rewrite map_quoted_names. cbn [bind].
  unfold resolver_tips.
  destruct (contains "bank" name); cbn [bind]; [reflexivity |].
  destruct (contains "telegram" name); reflexivity.
Qed.

Lemma missing_fields_are_reported_with_guidance_witness :
  let actual := VObject [("error", VString "INVALID_INPUT")] in
  let a := {| id := "f1"; type := "output_fields_match_contract"; severity := None;
              description := Some "Output must match the declared fields";
              field := None; expected := VUndefined |} in
  check_assertion
    (context_value (observation echo declaration_example [actual] None))
    (VObject [("resolverMeta", declaration_example)]) a
  = Normal (Some {| failure_id := "f1"; failure_severity := "fatal";
                    failure_message :=
                      missing_fields_guidance
                        ("{" ++ dquote ++ "error" ++ dquote ++ ":"
                             ++ dquote ++ "INVALID_INPUT" ++ dquote ++ "}")
                        (dquote ++ "balance" ++ dquote) bank_tip |}).
Proof.
  cbv zeta.
  exact (missing_fields_are_reported_with_guidance
           (context_value (observation echo declaration_example
                             [VObject [("error", VString "INVALID_INPUT")]] None))
           (VObject [("resolverMeta", declaration_example)])
           {| id := "f1"; type := "output_fields_match_contract"; severity := None;
              description := Some "Output must match the declared fields";
              field := None; expected := VUndefined |}
           (VObject [("error", VString "INVALID_INPUT")]) declaration_example
           (VObject [("error", VString "INVALID_INPUT")]) declaration_example
           (VString "bank-account-lookup") ["balance"] ["balance"]
           "bank-account-lookup"
           eq_refl eq_refl eq_refl eq_refl eq_refl eq_refl eq_refl eq_refl).
Defined.

(* ===================================================================== *)
(** * Properties of the badge generator *)
(* ===================================================================== *)

(** ** The badge's file name *)

Lemma length_append (s t : string) :
  Badge.length (s ++ t) = Badge.length s + Badge.length t.
Proof.
  induction s as [| c s IH]; simpl; [reflexivity |]. rewrite IH. lia.
Qed.

Lemma underscores_safe (n : nat) :
  forallb Badge.safe (list_ascii_of_string (Badge.underscores n)) = true.
Proof. induction n as [| n IH]; simpl; [reflexivity | exact IH]. Qed.

Lemma underscores_length (n : nat) : Badge.length (Badge.underscores n) = n.
Proof. induction n as [| n IH]; simpl; [reflexivity | now rewrite IH]. Qed.

Lemma list_ascii_append (s t : string) :
  list_ascii_of_string (s ++ t)
  = (list_ascii_of_string s ++ list_ascii_of_string t)%list.
Proof. induction s as [| c s IH]; simpl; [reflexivity | now rewrite IH]. Qed.

Lemma safeName_fixes_safe_names (s : string) :
  forallb Badge.safe (list_ascii_of_string s) = true -> Badge.safeName s = s.
Proof.
  induction s as [| c s IH]; simpl; [reflexivity |].
  intros H. apply andb_prop in H. destruct H as (Hc & Hs).
  rewrite Hc, (IH Hs). reflexivity.
Qed.

(** The sanitised name consists of letters, digits, underscores and hyphens
    only, has as many code units as the resolver name, and is a fixed point
    of the sanitisation.  The badge's file name therefore holds no path
    separator and no dot but the one of its extension, whatever the resolver
    is called. *)
Theorem safe_name_is_sanitised (resolverName : string) :
  forallb Badge.safe (list_ascii_of_string (Badge.safeName resolverName)) = true
  /\ Badge.length (Badge.safeName resolverName) = Badge.length resolverName
  /\ Badge.safeName (Badge.safeName resolverName) = Badge.safeName resolverName
  /\ (forall c, In c (list_ascii_of_string (Badge.safeName resolverName)) ->
        c <> "/"%char /\ c <> "\"%char /\ c <> "."%char).
Proof.
  assert (Hsafe : forallb Badge.safe
                    (list_ascii_of_string (Badge.safeName resolverName)) = true).
  { induction resolverName as [| c s IH]; [reflexivity |].
    cbn [Badge.safeName]. rewrite list_ascii_append, forallb_app, IH, andb_true_r.
    destruct (Badge.safe c) eqn:Hc; [simpl; now rewrite Hc | apply underscores_safe]. }
  split; [exact Hsafe | split; [| split]].
  - clear Hsafe. induction resolverName as [| c s IH]; [reflexivity |].
    cbn [Badge.safeName Badge.length]. rewrite length_append, IH. f_equal.
    destruct (Badge.safe c) eqn:Hc; [| apply underscores_length].
    cbn [Badge.length]. lia.
  - apply safeName_fixes_safe_names, Hsafe.
  - intros c Hin. rewrite forallb_forall in Hsafe. specialize (Hsafe c Hin).
    repeat split; intros ->; discriminate Hsafe.
Qed.

(** Sanitising is not injective: resolvers whose names differ only in
    characters outside the class share one badge file. *)
Example badge_files_collide :
  Badge.badgeFile {| Badge.resolverName := Some "@acme/bank lookup";
                     Badge.version := VUndefined; Badge.passed := VBool true |}
  = "_acme_bank_lookup-badge.svg"
  /\ Badge.badgeFile {| Badge.resolverName := Some "_acme.bank_lookup";
                        Badge.version := VString "2"; Badge.passed := VBool false |}
     = "_acme_bank_lookup-badge.svg".
Proof. split; reflexivity. Qed.

Definition attribute_width (width : nat) : string :=
  Badge.attribute "width" (nat_to_string width).

(** ** The badge's text *)

Lemma contains_unfold (sub s : string) :
  contains sub s
  = (prefix sub s
     || match s with EmptyString => false | String _ rest => contains sub rest end).
Proof. destruct s; reflexivity. Qed.

Lemma prefix_append (s t : string) : prefix s (s ++ t) = true.
Proof.
  induction s as [| c s IH]; [destruct t; reflexivity |]. simpl.
  destruct (ascii_dec c c) as [_ | Hne]; [exact IH | now contradiction Hne].
Qed.

Lemma prefix_left (sub s t : string) :
  prefix sub s = true -> prefix sub (s ++ t) = true.
Proof.
  revert s. induction sub as [| a sub IH]; intros s.
  - intros _. destruct (s ++ t); reflexivity.
  - destruct s as [| b s]; simpl; [discriminate |].
    destruct (ascii_dec a b); [apply IH | discriminate].
Qed.

Lemma contains_left (sub s t : string) :
  contains sub s = true -> contains sub (s ++ t) = true.
Proof.
  induction s as [| c s IH].
  - simpl. rewrite orb_false_r. intros H.
    pose proof (prefix_left sub "" t H) as Hp. cbn [append] in Hp.
    rewrite contains_unfold, Hp. reflexivity.
  - cbn [contains append]. intros H. apply orb_prop in H. destruct H as [H | H].
    + pose proof (prefix_left sub (String c s) t H) as Hp. cbn [append] in Hp.
      rewrite Hp. reflexivity.
    + rewrite (IH H). apply orb_true_r.
Qed.

Lemma contains_right (sub s t : string) :
  contains sub t = true -> contains sub (s ++ t) = true.
Proof.
  intros H. induction s as [| c s IH]; [exact H |].
  cbn [append contains]. rewrite IH. apply orb_true_r.
Qed.

Lemma contains_append (sub pre post : string) :
  contains sub (pre ++ sub ++ post) = true.
Proof.
  apply contains_right. rewrite contains_unfold, prefix_append. reflexivity.
Qed.

Lemma contains_concat (sub sep x : string) (l : list string) :
  In x l -> contains sub x = true -> contains sub (String.concat sep l) = true.
Proof.
  intros Hin Hx. induction l as [| y rest IH]; [contradiction |].
  cbn [String.concat]. destruct Hin as [-> | Hin].
  - destruct rest; [exact Hx | now apply contains_left].
  - destruct rest as [| z rest]; [contradiction |].
    apply contains_right, contains_right, IH, Hin.
Qed.

(** The file name is sanitised, the text is not: the resolver name is copied
    into the SVG document as it is, markup included. *)
Theorem badge_shows_the_raw_name (args : Badge.Options) (isoString svg : string) :
  Badge.badgeSvg args isoString = Normal svg ->
  contains (Badge.name_of args) svg = true.
Proof.
  unfold Badge.badgeSvg, Badge.badgeText. intros H.
  apply bind_normal in H. destruct H as (text & Htext & H).
  apply bind_normal in Htext. destruct Htext as (versionText & _ & Htext).
  injection Htext as <-. injection H as <-.
  unfold lines.
  match goal with
  | |- contains _ (String.concat _ ?l) = true =>
      apply contains_concat with (x := nth 7 l "")
  end.
  - cbn [nth]. simpl. tauto.
  - cbn [nth append].
    repeat match goal with
           | |- contains _ (String _ _) = true => apply (contains_right _ (String _ ""))
           end.
    exact (contains_append (Badge.name_of args) "" _).
Qed.

Lemma badge_shows_the_raw_name_witness :
  let args := {| Badge.resolverName := Some "<b>bank</b>";
                 Badge.version := VString "1.2.0"; Badge.passed := VBool true |} in
  exists svg,
    Badge.badgeSvg args "2026-01-31T08:15:00.000Z" = Normal svg
    /\ contains "    O-lang | <b>bank</b> v1.2.0 — Certified (2026-01-31)" svg = true
    /\ contains (attribute_width 384) svg = true
    /\ contains "<b>bank</b>" svg = true.
Proof.
  cbv zeta. eexists. split; [reflexivity |]. split; [reflexivity |].
  split; [reflexivity |].
  apply (badge_shows_the_raw_name
           {| Badge.resolverName := Some "<b>bank</b>";
              Badge.version := VString "1.2.0"; Badge.passed := VBool true |}
           "2026-01-31T08:15:00.000Z").
  reflexivity.
Defined.
